(** * MatanuskaTpt: trip accounting, flag gating, weekly buckets and diesel checks

    A shallow embedding of the arithmetic helpers of the fleet dashboard
    ([utils/helpers], the weekly aggregator of [YearToDateKPIs], the probe
    forms of the diesel modals) together with the properties the
    specification states about them.

    Modelling conventions.
    - A JavaScript [number] of the trip data is an exact rational ([Q]):
      rounding of binary floating point is not represented.  Where the source
      itself branches on [NaN] (the probe forms, which parse user text) the
      number type is [JsNum], which has it.
    - A [try { ... } catch] block is [catch] in the error monad [sum JsError];
      a member access or call the engine would reject raises [TypeError].
    - A value that the source tests with [Array.isArray] is a [JsArr]: it may
      be [undefined], [null], some other non-array value, or an array. *)

From Stdlib Require Import ZArith QArith Qabs Qround Bool List Lia Lqa String.
From Stdlib Require Import Permutation Sorted.
From ExtLib Require Import Structures.Monad Structures.MonadExc.
From ExtLib Require Import Data.Monads.EitherMonad.
Import ListNotations.
Import MonadNotation.
Local Open Scope monad_scope.
Local Open Scope Q_scope.

Set Implicit Arguments.

(** ** The fragment of the JavaScript runtime the helpers rely on *)

Module Js.

Inductive JsError : Type :=
| TypeError.

(** The outcome of evaluating a function body: a value, or a thrown error. *)
Definition completion : Type -> Type := sum JsError.

(** A run-time value at a place where the code expects an array. *)
Inductive JsArr (A : Type) : Type :=
| Undefined
| Null
| NonArray (truthy : bool)
| Arr (items : list A).

Arguments Undefined {A}.
Arguments Null {A}.
Arguments NonArray {A} truthy.
Arguments Arr {A} items.

(** [!v] is [negb (truthy v)]; every array, also the empty one, is truthy. *)
Definition truthy {A} (v : JsArr A) : bool :=
  match v with
  | Undefined | Null => false
  | NonArray b => b
  | Arr _ => true
  end.

Definition isArray {A} (v : JsArr A) : bool :=
  match v with
  | Arr _ => true
  | _ => false
  end.

(** The elements of the value when it is an array, none otherwise. *)
Definition entries {A} (v : JsArr A) : list A :=
  match v with
  | Arr l => l
  | _ => []
  end.

(** [v.filter(p)]: reading [filter] off [undefined] or [null] throws, and on
    any other non-array the member is not a function, which throws too. *)
Definition filter {A} (v : JsArr A) (p : A -> bool) : completion (list A) :=
  match v with
  | Arr l => ret (List.filter p l)
  | _ => raise TypeError
  end.

(** [v.reduce(f, init)], a left fold. *)
Definition reduce {A B} (v : JsArr A) (f : B -> A -> B) (init : B)
  : completion B :=
  match v with
  | Arr l => ret (fold_left f l init)
  | _ => raise TypeError
  end.

(** [v.forEach(f)] where the callback updates an accumulator [B] it closes
    over; an error thrown by the callback ends the loop and propagates. *)
Fixpoint each {A B} (f : B -> A -> completion B) (l : list A) (acc : B)
  : completion B :=
  match l with
  | [] => ret acc
  | x :: xs => acc' <- f acc x ;; each f xs acc'
  end.

Definition forEach {A B} (v : JsArr A) (f : B -> A -> completion B) (acc : B)
  : completion B :=
  match v with
  | Arr l => each f l acc
  | _ => raise TypeError
  end.

(** [x || 0] on an optional number: [undefined] and [0] both give [0]. *)
Definition or_zero (x : option Q) : Q :=
  match x with
  | Some q => if Qeq_bool q 0 then 0 else q
  | None => 0
  end.

(** [a > b] on numbers. *)
Definition gt (a b : Q) : bool := negb (Qle_bool a b).

(** [Array.prototype.sort(cmp)]: the sort is stable, and [cmp a b <= 0]
    keeps [a] in front of [b].  Insertion from the right realises it. *)
Fixpoint insert {A} (cmp : A -> A -> Z) (x : A) (l : list A) : list A :=
  match l with
  | [] => [x]
  | y :: ys => if (cmp x y <=? 0)%Z then x :: l else y :: insert cmp x ys
  end.

Fixpoint sort {A} (cmp : A -> A -> Z) (l : list A) : list A :=
  match l with
  | [] => []
  | x :: xs => insert cmp x (sort cmp xs)
  end.

End Js.

Import Js.

(** ** Entity model *)

Inductive InvestigationStatus : Type :=
| Pending
| InProgress
| Resolved.

Inductive TripStatus : Type :=
| Active
| Completed
| Invoiced
| Paid.

Inductive Currency : Type :=
| USD
| ZAR.

Definition InvestigationStatus_eqb (a b : InvestigationStatus) : bool :=
  match a, b with
  | Pending, Pending | InProgress, InProgress | Resolved, Resolved => true
  | _, _ => false
  end.

Definition TripStatus_eqb (a b : TripStatus) : bool :=
  match a, b with
  | Active, Active | Completed, Completed
  | Invoiced, Invoiced | Paid, Paid => true
  | _, _ => false
  end.

(** [cost.investigationStatus === s]; an absent status equals no literal. *)
Definition status_is (o : option InvestigationStatus) (s : InvestigationStatus)
  : bool :=
  match o with
  | Some s' => InvestigationStatus_eqb s' s
  | None => false
  end.

(** One expense line.  [amount] is [None] when the stored value is not a
    number.  [date] and [flaggedAt] hold the time value (ms) that
    [new Date(...)] gives for the stored string; an absent or empty
    [flaggedAt] is [None]. *)
Record CostEntry : Type := mkCostEntry {
  costId : string;
  amount : option Q;
  date : Z;
  isFlagged : bool;
  investigationStatus : option InvestigationStatus;
  flaggedAt : option Z
}.

Record AdditionalCost : Type := mkAdditionalCost {
  additionalAmount : Q
}.

(** A trip.  The three offload fields hold local time values (ms since the
    epoch, in the zone of the browser). *)
Record Trip : Type := mkTrip {
  tripId : string;
  fleetNumber : string;
  route : string;
  driverName : string;
  status : TripStatus;
  baseRevenue : option Q;
  revenueCurrency : option Currency;
  distanceKm : option Q;
  costs : JsArr CostEntry;
  additionalCosts : option (list AdditionalCost);
  finalOffloadDateTime : option Z;
  actualOffloadDateTime : option Z;
  endDate : Z
}.

(** A flagged cost entry with the parent trip's fleet, route and driver. *)
Record FlaggedCost : Type := mkFlaggedCost {
  cost : CostEntry;
  tripFleetNumber : string;
  tripRoute : string;
  tripDriverName : string
}.

Record KPIs : Type := mkKPIs {
  totalRevenue : Q;
  totalExpenses : Q;
  netProfit : Q;
  profitMargin : Q;
  costPerKm : Q;
  currency : option Currency
}.

(** ** utils/helpers: cost and KPI rollups *)

Definition calculateTotalCosts (costs : JsArr CostEntry) : completion Q :=
  if negb (truthy costs) || negb (isArray costs) then ret 0
  else
    catch
      (reduce costs
         (fun sum cost =>
            let amount :=
              match amount cost with
              | Some a => a
              | None => 0
              end in
            sum + amount)
         0)
      (fun _ => ret 0).

Definition calculateKPIs (trip : Trip) : completion KPIs :=
  catch
    (let totalRevenue := or_zero (baseRevenue trip) in
     totalExpenses <- calculateTotalCosts (costs trip) ;;
     let additionalCostsTotal :=
       or_zero
         (option_map
            (fun l => fold_left (fun sum cost => sum + additionalAmount cost) l 0)
            (additionalCosts trip)) in
     let totalCosts := totalExpenses + additionalCostsTotal in
     let netProfit := totalRevenue - totalCosts in
     let profitMargin :=
       if gt totalRevenue 0 then (netProfit / totalRevenue) * 100 else 0 in
     let costPerKm :=
       match distanceKm trip with
       | Some d =>
           if negb (Qeq_bool d 0) && gt d 0 then totalCosts / d else 0
       | None => 0
       end in
     ret {| totalRevenue := totalRevenue;
            totalExpenses := totalCosts;
            netProfit := netProfit;
            profitMargin := profitMargin;
            costPerKm := costPerKm;
            currency := revenueCurrency trip |})
    (fun _ =>
       ret {| totalRevenue := 0;
              totalExpenses := 0;
              netProfit := 0;
              profitMargin := 0;
              costPerKm := 0;
              currency :=
                match revenueCurrency trip with
                | Some c => Some c
                | None => Some ZAR
                end |}).

(** ** utils/helpers: flags and investigations *)

Definition getFlaggedCostsCount (costs : JsArr CostEntry) : completion nat :=
  if negb (truthy costs) || negb (isArray costs) then ret 0%nat
  else
    catch
      (flagged <- filter costs (fun cost => isFlagged cost) ;;
       ret (List.length flagged))
      (fun _ => ret 0%nat).

Definition getUnresolvedFlagsCount (costs : JsArr CostEntry) : completion nat :=
  if negb (truthy costs) || negb (isArray costs) then ret 0%nat
  else
    catch
      (unresolved <-
         filter costs
           (fun cost =>
              isFlagged cost
              && negb (status_is (investigationStatus cost) Resolved)) ;;
       ret (List.length unresolved))
      (fun _ => ret 0%nat).

Definition canCompleteTrip (trip : Trip) : completion bool :=
  catch
    (unresolvedFlags <- getUnresolvedFlagsCount (costs trip) ;;
     ret (Nat.eqb unresolvedFlags 0))
    (fun _ => ret false).

Definition shouldAutoCompleteTrip (trip : Trip) : completion bool :=
  catch
    (if negb (TripStatus_eqb (status trip) Active) then ret false
     else
       flaggedCosts <- filter (costs trip) (fun cost => isFlagged cost) ;;
       if Nat.eqb (List.length flaggedCosts) 0 then ret false
       else
         unresolvedFlags <- getUnresolvedFlagsCount (costs trip) ;;
         ret (Nat.eqb unresolvedFlags 0))
    (fun _ => ret false).

(** [new Date(b.flaggedAt || b.date).getTime()]. *)
Definition flagTime (c : FlaggedCost) : Z :=
  match flaggedAt (cost c) with
  | Some t => t
  | None => date (cost c)
  end.

Definition isPending (c : FlaggedCost) : bool :=
  status_is (investigationStatus (cost c)) Pending.

(** The comparator handed to [sort] in [getAllFlaggedCosts]. *)
Definition compareFlagged (a b : FlaggedCost) : Z :=
  if isPending a && negb (isPending b) then (-1)%Z
  else if negb (isPending a) && isPending b then 1%Z
  else (flagTime b - flagTime a)%Z.

Definition getAllFlaggedCosts (trips : JsArr Trip)
  : completion (list FlaggedCost) :=
  if negb (truthy trips) || negb (isArray trips) then ret []
  else
    catch
      (flaggedCosts <-
         forEach trips
           (fun flaggedCosts trip =>
              if negb (truthy (costs trip)) || negb (isArray (costs trip))
              then ret flaggedCosts
              else
                forEach (costs trip)
                  (fun flaggedCosts cost =>
                     if isFlagged cost then
                       ret (flaggedCosts ++
                            [{| cost := cost;
                                tripFleetNumber := fleetNumber trip;
                                tripRoute := route trip;
                                tripDriverName := driverName trip |}])
                     else ret flaggedCosts)
                  flaggedCosts)
           [] ;;
       ret (sort compareFlagged flaggedCosts))
      (fun _ => ret []).

(** ** Dates: the time-value arithmetic of the runtime

    A [Date] is its local time value: milliseconds since the epoch read in
    the browser's zone, whose offset is taken as constant (the fleet runs in
    UTC+2 without daylight saving).  Differences of [getTime()] are then
    differences of local time values.  The names are ECMAScript's. *)

Module JsDate.
Local Open Scope Z_scope.

Definition msPerDay : Z := 86400000.

Definition Day (t : Z) : Z := t / msPerDay.

Definition TimeWithinDay (t : Z) : Z := t mod msPerDay.

Definition DaysInYear (y : Z) : Z :=
  if (y mod 4 =? 0) && (negb (y mod 100 =? 0) || (y mod 400 =? 0))
  then 366 else 365.

Definition DayFromYear (y : Z) : Z :=
  365 * (y - 1970) + (y - 1969) / 4 - (y - 1901) / 100 + (y - 1601) / 400.

(** The year whose first day is the last one at or before day [d]
    (computed on the 400-year cycle counted from 1 March 0000). *)
Definition YearFromDay (d : Z) : Z :=
  let z := d + 719468 in
  let era := z / 146097 in
  let doe := z mod 146097 in
  let yoe := (doe - doe / 1460 + doe / 36524 - doe / 146096) / 365 in
  let doy := doe - (365 * yoe + yoe / 4 - yoe / 100) in
  let mp := (5 * doy + 2) / 153 in
  yoe + era * 400 + (if mp <? 10 then 0 else 1).

Definition YearFromTime (t : Z) : Z := YearFromDay (Day t).

Definition leapDays (y : Z) : Z := DaysInYear y - 365.

Definition DayWithinYear (t : Z) : Z := Day t - DayFromYear (YearFromTime t).

(** Day within the year on which month [m] (0 = January) begins. *)
Definition monthStart (leap m : Z) : Z :=
  if m <=? 0 then 0
  else if m =? 1 then 31
  else if m =? 2 then 59 + leap
  else if m =? 3 then 90 + leap
  else if m =? 4 then 120 + leap
  else if m =? 5 then 151 + leap
  else if m =? 6 then 181 + leap
  else if m =? 7 then 212 + leap
  else if m =? 8 then 243 + leap
  else if m =? 9 then 273 + leap
  else if m =? 10 then 304 + leap
  else 334 + leap.

Definition MonthFromTime (t : Z) : Z :=
  let d := DayWithinYear t in
  let leap := leapDays (YearFromTime t) in
  if d <? 31 then 0
  else if d <? 59 + leap then 1
  else if d <? 90 + leap then 2
  else if d <? 120 + leap then 3
  else if d <? 151 + leap then 4
  else if d <? 181 + leap then 5
  else if d <? 212 + leap then 6
  else if d <? 243 + leap then 7
  else if d <? 273 + leap then 8
  else if d <? 304 + leap then 9
  else if d <? 334 + leap then 10
  else 11.

Definition DateFromTime (t : Z) : Z :=
  DayWithinYear t
  - monthStart (leapDays (YearFromTime t)) (MonthFromTime t) + 1.

Definition WeekDay (t : Z) : Z := (Day t + 4) mod 7.

(** [MakeDay]: a month outside 0..11 carries into the year, a date outside
    the month carries into the neighbouring months. *)
Definition MakeDay (year month dt : Z) : Z :=
  let ym := year + month / 12 in
  let mn := month mod 12 in
  DayFromYear ym + monthStart (leapDays ym) mn + dt - 1.

Definition MakeDate (day time : Z) : Z := day * msPerDay + time.

(** The methods of [Date.prototype] the aggregator calls. *)
Definition getFullYear (t : Z) : Z := YearFromTime t.
Definition getDate (t : Z) : Z := DateFromTime t.
Definition getDay (t : Z) : Z := WeekDay t.

Definition setDate (t dt : Z) : Z :=
  MakeDate (MakeDay (YearFromTime t) (MonthFromTime t) dt) (TimeWithinDay t).

(** [new Date(year, month, dt)]: local midnight of that day. *)
Definition ofYMD (year month dt : Z) : Z := MakeDate (MakeDay year month dt) 0.

(** [new Date(year, month, dt, hours)]. *)
Definition ofYMDH (year month dt hours : Z) : Z :=
  MakeDate (MakeDay year month dt) (hours * 3600000).

End JsDate.

(** ** YearToDateKPIs: the weekly aggregator's bucketing *)

Module Weekly.
Import JsDate.

(** The filter that selects the trips the aggregator buckets. *)
Definition isCompletedTrip (trip : Trip) : bool :=
  TripStatus_eqb (status trip) Completed
  || TripStatus_eqb (status trip) Invoiced
  || TripStatus_eqb (status trip) Paid.

(** [trip.finalOffloadDateTime || trip.actualOffloadDateTime || trip.endDate] *)
Definition offloadDate (trip : Trip) : Z :=
  match finalOffloadDateTime trip with
  | Some t => t
  | None =>
      match actualOffloadDateTime trip with
      | Some t => t
      | None => endDate trip
      end
  end.

Definition getWeekNumber (date : Z) : Z :=
  let firstDayOfYear := ofYMD (getFullYear date) 0 1 in
  let pastDaysOfYear : Q :=
    inject_Z (date - firstDayOfYear) / inject_Z 86400000 in
  Qceiling ((pastDaysOfYear + inject_Z (getDay firstDayOfYear) + 1) / 7).

(** [monday.setDate(date.getDate() - date.getDay() + 1)] on a copy of [date]. *)
Definition mondayOf (date : Z) : Z :=
  setDate date (getDate date - getDay date + 1)%Z.

(** [sunday.setDate(monday.getDate() + 6)] on a copy of [monday]. *)
Definition sundayOf (monday : Z) : Z :=
  setDate monday (getDate monday + 6)%Z.

(** The key [`${monday.getFullYear()}-W${getWeekNumber(monday)}`], kept as
    the pair of numbers the template prints. *)
Definition weekKeyOfDate (date : Z) : Z * Z :=
  let monday := mondayOf date in
  (getFullYear monday, getWeekNumber monday).

Definition weekKey (trip : Trip) : Z * Z := weekKeyOfDate (offloadDate trip).

(** The keys under which the aggregator files the trips, in visiting order. *)
Definition weekKeys (trips : list Trip) : list (Z * Z) :=
  map weekKey (List.filter isCompletedTrip trips).

(** The calendar week of the specification: Monday 00:00 up to the next
    Monday, numbered from the week of the epoch (a Thursday). *)
Definition calendarWeek (date : Z) : Z := ((Day date + 3) / 7)%Z.

(** Whole days from 1 January to the date, plus the weekday of 1 January,
    plus one: the integer part of what [getWeekNumber] divides by seven. *)
Definition weekOffset (m : Z) : Z :=
  (Day m - DayFromYear (YearFromTime m)
   + (DayFromYear (YearFromTime m) + 4) mod 7 + 1)%Z.

End Weekly.

(** ** Diesel forms: the probe cross-check *)

(** A number that may be [NaN], as [parseFloat] and [Number] return it. *)
Inductive JsNum : Type :=
| NaN
| Num (q : Q).

(** The text of a numeric form field: empty, or text together with the
    number [parseFloat] (or [Number]) reads from it. *)
Inductive FieldText : Type :=
| Empty
| Text (parsed : JsNum).

Module Num.

Definition parse (f : FieldText) : JsNum :=
  match f with
  | Empty => NaN
  | Text n => n
  end.

(** [!field]: only the empty string is falsy. *)
Definition blank (f : FieldText) : bool :=
  match f with
  | Empty => true
  | Text _ => false
  end.

Definition isNaN (n : JsNum) : bool :=
  match n with
  | NaN => true
  | Num _ => false
  end.

(** [a - b] with [a] a stored number. *)
Definition sub (a : Q) (b : JsNum) : JsNum :=
  match b with
  | NaN => NaN
  | Num q => Num (a - q)
  end.

Definition abs (n : JsNum) : JsNum :=
  match n with
  | NaN => NaN
  | Num q => Num (Qabs q)
  end.

(** Every comparison with [NaN] is false. *)
Definition gt (n : JsNum) (b : Q) : bool :=
  match n with
  | NaN => false
  | Num q => Js.gt q b
  end.

Definition lt (n : JsNum) (b : Q) : bool :=
  match n with
  | NaN => false
  | Num q => Js.gt b q
  end.

End Num.

(** The diesel record, with the fields the probe forms read and write. *)
Record DieselRecord : Type := mkDieselRecord {
  dieselId : string;
  dieselFleetNumber : string;
  litresFilled : Q;
  probeReading : option JsNum;
  probeDiscrepancy : option JsNum;
  probeVerified : bool;
  probeVerificationNotes : string;
  probeVerifiedBy : string
}.

Module ProbeVerificationModal.

Record FormData : Type := mkFormData {
  formProbeReading : FieldText;
  verificationNotes : string;
  actionTaken : string;
  verifiedBy : string
}.

(** [!notes] on a string. *)
Definition blankText (s : string) : bool :=
  match s with
  | EmptyString => true
  | _ => false
  end.

Definition calculateDiscrepancy (dieselRecord : DieselRecord)
  (formData : FormData) : option JsNum :=
  if Num.blank (formProbeReading formData) then None
  else
    let probeReading := Num.parse (formProbeReading formData) in
    Some (Num.sub (litresFilled dieselRecord) probeReading).

Definition hasLargeDiscrepancy (dieselRecord : DieselRecord)
  (formData : FormData) : bool :=
  match calculateDiscrepancy dieselRecord formData with
  | None => false
  | Some discrepancy => Num.gt (Num.abs discrepancy) 50
  end.

(** The [newErrors] object that [validateForm] fills, as the list of its
    keys with their messages. *)
Definition formErrors (dieselRecord : DieselRecord) (formData : FormData)
  : list (string * string) :=
  let probeErrors :=
    if Num.blank (formProbeReading formData) then
      [("probeReading"%string, "Probe reading is required"%string)]
    else if Num.isNaN (Num.parse (formProbeReading formData))
            || Num.lt (Num.parse (formProbeReading formData)) 0 then
      [("probeReading"%string, "Must be a valid positive number"%string)]
    else [] in
  let notesErrors :=
    if hasLargeDiscrepancy dieselRecord formData
       && blankText (verificationNotes formData) then
      [("verificationNotes"%string,
        "Verification notes are required for large discrepancies"%string)]
    else [] in
  (probeErrors ++ notesErrors)%list.

Definition validateForm (dieselRecord : DieselRecord) (formData : FormData)
  : bool :=
  Nat.eqb (List.length (formErrors dieselRecord formData)) 0.

(** [handleSubmit]: [None] when validation stops it, else the record passed
    to [updateDieselRecord]. *)
Definition handleSubmit (dieselRecord : DieselRecord) (formData : FormData)
  : option DieselRecord :=
  if negb (validateForm dieselRecord formData) then None
  else
    let probeReading := Num.parse (formProbeReading formData) in
    let probeDiscrepancy := Num.sub (litresFilled dieselRecord) probeReading in
    Some {| dieselId := dieselId dieselRecord;
            dieselFleetNumber := dieselFleetNumber dieselRecord;
            litresFilled := litresFilled dieselRecord;
            probeReading := Some probeReading;
            probeDiscrepancy := Some probeDiscrepancy;
            probeVerified := true;
            probeVerificationNotes := verificationNotes formData;
            probeVerifiedBy := verifiedBy formData |}.

End ProbeVerificationModal.

Module ManualDieselEntryModal.

Record FormData : Type := mkFormData {
  formFleetNumber : string;
  formLitresFilled : FieldText;
  formProbeReading : FieldText
}.

(** [hasProbe] is [TRUCKS_WITH_PROBES.includes(formData.fleetNumber)]; the
    table lives in the types module and is taken as a parameter. *)
Definition calculateProbeDiscrepancy (hasProbe : bool) (formData : FormData)
  : option JsNum :=
  if negb hasProbe
     || Num.blank (formProbeReading formData)
     || Num.blank (formLitresFilled formData)
  then None
  else
    let probeReading := Num.parse (formProbeReading formData) in
    let litresFilled := Num.parse (formLitresFilled formData) in
    Some match litresFilled with
         | NaN => NaN
         | Num l => Num.sub l probeReading
         end.

Definition hasLargeDiscrepancy (hasProbe : bool) (formData : FormData)
  : bool :=
  match calculateProbeDiscrepancy hasProbe formData with
  | None => false
  | Some probeDiscrepancy => Num.gt (Num.abs probeDiscrepancy) 50
  end.

End ManualDieselEntryModal.

(** ** Diesel efficiency evaluator *)

Inductive PerformanceStatus : Type :=
| Poor
| Normal
| Excellent.

(** The per-fleet norm, as [DieselNorms] declares it. *)
Record DieselNorms : Type := mkDieselNorms {
  normFleetNumber : string;
  expectedKmPerLitre : Q;
  tolerancePercentage : Q
}.

(** The classification fields of the debrief modal's [DieselRecord]. *)
Record Evaluation : Type := mkEvaluation {
  efficiencyVariance : Q;
  performanceStatus : PerformanceStatus;
  requiresDebrief : bool
}.

Definition isPoor (s : PerformanceStatus) : bool :=
  match s with
  | Poor => true
  | _ => false
  end.

Module DieselEvaluator.

(** Modelled from the spec: the function that fills [efficiencyVariance],
    [performanceStatus] and [requiresDebrief] of a diesel record is not among
    the source files (only the record and norm declarations and the readers
    of these fields are).  Section 4.4: the variance is
    (actual - expected) / expected * 100; the status is poor below minus
    the tolerance, excellent above plus the tolerance, normal otherwise; a
    debrief is required when the status is poor or the magnitude of the
    variance exceeds the tolerance. *)
Definition evaluate (norm : DieselNorms) (actualKmPerLitre : Q) : Evaluation :=
  let variance :=
    (actualKmPerLitre - expectedKmPerLitre norm)
    / expectedKmPerLitre norm * 100 in
  let performance :=
    if Js.gt (- tolerancePercentage norm) variance then Poor
    else if Js.gt variance (tolerancePercentage norm) then Excellent
    else Normal in
  {| efficiencyVariance := variance;
     performanceStatus := performance;
     requiresDebrief :=
       isPoor performance
       || Js.gt (Qabs variance) (tolerancePercentage norm) |}.

End DieselEvaluator.

(** ** The vocabulary of the specification *)

(** A value the code expects to be an array and is not: [undefined], [null],
    or any other non-array. *)
Definition Malformed {A} (v : JsArr A) : Prop :=
  match v with
  | Arr _ => False
  | _ => True
  end.

(** A flag that still blocks completion: raised and not yet resolved. *)
Definition unresolvedFlag (c : CostEntry) : bool :=
  isFlagged c
  && match investigationStatus c with
     | Some Resolved => false
     | _ => true
     end.

(** [countUnresolvedFlags] of section 4.2, by recursion over the entries. *)
Fixpoint countUnresolvedFlags (l : list CostEntry) : nat :=
  match l with
  | [] => 0
  | c :: rest =>
      ((if unresolvedFlag c then 1 else 0) + countUnresolvedFlags rest)%nat
  end.

Fixpoint countFlagged (l : list CostEntry) : nat :=
  match l with
  | [] => 0
  | c :: rest => ((if isFlagged c then 1 else 0) + countFlagged rest)%nat
  end.

(** Sum of a list of amounts. *)
Fixpoint total (l : list Q) : Q :=
  match l with
  | [] => 0
  | q :: rest => q + total rest
  end.

(** The revenue of a trip; a trip without [baseRevenue] has none. *)
Definition revenue (trip : Trip) : Q :=
  match baseRevenue trip with
  | Some q => q
  | None => 0
  end.

(** The amount an entry adds to a total: its [amount] when that is a
    number. *)
Definition costAmount (c : CostEntry) : Q :=
  match amount c with
  | Some a => a
  | None => 0
  end.

Definition costAmounts (trip : Trip) : list Q :=
  map costAmount (entries (costs trip)).

Definition additionalAmounts (trip : Trip) : list Q :=
  match additionalCosts trip with
  | Some l => map additionalAmount l
  | None => []
  end.

(** A KPI record all of whose figures are zero. *)
Definition zeroedKPIs (k : KPIs) : Prop :=
  totalRevenue k == 0 /\ totalExpenses k == 0 /\ netProfit k == 0
  /\ profitMargin k == 0 /\ costPerKm k == 0.

(** The flagged entries of a trip, each with the trip's fleet, route and
    driver. *)
Definition enrich (trip : Trip) (c : CostEntry) : FlaggedCost :=
  {| cost := c;
     tripFleetNumber := fleetNumber trip;
     tripRoute := route trip;
     tripDriverName := driverName trip |}.

Definition flaggedOf (trip : Trip) : list FlaggedCost :=
  map (enrich trip) (List.filter isFlagged (entries (costs trip))).

(** The triage order: a pending entry precedes any entry that is not
    pending; within the pending entries, and within the others, the later
    flag time comes first. *)
Definition triageBefore (a b : FlaggedCost) : Prop :=
  (isPending a = true /\ isPending b = false)
  \/ (isPending a = isPending b /\ (flagTime b <= flagTime a)%Z).


(** ** Sample data *)

Module Samples.
Import JsDate.
Local Open Scope string_scope.

Definition entry (id : string) (amt : Q) (day : Z) (flagged : bool)
  (st : option InvestigationStatus) (at_ : option Z) : CostEntry :=
  {| costId := id; amount := Some amt; date := ofYMD 2025 0 day;
     isFlagged := flagged; investigationStatus := st; flaggedAt := at_ |}.

Definition tolls : CostEntry := entry "c1" 200 6 false None None.
Definition fuel : CostEntry := entry "c2" 150 7 false None None.
Definition fine : CostEntry :=
  entry "c3" 80 8 true (Some Resolved) (Some (ofYMDH 2025 0 9 10)).
Definition repair : CostEntry :=
  entry "c4" 300 8 true (Some Pending) (Some (ofYMDH 2025 0 9 15)).

Definition trip (st : TripStatus) (revenue : option Q)
  (cs : JsArr CostEntry) (ended : Z) : Trip :=
  {| tripId := "t1"; fleetNumber := "22H"; route := "Harare - Beitbridge";
     driverName := "E. Mukonyerwa"; status := st; baseRevenue := revenue;
     revenueCurrency := Some ZAR; distanceKm := Some 100; costs := cs;
     additionalCosts := None; finalOffloadDateTime := None;
     actualOffloadDateTime := None; endDate := ended |}.

(** Scenario 7 of the specification. *)
Definition scenarioTrip : Trip :=
  trip Active (Some 1000) (Arr [tolls; fuel]) (ofYMD 2025 0 10).

Definition noCostsTrip : Trip := trip Active (Some 1000) (Arr []) (ofYMD 2025 0 10).
Definition nullCostsTrip : Trip := trip Active (Some 1000) Null (ofYMD 2025 0 10).
Definition resolvedTrip : Trip :=
  trip Active (Some 1000) (Arr [tolls; fine]) (ofYMD 2025 0 10).
Definition blockedTrip : Trip :=
  trip Active (Some 1000) (Arr [fine; repair]) (ofYMD 2025 0 10).
Definition lossTrip : Trip :=
  trip Active (Some (-100)) (Arr []) (ofYMD 2025 0 10).
Definition unpricedTrip : Trip :=
  trip Active None (Arr [tolls]) (ofYMD 2025 0 10).

(** Two completed trips of the week of Monday 6 January 2025, offloaded
    at noon on the Saturday and on the Sunday. *)
Definition saturdayTrip : Trip :=
  trip Completed (Some 1000) (Arr []) (ofYMDH 2025 0 11 12).
Definition sundayTrip : Trip :=
  trip Completed (Some 1000) (Arr []) (ofYMDH 2025 0 12 12).



Definition entryForm (litres reading : FieldText)
  : ManualDieselEntryModal.FormData :=
  {| ManualDieselEntryModal.formFleetNumber := "22H";
     ManualDieselEntryModal.formLitresFilled := litres;
     ManualDieselEntryModal.formProbeReading := reading |}.

(** Property 5 of the specification: norm 3.0 km/l with 10% tolerance. *)
Definition norm3 : DieselNorms :=
  {| normFleetNumber := "22H"; expectedKmPerLitre := 3;
     tolerancePercentage := 10 |}.

End Samples.

(** * Further code of the dashboard *)

(** ** More of the runtime *)

Module JsMore.

(** [!s] on a string: only the empty string is falsy. *)
Definition blank (s : string) : bool :=
  match s with
  | EmptyString => true
  | _ => false
  end.


End JsMore.

(** ** utils/helpers: filters *)

(** The string a currency is stored as. *)
Definition currencyName (c : Currency) : string :=
  match c with
  | USD => "USD"%string
  | ZAR => "ZAR"%string
  end.

(** [trip.revenueCurrency === currency]; an absent currency equals no string. *)
Definition currencyIs (o : option Currency) (currency : string) : bool :=
  match o with
  | Some c => String.eqb (currencyName c) currency
  | None => false
  end.

Definition filterTripsByCurrency (trips : JsArr Trip) (currency : string)
  : completion (list Trip) :=
  if negb (truthy trips) || negb (isArray trips) then ret []
  else if JsMore.blank currency then ret (entries trips)
  else
    catch
      (filter trips (fun trip => currencyIs (revenueCurrency trip) currency))
      (fun _ => ret (entries trips)).

Definition filterTripsByDriver (trips : JsArr Trip) (driver : string)
  : completion (list Trip) :=
  if negb (truthy trips) || negb (isArray trips) then ret []
  else if JsMore.blank driver then ret (entries trips)
  else
    catch
      (filter trips (fun trip => String.eqb (driverName trip) driver))
      (fun _ => ret (entries trips)).

(** ** ActiveTrips: the figures of a trip card *)

Module ActiveTrips.



End ActiveTrips.

(** ** Dashboard: the completion work lists *)

Module Dashboard.



(** [allFlaggedCosts.filter(cost => cost.investigationStatus !== 'resolved')]
    over [getAllFlaggedCosts(filteredTrips)]. *)
Definition unresolvedFlags (filteredTrips : list Trip)
  : completion (list FlaggedCost) :=
  allFlaggedCosts <- getAllFlaggedCosts (Arr filteredTrips) ;;
  ret (List.filter
         (fun c => negb (status_is (investigationStatus (cost c)) Resolved))
         allFlaggedCosts).


End Dashboard.

(** ** Arithmetic on numbers that may be [NaN] *)

Module NumArith.

(** An optional number used in arithmetic: [undefined] converts to [NaN]. *)
Definition ofOptional (o : option Q) : JsNum :=
  match o with
  | Some q => Num q
  | None => NaN
  end.

Definition add (a b : JsNum) : JsNum :=
  match a, b with
  | Num x, Num y => Num (x + y)
  | _, _ => NaN
  end.

Definition sub (a b : JsNum) : JsNum :=
  match a, b with
  | Num x, Num y => Num (x - y)
  | _, _ => NaN
  end.

Definition mul (a b : JsNum) : JsNum :=
  match a, b with
  | Num x, Num y => Num (x * y)
  | _, _ => NaN
  end.

(** Division.  The sources modelled here divide only behind a test that the
    divisor is positive, or is not zero; the infinities of a division by
    zero are not represented. *)
Definition div (a b : JsNum) : JsNum :=
  match a, b with
  | Num x, Num y => Num (x / y)
  | _, _ => NaN
  end.

(** The same number: both [NaN], or equal rationals. *)
Definition same (a b : JsNum) : Prop :=
  match a, b with
  | NaN, NaN => True
  | Num x, Num y => x == y
  | _, _ => False
  end.

(** Sum of a list, from the left, starting at 0. *)
Definition sum (l : list JsNum) : JsNum := fold_left add l (Num 0).

End NumArith.

(** ** Objects used as maps, with keys in insertion order *)

Module Assoc.

Section WithKey.
Variables K V : Type.
Variable eqb : K -> K -> bool.

(** [obj[k]]: [None] for an absent key. *)
Fixpoint find (k : K) (l : list (K * V)) : option V :=
  match l with
  | [] => None
  | (k', v) :: rest => if eqb k' k then Some v else find k rest
  end.

(** [obj[k] = v]: in place for a present key, at the end for a new one. *)
Fixpoint set (k : K) (v : V) (l : list (K * V)) : list (K * V) :=
  match l with
  | [] => [(k, v)]
  | (k', v') :: rest =>
      if eqb k' k then (k, v) :: rest else (k', v') :: set k v rest
  end.

(** [delete obj[k]] *)
Fixpoint remove (k : K) (l : list (K * V)) : list (K * V) :=
  match l with
  | [] => []
  | (k', v') :: rest =>
      if eqb k' k then remove k rest else (k', v') :: remove k rest
  end.

End WithKey.

End Assoc.

(** ** YearToDateKPIs: the weekly aggregator *)

Module WeeklyReport.
Import JsDate Weekly.

Record WeeklyMetrics : Type := mkWeeklyMetrics {
  weekNumber : Z;
  weekStart : Z;
  weekEnd : Z;
  totalRevenue : JsNum;
  totalCosts : Q;
  grossProfit : JsNum;
  totalKilometers : Q;
  ipk : JsNum;
  cpk : Q;
  tripCount : nat;
  profitMargin : JsNum
}.

Definition keyEqb (a b : Z * Z) : bool :=
  (fst a =? fst b)%Z && (snd a =? snd b)%Z.

Section Aggregator.

(** Local time minus UTC, in milliseconds. *)
Variable zoneOffset : Z.

(** [d.toISOString().split('T')[0]]: the UTC calendar date of [d], kept as
    its day number; [new Date(s).getTime()] of such a string is that day's
    UTC midnight. *)
Definition isoDate (d : Z) : Z := Day (d - zoneOffset).

Definition dateStringTime (day : Z) : Z := (day * msPerDay)%Z.

(** The body of [completedTrips.forEach]: [weeklyData] is the object the
    callback fills. *)
Definition addTrip (weeklyData : list ((Z * Z) * WeeklyMetrics)) (trip : Trip)
  : completion (list ((Z * Z) * WeeklyMetrics)) :=
  let date := offloadDate trip in
  let monday := mondayOf date in
  let sunday := sundayOf monday in
  let weekKey := (getFullYear monday, getWeekNumber monday) in
  let weeklyData :=
    match Assoc.find keyEqb weekKey weeklyData with
    | None =>
        Assoc.set keyEqb weekKey
          {| weekNumber := getWeekNumber monday;
             weekStart := isoDate monday;
             weekEnd := isoDate sunday;
             totalRevenue := Num 0;
             totalCosts := 0;
             grossProfit := Num 0;
             totalKilometers := 0;
             ipk := Num 0;
             cpk := 0;
             tripCount := 0;
             profitMargin := Num 0 |}
          weeklyData
    | Some _ => weeklyData
    end in
  match Assoc.find keyEqb weekKey weeklyData with
  | None => raise TypeError
  | Some week =>
      tripCosts <- calculateTotalCosts (costs trip) ;;
      let additionalCosts :=
        or_zero
          (option_map
             (fun l =>
                fold_left (fun sum cost => sum + additionalAmount cost) l 0)
             (additionalCosts trip)) in
      let totalTripCosts := tripCosts + additionalCosts in
      let revenue := NumArith.ofOptional (baseRevenue trip) in
      ret (Assoc.set keyEqb weekKey
             {| weekNumber := weekNumber week;
                weekStart := weekStart week;
                weekEnd := weekEnd week;
                totalRevenue := NumArith.add (totalRevenue week) revenue;
                totalCosts := totalCosts week + totalTripCosts;
                grossProfit :=
                  NumArith.add (grossProfit week)
                    (NumArith.sub revenue (Num totalTripCosts));
                totalKilometers :=
                  totalKilometers week + or_zero (distanceKm trip);
                ipk := ipk week;
                cpk := cpk week;
                tripCount := S (tripCount week);
                profitMargin := profitMargin week |}
             weeklyData)
  end.

(** The body of [Object.values(weeklyData).forEach]. *)
Definition finish (week : WeeklyMetrics) : WeeklyMetrics :=
  {| weekNumber := weekNumber week;
     weekStart := weekStart week;
     weekEnd := weekEnd week;
     totalRevenue := totalRevenue week;
     totalCosts := totalCosts week;
     grossProfit := grossProfit week;
     totalKilometers := totalKilometers week;
     ipk :=
       if Js.gt (totalKilometers week) 0
       then NumArith.div (totalRevenue week) (Num (totalKilometers week))
       else Num 0;
     cpk :=
       if Js.gt (totalKilometers week) 0
       then totalCosts week / totalKilometers week
       else 0;
     tripCount := tripCount week;
     profitMargin :=
       if Num.gt (totalRevenue week) 0
       then NumArith.mul
              (NumArith.div (grossProfit week) (totalRevenue week)) (Num 100)
       else Num 0 |}.

Definition byWeekStartDescending (a b : WeeklyMetrics) : Z :=
  (dateStringTime (weekStart b) - dateStringTime (weekStart a))%Z.

(** The object [weeklyData] after the loop over the completed trips. *)
Definition weeklyData (trips : list Trip)
  : completion (list ((Z * Z) * WeeklyMetrics)) :=
  let completedTrips := List.filter isCompletedTrip trips in
  each addTrip completedTrips [].

Definition weeklyMetrics (trips : list Trip) : completion (list WeeklyMetrics) :=
  weeklyData <- weeklyData trips ;;
  ret (sort byWeekStartDescending (map finish (map snd weeklyData))).

End Aggregator.

End WeeklyReport.

(** ** Vocabulary for the weekly rows *)

(** What a trip costs: its cost entries and its additional costs. *)
Definition tripExpenses (trip : Trip) : Q :=
  total (costAmounts trip) + total (additionalAmounts trip).

(** The completed trips the aggregator files under a week key. *)
Definition tripsOfWeek (key : Z * Z) (trips : list Trip) : list Trip :=
  List.filter (fun trip => WeeklyReport.keyEqb (Weekly.weekKey trip) key)
    (List.filter Weekly.isCompletedTrip trips).

(** A row holds the totals of a list of trips: their number, costs,
    kilometres and revenue (not a number once one of them has none), and
    its gross profit is its revenue minus its costs. *)
Definition rowHolds (key : Z * Z) (week : WeeklyReport.WeeklyMetrics)
  (trips : list Trip) : Prop :=
  WeeklyReport.weekNumber week = snd key
  /\ WeeklyReport.tripCount week = List.length trips
  /\ WeeklyReport.totalCosts week == total (map tripExpenses trips)
  /\ WeeklyReport.totalKilometers week
     == total (map (fun trip => or_zero (distanceKm trip)) trips)
  /\ NumArith.same (WeeklyReport.totalRevenue week)
       (NumArith.sum
          (map (fun trip => NumArith.ofOptional (baseRevenue trip)) trips))
  /\ NumArith.same (WeeklyReport.grossProfit week)
       (NumArith.sub (WeeklyReport.totalRevenue week)
          (Num (WeeklyReport.totalCosts week))).

(** The object the aggregator is filling, after the completed trips [done]:
    one entry per week key met, each holding the totals of its trips. *)
Definition filled (done : list Trip)
  (wd : list ((Z * Z) * WeeklyReport.WeeklyMetrics)) : Prop :=
  NoDup (map fst wd)
  /\ (forall k, In k (map fst wd) <-> In k (map Weekly.weekKey done))
  /\ (forall k w, In (k, w) wd ->
        rowHolds k w
          (List.filter
             (fun trip => WeeklyReport.keyEqb (Weekly.weekKey trip) k)
             done)).

(** ** YearToDateKPIs: year-over-year change and the metrics editor *)

Module YearToDate.




Inductive Year : Type :=
| Y2024
| Y2025.

(** The numeric fields the edit form writes with [handleChange]. *)
Inductive Field : Type :=
| totalKms
| ipk
| operationalCpk
| revenue
| ebit
| ebitMargin
| netProfit
| netProfitMargin
| roe
| roic.

Definition Field_eqb (a b : Field) : bool :=
  match a, b with
  | totalKms, totalKms | ipk, ipk | operationalCpk, operationalCpk
  | revenue, revenue | ebit, ebit | ebitMargin, ebitMargin
  | netProfit, netProfit | netProfitMargin, netProfitMargin
  | roe, roe | roic, roic => true
  | _, _ => false
  end.

(** A (partial) [YTDMetrics] object: any field may be absent, and
    [metric f] is the value under the numeric field [f]. *)
Record YTDMetrics : Type := mkYTDMetrics {
  year : option Year;
  metric : Field -> option JsNum;
  lastUpdated : option string;
  updatedBy : option string
}.

(** [{}] *)
Definition emptyMetrics : YTDMetrics :=
  {| year := None; metric := fun _ => None;
     lastUpdated := None; updatedBy := None |}.

(** The component state. *)
Record State : Type := mkState {
  showEditModal : bool;
  editingYear : option Year;
  formData : YTDMetrics;
  errors : Field -> option string;
  ytdData : Year -> YTDMetrics
}.

Definition Year_eqb (a b : Year) : bool :=
  match a, b with
  | Y2024, Y2024 | Y2025, Y2025 => true
  | _, _ => false
  end.

Definition metrics2025 (f : Field) : option JsNum :=
  Some (Num match f with
            | totalKms => 358013
            | ipk => 203 # 100
            | operationalCpk => 180 # 100
            | revenue => 726150
            | ebit => 114342
            | ebitMargin => 1570 # 100
            | netProfit => 79552
            | netProfitMargin => 11
            | roe => 19
            | roic => 32
            end).

Definition metrics2024 (f : Field) : option JsNum :=
  Some (Num match f with
            | totalKms => 279360
            | ipk => 206 # 100
            | operationalCpk => 211 # 100
            | revenue => 611387
            | ebit => 46998
            | ebitMargin => 770 # 100
            | netProfit => 4780
            | netProfitMargin => 1
            | roe => 1
            | roic => 9
            end).

Definition initialState : State :=
  {| showEditModal := false;
     editingYear := None;
     formData := emptyMetrics;
     errors := fun _ => None;
     ytdData := fun y =>
       match y with
       | Y2025 =>
           {| year := Some Y2025; metric := metrics2025;
              lastUpdated := Some "2025-01-15T00:00:00Z"%string;
              updatedBy := Some "Fleet Manager"%string |}
       | Y2024 =>
           {| year := Some Y2024; metric := metrics2024;
              lastUpdated := Some "2024-12-31T00:00:00Z"%string;
              updatedBy := Some "Operations Manager"%string |}
       end |}.

Definition handleEdit (s : State) (y : Year) : State :=
  {| showEditModal := true;
     editingYear := Some y;
     formData := ytdData s y;
     errors := errors s;
     ytdData := ytdData s |}.

(** [errors[field]] is truthy: present and not the empty string. *)
Definition hasError (e : option string) : bool :=
  match e with
  | Some msg => negb (JsMore.blank msg)
  | None => false
  end.

Definition handleChange (s : State) (field : Field) (text : FieldText) : State :=
  let numValue := Num.parse text in
  {| showEditModal := showEditModal s;
     editingYear := editingYear s;
     formData :=
       {| year := year (formData s);
          metric := fun f =>
            if Field_eqb f field then Some numValue
            else metric (formData s) f;
          lastUpdated := lastUpdated (formData s);
          updatedBy := updatedBy (formData s) |};
     errors :=
       if hasError (errors s field)
       then fun f => if Field_eqb f field then Some EmptyString else errors s f
       else errors s;
     ytdData := ytdData s |}.

(** [!x || x <= 0] on an optional number. *)
Definition notPositive (x : option JsNum) : bool :=
  match x with
  | None => true
  | Some NaN => true
  | Some (Num q) => Qeq_bool q 0 || Qle_bool q 0
  end.

(** The [newErrors] object of [validateForm]. *)
Definition newErrors (form : YTDMetrics) : Field -> option string :=
  fun f =>
    match f with
    | totalKms =>
        if notPositive (metric form totalKms)
        then Some "Total KMs must be greater than 0"%string else None
    | revenue =>
        if notPositive (metric form revenue)
        then Some "Revenue must be greater than 0"%string else None
    | ipk =>
        if notPositive (metric form ipk)
        then Some "IPK must be greater than 0"%string else None
    | operationalCpk =>
        if notPositive (metric form operationalCpk)
        then Some "Operational CPK must be greater than 0"%string else None
    | _ => None
    end.

Definition allFields : list Field :=
  [totalKms; ipk; operationalCpk; revenue; ebit; ebitMargin; netProfit;
   netProfitMargin; roe; roic].

(** [Object.keys(newErrors).length === 0] *)
Definition validateForm (form : YTDMetrics) : bool :=
  forallb
    (fun f => match newErrors form f with None => true | Some _ => false end)
    allFields.

(** [handleSave]; [now] is [new Date().toISOString()]. *)
Definition handleSave (s : State) (now : string) : State :=
  match editingYear s with
  | None => s
  | Some editing =>
      if negb (validateForm (formData s)) then
        {| showEditModal := showEditModal s;
           editingYear := editingYear s;
           formData := formData s;
           errors := newErrors (formData s);
           ytdData := ytdData s |}
      else
        let updatedData :=
          {| year := Some editing;
             metric := metric (formData s);
             lastUpdated := Some now;
             updatedBy := Some "Current User"%string |} in
        {| showEditModal := false;
           editingYear := None;
           formData := emptyMetrics;
           errors := fun _ => None;
           ytdData := fun y =>
             if Year_eqb y editing then updatedData else ytdData s y |}
  end.

Definition handleClose (s : State) : State :=
  {| showEditModal := false;
     editingYear := None;
     formData := emptyMetrics;
     errors := fun _ => None;
     ytdData := ytdData s |}.

(** What the user can do with the editor. *)
Inductive Event : Type :=
| Edit (y : Year)
| Change (field : Field) (text : FieldText)
| Save (now : string)
| Close.

Definition step (s : State) (e : Event) : State :=
  match e with
  | Edit y => handleEdit s y
  | Change field text => handleChange s field text
  | Save now => handleSave s now
  | Close => handleClose s
  end.

Definition run (events : list Event) : State := fold_left step events initialState.

(** The four figures [validateForm] checks. *)
Definition validated (f : Field) : bool :=
  match f with
  | totalKms | revenue | ipk | operationalCpk => true
  | _ => false
  end.

(** A stored figure that is a positive number. *)
Definition positive (x : option JsNum) : Prop :=
  match x with
  | Some (Num q) => 0 < q
  | _ => False
  end.

(** Every stored year keeps its own year and positive validated figures. *)
Definition sound (s : State) : Prop :=
  forall y,
    year (ytdData s y) = Some y
    /\ forall f, validated f = true -> positive (metric (ytdData s y) f).

End YearToDate.

(** ** TripForm: validation and submission *)

Module JsText.

(** [Number(text)]: the empty string converts to 0. *)
Definition number (f : FieldText) : JsNum :=
  match f with
  | Empty => Num 0
  | Text n => n
  end.

(** [n <= b]; false for [NaN]. *)
Definition le (n : JsNum) (b : Q) : bool :=
  match n with
  | NaN => false
  | Num q => Qle_bool q b
  end.

(** [a > b] on strings: by code units, first difference decides. *)
Definition after (a b : string) : bool :=
  match String.compare a b with
  | Gt => true
  | _ => false
  end.

End JsText.

(** The error objects of the forms: keys with their messages. *)
Module FormErrors.

(** [if (test) newErrors.key = message] *)
Definition flag (test : bool) (key message : string)
  (newErrors : list (string * string)) : list (string * string) :=
  if test then Assoc.set String.eqb key message newErrors else newErrors.

(** [Object.keys(newErrors).length === 0] *)
Definition none (newErrors : list (string * string)) : bool :=
  Nat.eqb (List.length newErrors) 0.

End FormErrors.

Inductive ClientType : Type :=
| Internal
| External.

Module TripForm.

Record FormData : Type := mkFormData {
  fleetNumber : string;
  driverName : string;
  clientName : string;
  clientType : option ClientType;
  startDate : string;
  endDate : string;
  route : string;
  description : string;
  baseRevenue : FieldText;
  revenueCurrency : Currency;
  distanceKm : FieldText
}.

(** What [handleSubmit] hands to [onSubmit]; its [delayReasons] and
    [followUpHistory], always empty arrays, are left out. *)
Record TripData : Type := mkTripData {
  dataFleetNumber : string;
  dataDriverName : string;
  dataClientName : string;
  dataClientType : option ClientType;
  dataStartDate : string;
  dataEndDate : string;
  dataRoute : string;
  dataDescription : string;
  dataBaseRevenue : JsNum;
  dataRevenueCurrency : Currency;
  dataDistanceKm : option JsNum;
  dataPaymentStatus : string;
  dataAdditionalCosts : list AdditionalCost
}.

(** The [newErrors] object that [validate] builds, assignment by
    assignment. *)
Definition newErrors (formData : FormData) : list (string * string) :=
  let e := [] in
  let e := FormErrors.flag (JsMore.blank (fleetNumber formData))
             "fleetNumber" "Fleet is required" e in
  let e := FormErrors.flag (JsMore.blank (driverName formData))
             "driverName" "Driver is required" e in
  let e := FormErrors.flag (JsMore.blank (clientName formData))
             "clientName" "Client is required" e in
  let e := FormErrors.flag (match clientType formData with None => true | _ => false end)
             "clientType" "Client type is required" e in
  let e := FormErrors.flag (JsMore.blank (route formData))
             "route" "Route is required" e in
  let e := FormErrors.flag (Num.blank (baseRevenue formData)
                 || Num.isNaN (JsText.number (baseRevenue formData)))
             "baseRevenue" "Revenue must be a valid number" e in
  let e := FormErrors.flag (JsText.le (JsText.number (baseRevenue formData)) 0)
             "baseRevenue" "Revenue must be greater than 0" e in
  let e := FormErrors.flag (JsMore.blank (startDate formData))
             "startDate" "Start date required" e in
  let e := FormErrors.flag (JsMore.blank (endDate formData))
             "endDate" "End date required" e in
  let e := FormErrors.flag (negb (JsMore.blank (startDate formData))
                 && negb (JsMore.blank (endDate formData))
                 && JsText.after (startDate formData) (endDate formData))
             "endDate" "End date must be after start date" e in
  let e := FormErrors.flag (negb (Num.blank (distanceKm formData))
                 && Num.isNaN (JsText.number (distanceKm formData)))
             "distanceKm" "Distance must be a valid number" e in
  let e := FormErrors.flag (negb (Num.blank (distanceKm formData))
                 && Num.lt (JsText.number (distanceKm formData)) 0)
             "distanceKm" "Distance cannot be negative" e in
  e.

Definition validate (formData : FormData) : bool :=
  FormErrors.none (newErrors formData).

(** [handleSubmit]: [None] when validation stops it. *)
Definition handleSubmit (formData : FormData) : option TripData :=
  if validate formData then
    Some {| dataFleetNumber := fleetNumber formData;
            dataDriverName := driverName formData;
            dataClientName := clientName formData;
            dataClientType := clientType formData;
            dataStartDate := startDate formData;
            dataEndDate := endDate formData;
            dataRoute := route formData;
            dataDescription := description formData;
            dataBaseRevenue := JsText.number (baseRevenue formData);
            dataRevenueCurrency := revenueCurrency formData;
            dataDistanceKm :=
              if Num.blank (distanceKm formData) then None
              else Some (JsText.number (distanceKm formData));
            dataPaymentStatus := "unpaid";
            dataAdditionalCosts := [] |}
  else None.

End TripForm.

(** ** ManualDieselEntryModal: validation, submission and the preview *)

Module ManualDieselEntry.

(** A number used as a condition: 0 and [NaN] are falsy. *)
Definition truthyNum (n : JsNum) : bool :=
  match n with
  | NaN => false
  | Num q => negb (Qeq_bool q 0)
  end.

Record FormData : Type := mkFormData {
  fleetNumber : string;
  date : string;
  kmReading : FieldText;
  previousKmReading : FieldText;
  litresFilled : FieldText;
  costPerLitre : FieldText;
  totalCost : FieldText;
  fuelStation : string;
  driverName : string;
  notes : string;
  tripId : string;
  currency : Currency;
  probeReading : FieldText
}.

(** The record handed to [addDieselRecord]. *)
Record RecordData : Type := mkRecordData {
  recFleetNumber : string;
  recDate : string;
  recKmReading : JsNum;
  recLitresFilled : JsNum;
  recCostPerLitre : JsNum;
  recTotalCost : JsNum;
  recFuelStation : string;
  recDriverName : string;
  recNotes : string;
  recPreviousKmReading : option JsNum;
  recDistanceTravelled : option JsNum;
  recKmPerLitre : option JsNum;
  recTripId : option string;
  recCurrency : Currency;
  recHasProbe : bool;
  recProbeReading : option JsNum;
  recProbeDiscrepancy : option JsNum;
  recProbeVerified : bool
}.

(** What the preview helpers of the form read. *)
Definition preview (formData : FormData) : ManualDieselEntryModal.FormData :=
  {| ManualDieselEntryModal.formFleetNumber := fleetNumber formData;
     ManualDieselEntryModal.formLitresFilled := litresFilled formData;
     ManualDieselEntryModal.formProbeReading := probeReading formData |}.

Section Form.

(** [TRUCKS_WITH_PROBES.includes(formData.fleetNumber)]; the table is in the
    types module. *)
Variable hasProbe : bool.

(** [String.prototype.trim]. *)
Variable trim : string -> string.

Definition newErrors (formData : FormData) : list (string * string) :=
  let e := [] in
  let e := FormErrors.flag (JsMore.blank (fleetNumber formData))
             "fleetNumber" "Fleet number is required" e in
  let e := FormErrors.flag (JsMore.blank (date formData))
             "date" "Date is required" e in
  let e := FormErrors.flag (Num.blank (kmReading formData))
             "kmReading" "KM reading is required" e in
  let e := FormErrors.flag (Num.blank (litresFilled formData))
             "litresFilled" "Litres filled is required" e in
  let e := FormErrors.flag (Num.blank (totalCost formData))
             "totalCost" "Total cost is required" e in
  let e := FormErrors.flag (JsMore.blank (fuelStation formData))
             "fuelStation" "Fuel station is required" e in
  let e := FormErrors.flag (JsMore.blank (driverName formData))
             "driverName" "Driver name is required" e in
  let e := FormErrors.flag
             (negb (Num.blank (kmReading formData))
              && (Num.isNaN (JsText.number (kmReading formData))
                  || JsText.le (JsText.number (kmReading formData)) 0))
             "kmReading" "Must be a valid positive number" e in
  let e := FormErrors.flag
             (negb (Num.blank (previousKmReading formData))
              && (Num.isNaN (JsText.number (previousKmReading formData))
                  || Num.lt (JsText.number (previousKmReading formData)) 0))
             "previousKmReading" "Must be a valid number" e in
  let e := FormErrors.flag
             (negb (Num.blank (litresFilled formData))
              && (Num.isNaN (JsText.number (litresFilled formData))
                  || JsText.le (JsText.number (litresFilled formData)) 0))
             "litresFilled" "Must be a valid positive number" e in
  let e := FormErrors.flag
             (negb (Num.blank (totalCost formData))
              && (Num.isNaN (JsText.number (totalCost formData))
                  || JsText.le (JsText.number (totalCost formData)) 0))
             "totalCost" "Must be a valid positive number" e in
  let e := FormErrors.flag
             (negb (Num.blank (kmReading formData))
              && negb (Num.blank (previousKmReading formData))
              && match JsText.number (kmReading formData),
                       JsText.number (previousKmReading formData) with
                 | Num current, Num previous => Qle_bool current previous
                 | _, _ => false
                 end)
             "kmReading" "Current KM must be greater than previous KM" e in
  let e :=
    if hasProbe then
      if Num.blank (probeReading formData) then
        FormErrors.flag true
          "probeReading" "Probe reading is required for this truck" e
      else
        FormErrors.flag
          (Num.isNaN (JsText.number (probeReading formData))
           || Num.lt (JsText.number (probeReading formData)) 0)
          "probeReading" "Must be a valid number" e
    else e in
  e.

Definition validateForm (formData : FormData) : bool :=
  FormErrors.none (newErrors formData).

(** [handleSubmit]: [None] when validation stops it; otherwise the record
    added, and whether the alert carries the large-discrepancy warning. *)
Definition handleSubmit (formData : FormData) : option (RecordData * bool) :=
  if negb (validateForm formData) then None
  else
    let kmReading := JsText.number (kmReading formData) in
    let previousKmReading :=
      if Num.blank (previousKmReading formData) then None
      else Some (JsText.number (previousKmReading formData)) in
    let litresFilled := JsText.number (litresFilled formData) in
    let totalCost := JsText.number (totalCost formData) in
    let costPerLitre :=
      if Num.blank (costPerLitre formData)
      then NumArith.div totalCost litresFilled
      else JsText.number (costPerLitre formData) in
    let probeReading :=
      if Num.blank (probeReading formData) then None
      else Some (JsText.number (probeReading formData)) in
    let distanceTravelled :=
      match previousKmReading with
      | Some previous =>
          if truthyNum previous then Some (NumArith.sub kmReading previous)
          else None
      | None => None
      end in
    let kmPerLitre :=
      match distanceTravelled with
      | Some distance =>
          if truthyNum distance && Num.gt litresFilled 0
          then Some (NumArith.div distance litresFilled)
          else None
      | None => None
      end in
    let probeDiscrepancy :=
      match probeReading with
      | Some reading =>
          if truthyNum reading && truthyNum litresFilled
          then Some (NumArith.sub litresFilled reading)
          else None
      | None => None
      end in
    let probeVerified :=
      match probeReading with
      | Some _ => true
      | None => false
      end in
    let recordData :=
      {| recFleetNumber := fleetNumber formData;
         recDate := date formData;
         recKmReading := kmReading;
         recLitresFilled := litresFilled;
         recCostPerLitre := costPerLitre;
         recTotalCost := totalCost;
         recFuelStation := trim (fuelStation formData);
         recDriverName := driverName formData;
         recNotes := trim (notes formData);
         recPreviousKmReading := previousKmReading;
         recDistanceTravelled := distanceTravelled;
         recKmPerLitre := kmPerLitre;
         recTripId :=
           if JsMore.blank (tripId formData) then None
           else Some (tripId formData);
         recCurrency := currency formData;
         recHasProbe := hasProbe;
         recProbeReading := probeReading;
         recProbeDiscrepancy := probeDiscrepancy;
         recProbeVerified := probeVerified |} in
    let warned :=
      match probeDiscrepancy with
      | Some discrepancy => hasProbe && Num.gt (Num.abs discrepancy) 50
      | None => false
      end in
    Some (recordData, warned).

(** [calculateDistance], for the preview. *)
Definition calculateDistance (formData : FormData) : JsNum :=
  if negb (Num.blank (kmReading formData))
     && negb (Num.blank (previousKmReading formData))
  then
    let distance :=
      NumArith.sub (JsText.number (kmReading formData))
        (JsText.number (previousKmReading formData)) in
    if Num.gt distance 0 then distance else Num 0
  else Num 0.


End Form.

End ManualDieselEntry.

(** ** DieselNormsModal: editing the fleet norms *)

Module DieselNormsModal.
Local Open Scope string_scope.

Inductive NormField : Type := ExpectedKmPerLitre | TolerancePercentage.

Definition fieldName (field : NormField) : string :=
  match field with
  | ExpectedKmPerLitre => "expectedKmPerLitre"
  | TolerancePercentage => "tolerancePercentage"
  end.

(** [`${fleetNumber}-${field}`] *)
Definition errorKey (fleetNumber : string) (field : NormField) : string :=
  fleetNumber ++ "-" ++ fieldName field.

(** The two pieces of state of the modal.  The [lastUpdated] and [updatedBy]
    stamps of a norm, written on every change, are not part of
    [DieselNorms] as modelled. *)
Record State : Type := mkState {
  editedNorms : list DieselNorms;
  errors : list (string * string)
}.

Definition initialState (norms : list DieselNorms) : State :=
  {| editedNorms := norms; errors := [] |}.

Definition setField (field : NormField) (numValue : Q) (norm : DieselNorms)
  : DieselNorms :=
  match field with
  | ExpectedKmPerLitre =>
      {| normFleetNumber := normFleetNumber norm;
         expectedKmPerLitre := numValue;
         tolerancePercentage := tolerancePercentage norm |}
  | TolerancePercentage =>
      {| normFleetNumber := normFleetNumber norm;
         expectedKmPerLitre := expectedKmPerLitre norm;
         tolerancePercentage := numValue |}
  end.

Definition isTolerance (field : NormField) : bool :=
  match field with
  | TolerancePercentage => true
  | ExpectedKmPerLitre => false
  end.

(** [handleNormChange]; [value] is read with [parseFloat]. *)
Definition handleNormChange (fleetNumber : string) (field : NormField)
  (value : FieldText) (s : State) : State :=
  let numValue := Num.parse value in
  if Num.isNaN numValue || JsText.le numValue 0 then
    {| editedNorms := editedNorms s;
       errors := Assoc.set String.eqb (errorKey fleetNumber field)
                   "Must be a positive number" (errors s) |}
  else if isTolerance field && Num.gt numValue 50 then
    {| editedNorms := editedNorms s;
       errors := Assoc.set String.eqb (errorKey fleetNumber field)
                   "Tolerance cannot exceed 50%" (errors s) |}
  else
    match numValue with
    | NaN => s (* excluded by the first test *)
    | Num q =>
        {| editedNorms :=
             map (fun norm =>
                    if String.eqb (normFleetNumber norm) fleetNumber
                    then setField field q norm else norm)
                 (editedNorms s);
           errors := Assoc.remove String.eqb (errorKey fleetNumber field)
                       (errors s) |}
    end.

Section Fleets.

(** [FLEET_NUMBERS], of the types module. *)
Variable FLEET_NUMBERS : list string.

Definition hasNorm (norms : list DieselNorms) (fleet : string) : bool :=
  existsb (fun norm => String.eqb (normFleetNumber norm) fleet) norms.

(** [addNewFleetNorm]; with every fleet configured it only alerts. *)
Definition addNewFleetNorm (s : State) : State :=
  let availableFleets :=
    List.filter (fun fleet => negb (hasNorm (editedNorms s) fleet))
      FLEET_NUMBERS in
  match availableFleets with
  | [] => s
  | fleet :: _ =>
      let newNorm :=
        {| normFleetNumber := fleet;
           expectedKmPerLitre := 3;
           tolerancePercentage := 10 |} in
      {| editedNorms := editedNorms s ++ [newNorm]; errors := errors s |}
  end.

(** [removeFleetNorm]; [confirmed] is the answer to the [confirm] dialog. *)
Definition removeFleetNorm (fleetNumber : string) (confirmed : bool)
  (s : State) : State :=
  if confirmed then
    {| editedNorms :=
         List.filter
           (fun norm => negb (String.eqb (normFleetNumber norm) fleetNumber))
           (editedNorms s);
       errors := errors s |}
  else s.

(** [resetToDefaults] *)
Definition resetToDefaults (confirmed : bool) (s : State) : State :=
  if confirmed then
    let defaultNorms :=
      map (fun fleet =>
             {| normFleetNumber := fleet;
                expectedKmPerLitre :=
                  if String.eqb fleet "UD" then 28 # 10 else 32 # 10;
                tolerancePercentage :=
                  if String.eqb fleet "UD" then 15 else 10 |})
          FLEET_NUMBERS in
    {| editedNorms := defaultNorms; errors := errors s |}
  else s.

(** [handleSave]: the norms handed to [onUpdateNorms], or [None] when the
    alert about errors is shown instead. *)
Definition handleSave (s : State) : option (list DieselNorms) :=
  let hasErrors :=
    existsb (fun entry => negb (String.eqb (snd entry) "")) (errors s) in
  if hasErrors then None else Some (editedNorms s).

Inductive Event : Type :=
| NormChange (fleetNumber : string) (field : NormField) (value : FieldText)
| AddNewFleetNorm
| RemoveFleetNorm (fleetNumber : string) (confirmed : bool)
| ResetToDefaults (confirmed : bool).

Definition step (s : State) (e : Event) : State :=
  match e with
  | NormChange fleetNumber field value =>
      handleNormChange fleetNumber field value s
  | AddNewFleetNorm => addNewFleetNorm s
  | RemoveFleetNorm fleetNumber confirmed =>
      removeFleetNorm fleetNumber confirmed s
  | ResetToDefaults confirmed => resetToDefaults confirmed s
  end.

Definition run (s : State) (events : list Event) : State :=
  fold_left step events s.

End Fleets.

(** A norm the evaluator can use: a positive expectation and a tolerance
    above 0 and at most 50 percent. *)
Definition usable (norm : DieselNorms) : Prop :=
  0 < expectedKmPerLitre norm
  /\ 0 < tolerancePercentage norm /\ tolerancePercentage norm <= 50.

(** A change that clears the error recorded under [key]. *)
Definition clears (key : string) (e : Event) : Prop :=
  match e with
  | NormChange fleetNumber field value =>
      errorKey fleetNumber field = key
      /\ exists q, Num.parse value = Num q /\ 0 < q
                   /\ (field = TolerancePercentage -> q <= 50)
  | _ => False
  end.

(** The norms being edited are usable, one per fleet. *)
Definition normsSound (s : State) : Prop :=
  Forall usable (editedNorms s)
  /\ NoDup (map normFleetNumber (editedNorms s)).

(** An error recorded under [key], with its message. *)
Definition errorAt (key : string) (s : State) : Prop :=
  exists message,
    Assoc.find String.eqb key (errors s) = Some message
    /\ message <> EmptyString.

End DieselNormsModal.

(** ** retryOperation *)

Module Retry.

Section WithOperation.

(** The world the operation acts on, what it resolves with and what it
    rejects with. *)
Variables World Value Failure : Type.

(** One call of [operation], awaited. *)
Variable operation : World -> (Failure + Value) * World.

(** How the promise settles (rejected with [lastError], which is
    [undefined] when nothing was tried; or resolved), the world left
    behind, and the time-outs awaited, in order. *)
Record Settled : Type := mkSettled {
  outcome : option Failure + Value;
  world : World;
  waits : list Q
}.

(** The loop from [i] on, with [fuel] rounds to go. *)
Fixpoint attempts (delay : Q) (fuel : nat) (i : Z)
  (lastError : option Failure) (w : World) (waited : list Q) : Settled :=
  match fuel with
  | O => {| outcome := inl lastError; world := w; waits := waited |}
  | S fuel' =>
      match operation w with
      | (inr value, w') =>
          {| outcome := inr value; world := w'; waits := waited |}
      | (inl error, w') =>
          attempts delay fuel' (i + 1) (Some error) w'
            (waited ++ [delay * inject_Z (2 ^ i)])
      end
  end.

(** [retryOperation(operation, maxRetries, delay)], for a whole number of
    retries. *)
Definition retryOperation (maxRetries : Z) (delay : Q) (w : World)
  : Settled :=
  attempts delay (Z.to_nat maxRetries) 0 None w [].

(** The world after [k] calls. *)
Fixpoint after (k : nat) (w : World) : World :=
  match k with
  | O => w
  | S k' => after k' (snd (operation w))
  end.

(** The time-outs of the first [k] failed attempts, from the [i]-th on. *)
Fixpoint backoff (delay : Q) (i : Z) (k : nat) : list Q :=
  match k with
  | O => []
  | S k' => delay * inject_Z (2 ^ i) :: backoff delay (i + 1) k'
  end.

End WithOperation.

(** The defaults of [retryOperation]. *)
Definition defaultMaxRetries : Z := 3.
Definition defaultDelay : Q := 1000.

End Retry.

(** ** Dashboard: the statistics per driver *)

Module DriverStats.
Local Open Scope string_scope.

(** What the [reduce] over the filtered trips keeps per driver. *)
Record Tally : Type := mkTally {
  trips : nat;
  flags : nat;
  unresolvedFlags : nat;
  investigations : nat;
  revenue : Q;
  expenses : Q;
  tripsWithFlags : nat
}.

Definition zero : Tally :=
  {| trips := 0; flags := 0; unresolvedFlags := 0; investigations := 0;
     revenue := 0; expenses := 0; tripsWithFlags := 0 |}.

(** The accumulator is an object literal, so a name that [Object.prototype]
    defines reads as a truthy value that is not an own entry: no entry is
    made for it, and the updates land on the inherited value. *)
Definition inherited (name : string) : bool :=
  existsb (String.eqb name)
    ["constructor"; "__proto__"; "hasOwnProperty"; "isPrototypeOf";
     "propertyIsEnumerable"; "toLocaleString"; "toString"; "valueOf";
     "__defineGetter__"; "__defineSetter__"; "__lookupGetter__";
     "__lookupSetter__"].

(** The callback of the [reduce]; [trip.costs.filter] is not guarded. *)
Definition addTrip (acc : list (string * Tally)) (trip : Trip)
  : completion (list (string * Tally)) :=
  let acc :=
    if inherited (driverName trip) then acc
    else
      match Assoc.find String.eqb (driverName trip) acc with
      | Some _ => acc
      | None => Assoc.set String.eqb (driverName trip) zero acc
      end in
  tripFlags <- Js.filter (costs trip) (fun c => isFlagged c) ;;
  tripUnresolvedFlags <- getUnresolvedFlagsCount (costs trip) ;;
  tripCosts <- calculateTotalCosts (costs trip) ;;
  match Assoc.find String.eqb (driverName trip) acc with
  | None => ret acc
  | Some stats =>
      ret (Assoc.set String.eqb (driverName trip)
             {| trips := S (trips stats);
                flags := flags stats + List.length tripFlags;
                unresolvedFlags := unresolvedFlags stats + tripUnresolvedFlags;
                investigations := investigations stats + List.length tripFlags;
                revenue := revenue stats + or_zero (baseRevenue trip);
                expenses := expenses stats + tripCosts;
                tripsWithFlags :=
                  if (0 <? List.length tripFlags)%nat
                  then S (tripsWithFlags stats) else tripsWithFlags stats |}
             acc)
  end.

Definition tallies (filteredTrips : list Trip)
  : completion (list (string * Tally)) :=
  Js.each addTrip filteredTrips [].

(** A count used as a number. *)
Definition num (n : nat) : Q := inject_Z (Z.of_nat n).

(** An entry after the [forEach] over the keys. *)
Record Stats : Type := mkStats {
  tally : Tally;
  flagPercentage : Q;
  avgFlagsPerTrip : Q;
  netProfit : Q;
  profitPerTrip : Q
}.

Definition derive (stats : Tally) : Stats :=
  let netProfit := revenue stats - expenses stats in
  {| tally := stats;
     flagPercentage :=
       if (0 <? trips stats)%nat
       then num (tripsWithFlags stats) / num (trips stats) * 100 else 0;
     avgFlagsPerTrip :=
       if (0 <? trips stats)%nat
       then num (flags stats) / num (trips stats) else 0;
     netProfit := netProfit;
     profitPerTrip :=
       if (0 <? trips stats)%nat then netProfit / num (trips stats) else 0 |}.

Definition driverStats (filteredTrips : list Trip)
  : completion (list (string * Stats)) :=
  acc <- tallies filteredTrips ;;
  ret (map (fun entry => (fst entry, derive (snd entry))) acc).

(** The trips of a driver. *)
Definition tripsOf (name : string) (filteredTrips : list Trip) : list Trip :=
  List.filter (fun trip => String.eqb (driverName trip) name) filteredTrips.

Definition flaggedEntries (trip : Trip) : nat :=
  countFlagged (entries (costs trip)).

Definition unresolvedEntries (trip : Trip) : nat :=
  countUnresolvedFlags (entries (costs trip)).

(** A tally holds the figures of a list of trips. *)
Definition tallyHolds (stats : Tally) (driven : list Trip) : Prop :=
  trips stats = List.length driven
  /\ flags stats = list_sum (map flaggedEntries driven)
  /\ investigations stats = flags stats
  /\ unresolvedFlags stats = list_sum (map unresolvedEntries driven)
  /\ tripsWithFlags stats
     = List.length
         (List.filter (fun trip => (0 <? flaggedEntries trip)%nat) driven)
  /\ revenue stats
     == total (map (fun trip => or_zero (baseRevenue trip)) driven)
  /\ expenses stats == total (map (fun trip => total (costAmounts trip)) driven).

(** The accumulator after the trips [done]: one entry per driver met whose
    name is not inherited, holding the figures of that driver's trips. *)
Definition filled (done : list Trip) (acc : list (string * Tally)) : Prop :=
  NoDup (map fst acc)
  /\ (forall name,
        In name (map fst acc)
        <-> inherited name = false /\ In name (map driverName done))
  /\ (forall name stats,
        In (name, stats) acc -> tallyHolds stats (tripsOf name done)).

End DriverStats.

(** ** DieselImportModal: a CSV row to a diesel record *)

Module DieselImport.


Record RecordData : Type := mkRecordData {
  recFleetNumber : string;
  recDate : string;
  recKmReading : JsNum;
  recLitresFilled : JsNum;
  recCostPerLitre : JsNum;
  recTotalCost : JsNum;
  recFuelStation : string;
  recDriverName : string;
  recNotes : string;
  recPreviousKmReading : option JsNum;
  recDistanceTravelled : option JsNum;
  recKmPerLitre : option JsNum;
  recCurrency : string;
  recHasProbe : bool;
  recProbeReading : option JsNum;
  recProbeDiscrepancy : option JsNum;
  recProbeVerified : bool
}.





Section Probes.

(** [TRUCKS_WITH_PROBES], of the types module. *)
Variable TRUCKS_WITH_PROBES : list string.


End Probes.


End DieselImport.

(** ** calculateTripCompliance *)

Module Compliance.

Record DelayReason : Type := mkDelayReason {
  delayDuration : Q
}.

(** What [calculateTripCompliance] reads of a trip beyond [Trip] as modelled
    above: the two arrival times ([None] for an absent or empty string,
    otherwise the time value, in ms, that [new Date] gives it, [NaN] for a
    text that is no date), the delay reasons, and per cost entry the number
    of its attachments ([None] when it has no [attachments]). *)
Record Extras : Type := mkExtras {
  plannedArrivalDateTime : option JsNum;
  actualArrivalDateTime : option JsNum;
  delayReasons : option (list DelayReason);
  attachments : CostEntry -> option nat
}.

(** [Math.min] and [Math.max] on numbers. *)
Definition min (a b : Q) : Q := if Qle_bool a b then a else b.
Definition max (a b : Q) : Q := if Qle_bool a b then b else a.

(** [!cost.attachments || cost.attachments.length === 0] *)
Definition undocumented (extras : Extras) (cost : CostEntry) : bool :=
  match attachments extras cost with
  | None => true
  | Some n => Nat.eqb n 0
  end.

(** [delayReasons.reduce((sum, delay) => sum + delay.delayDuration, 0)] *)
Definition totalDelayHours (delays : list DelayReason) : Q :=
  fold_left (fun sum delay => sum + delayDuration delay) delays 0.

Definition calculateTripCompliance (trip : Trip) (extras : Extras)
  : completion Q :=
  catch
    (let complianceScore := 100 in
     let complianceScore :=
       match plannedArrivalDateTime extras, actualArrivalDateTime extras with
       | Some planned, Some actual =>
           let diffHours :=
             Num.abs
               (NumArith.div (NumArith.sub actual planned)
                  (Num (1000 * 60 * 60))) in
           if Num.gt diffHours 4 then complianceScore - 20
           else if Num.gt diffHours 2 then complianceScore - 10
           else if Num.gt diffHours 1 then complianceScore - 5
           else complianceScore
       | _, _ => complianceScore
       end in
     let complianceScore :=
       match delayReasons extras with
       | Some (delay :: delays) =>
           complianceScore
           - min 30 (totalDelayHours (delay :: delays) * 2)
       | _ => complianceScore
       end in
     costsWithoutDocs <- Js.filter (costs trip) (undocumented extras) ;;
     let complianceScore :=
       if (0 <? List.length costsWithoutDocs)%nat
       then complianceScore
            - min 20 (inject_Z (Z.of_nat (List.length costsWithoutDocs)) * 5)
       else complianceScore in
     ret (max 0 complianceScore))
    (fun _ => ret 0).

(** The hours of delay on record, 0 without delay reasons. *)
Definition delayOnRecord (extras : Extras) : Q :=
  match delayReasons extras with
  | Some delays => totalDelayHours delays
  | None => 0
  end.

End Compliance.

(** ** More sample data *)

Module MoreSamples.
Import JsDate.

(** A completed trip stored without a base revenue, offloaded on
    Wednesday 8 January 2025. *)
Definition unpricedCompleted : Trip :=
  Samples.trip Completed None (Arr [Samples.tolls]) (ofYMDH 2025 0 8 12).

End MoreSamples.

Module FormSamples.
Local Open Scope string_scope.

Definition tripForm : TripForm.FormData :=
  {| TripForm.fleetNumber := "22H";
     TripForm.driverName := "E. Mukonyerwa";
     TripForm.clientName := "Marketing";
     TripForm.clientType := Some External;
     TripForm.startDate := "2025-01-06";
     TripForm.endDate := "2025-01-10";
     TripForm.route := "Harare - Beitbridge";
     TripForm.description := "";
     TripForm.baseRevenue := Text (Num 1000);
     TripForm.revenueCurrency := ZAR;
     TripForm.distanceKm := Text (Num 100) |}.

(** A fill of 450 litres entered for a truck with a probe that read 390. *)
Definition dieselForm : ManualDieselEntry.FormData :=
  {| ManualDieselEntry.fleetNumber := "22H";
     ManualDieselEntry.date := "2025-01-08";
     ManualDieselEntry.kmReading := Text (Num 125000);
     ManualDieselEntry.previousKmReading := Text (Num 123650);
     ManualDieselEntry.litresFilled := Text (Num 450);
     ManualDieselEntry.costPerLitre := Empty;
     ManualDieselEntry.totalCost := Text (Num 8100);
     ManualDieselEntry.fuelStation := "RAM Petroleum Harare";
     ManualDieselEntry.driverName := "E. Mukonyerwa";
     ManualDieselEntry.notes := "";
     ManualDieselEntry.tripId := "";
     ManualDieselEntry.currency := ZAR;
     ManualDieselEntry.probeReading := Text (Num 390) |}.

(** The same fill with 0 typed as the previous reading and as the probe
    reading. *)
Definition dieselFormFromZero : ManualDieselEntry.FormData :=
  {| ManualDieselEntry.fleetNumber := "22H";
     ManualDieselEntry.date := "2025-01-08";
     ManualDieselEntry.kmReading := Text (Num 125000);
     ManualDieselEntry.previousKmReading := Text (Num 0);
     ManualDieselEntry.litresFilled := Text (Num 450);
     ManualDieselEntry.costPerLitre := Empty;
     ManualDieselEntry.totalCost := Text (Num 8100);
     ManualDieselEntry.fuelStation := "RAM Petroleum Harare";
     ManualDieselEntry.driverName := "E. Mukonyerwa";
     ManualDieselEntry.notes := "";
     ManualDieselEntry.tripId := "";
     ManualDieselEntry.currency := ZAR;
     ManualDieselEntry.probeReading := Text (Num 0) |}.

(** The fleets of the sample norms. *)
Definition fleets : list string := ["21H"; "22H"; "UD"].

(** A field holding no surrounding white space is its own [trim]. *)
Definition trimmed (s : string) : string := s.

End FormSamples.

Module DashboardSamples.

(** Two trips of one driver, one of them with a flagged entry. *)
Definition twoTrips : list Trip := [Samples.scenarioTrip; Samples.resolvedTrip].

End DashboardSamples.

Module RetrySamples.
Local Open Scope string_scope.

(** A request that times out twice and then answers with the number of
    calls made before. *)
Definition flaky (calls : nat) : (string + nat) * nat :=
  (if Nat.ltb calls 2 then inl "timeout" else inr calls, S calls).

(** A request that never answers. *)
Definition down (calls : nat) : (string + nat) * nat :=
  (inl "offline", S calls).

End RetrySamples.

(** * Properties *)

(** ** Counting flags *)

Lemma length_filter_unresolved (l : list CostEntry) :
  List.length
    (List.filter
       (fun cost =>
          isFlagged cost && negb (status_is (investigationStatus cost) Resolved))
       l)
  = countUnresolvedFlags l.
Proof.
  induction l as [|c l IH]; simpl; [reflexivity|].
  unfold unresolvedFlag, status_is.
  destruct (isFlagged c); simpl; [|exact IH].
  destruct (investigationStatus c) as [[| |]|]; simpl;
    first [exact IH | f_equal; exact IH].
Qed.

Lemma length_filter_flagged (l : list CostEntry) :
  List.length (List.filter (fun cost => isFlagged cost) l) = countFlagged l.
Proof.
  induction l as [|c l IH]; simpl; [reflexivity|].
  destruct (isFlagged c); simpl; now rewrite IH.
Qed.

Lemma getUnresolvedFlagsCount_spec (v : JsArr CostEntry) :
  getUnresolvedFlagsCount v = inr (countUnresolvedFlags (entries v)).
Proof.
  destruct v as [| |b|l]; try reflexivity.
  - destruct b; reflexivity.
  - unfold getUnresolvedFlagsCount; simpl.
    now rewrite length_filter_unresolved.
Qed.

Lemma getFlaggedCostsCount_spec (v : JsArr CostEntry) :
  getFlaggedCostsCount v = inr (countFlagged (entries v)).
Proof.
  destruct v as [| |b|l]; try reflexivity.
  - destruct b; reflexivity.
  - unfold getFlaggedCostsCount; simpl.
    now rewrite length_filter_flagged.
Qed.

Lemma canCompleteTrip_spec (trip : Trip) :
  canCompleteTrip trip
  = inr (Nat.eqb (countUnresolvedFlags (entries (costs trip))) 0).
Proof.
  unfold canCompleteTrip.
  now rewrite getUnresolvedFlagsCount_spec.
Qed.

Lemma shouldAutoCompleteTrip_spec (trip : Trip) :
  shouldAutoCompleteTrip trip
  = inr (TripStatus_eqb (status trip) Active
         && negb (Nat.eqb (countFlagged (entries (costs trip))) 0)
         && Nat.eqb (countUnresolvedFlags (entries (costs trip))) 0).
Proof.
  unfold shouldAutoCompleteTrip.
  destruct (TripStatus_eqb (status trip) Active); simpl; [|reflexivity].
  rewrite getUnresolvedFlagsCount_spec.
  destruct (costs trip) as [| |b|l]; simpl; try reflexivity.
  rewrite length_filter_flagged.
  now destruct (Nat.eqb (countFlagged l) 0).
Qed.

Lemma countUnresolvedFlags_zero (l : list CostEntry) :
  countUnresolvedFlags l = 0%nat
  <-> (forall c, In c l -> isFlagged c = true ->
                 investigationStatus c = Some Resolved).
Proof.
  induction l as [|c l IH]; simpl.
  - split; [intros _ c []|reflexivity].
  - split.
    + intros H x [<-|Hin] Hf.
      * unfold unresolvedFlag in H. rewrite Hf in H. simpl in H.
        destruct (investigationStatus c) as [[| |]|]; try discriminate.
        reflexivity.
      * apply IH; [|assumption|assumption].
        destruct (unresolvedFlag c); [discriminate|exact H].
    + intros H.
      assert (Hc : unresolvedFlag c = false).
      { unfold unresolvedFlag. destruct (isFlagged c) eqn:Hf; [|reflexivity].
        now rewrite (H c (or_introl eq_refl) Hf). }
      rewrite Hc. simpl. apply IH. intros x Hin. apply H. now right.
Qed.

Lemma countFlagged_pos (l : list CostEntry) :
  countFlagged l <> 0%nat <-> (exists c, In c l /\ isFlagged c = true).
Proof.
  induction l as [|c l IH]; simpl.
  - split; [congruence|intros (c & [] & _)].
  - destruct (isFlagged c) eqn:Hf; simpl.
    + split; [intros _; exists c; auto|discriminate].
    + rewrite IH. split.
      * intros (x & Hin & Hx). exists x. auto.
      * intros (x & [<-|Hin] & Hx); [congruence|]. exists x. auto.
Qed.

Lemma countUnresolved_le_flagged (l : list CostEntry) :
  (countUnresolvedFlags l <= countFlagged l)%nat.
Proof.
  induction l as [|c l IH]; simpl; [lia|].
  unfold unresolvedFlag.
  destruct (isFlagged c); simpl; [|exact IH].
  destruct (investigationStatus c) as [[| |]|]; lia.
Qed.

Lemma TripStatus_eqb_eq (a b : TripStatus) :
  TripStatus_eqb a b = true <-> a = b.
Proof. destruct a, b; simpl; split; congruence. Qed.

(** ** The completion gate *)

(** C2.  For every trip, [canCompleteTrip] returns [true] exactly when the
    number of unresolved flags among the trip's cost entries (flagged and
    not resolved) is zero, and [false] otherwise; the count is the one
    [getUnresolvedFlagsCount] returns.  A trip without cost entries is
    covered: its count is zero. *)
Theorem canCompleteTrip_iff_no_unresolved_flags :
  forall trip : Trip,
    getUnresolvedFlagsCount (costs trip)
    = inr (countUnresolvedFlags (entries (costs trip)))
    /\ (canCompleteTrip trip = inr true
        <-> countUnresolvedFlags (entries (costs trip)) = 0%nat)
    /\ (canCompleteTrip trip = inr false
        <-> countUnresolvedFlags (entries (costs trip)) <> 0%nat)
    /\ (costs trip = Arr [] -> canCompleteTrip trip = inr true).
Proof.
  intros trip. rewrite canCompleteTrip_spec.
  split; [apply getUnresolvedFlagsCount_spec|].
  destruct (Nat.eqb_spec (countUnresolvedFlags (entries (costs trip))) 0)
    as [E|E].
  - split; [split; congruence|]. split; [split; congruence|]. reflexivity.
  - split; [split; congruence|]. split; [split; congruence|].
    intros Hc. rewrite Hc in E. now elim E.
Qed.

Example canCompleteTrip_no_costs :
  canCompleteTrip Samples.noCostsTrip = inr true.
Proof. reflexivity. Qed.

Example canCompleteTrip_blocked :
  canCompleteTrip Samples.blockedTrip = inr false.
Proof. reflexivity. Qed.

(** C9.  When the costs field of a trip is [null], [undefined] or any other
    non-array, [getUnresolvedFlagsCount] returns 0 and [canCompleteTrip]
    returns [true]: absent cost data never closes the completion gate. *)
Theorem malformed_costs_leave_gate_open :
  forall trip : Trip,
    Malformed (costs trip) ->
    getUnresolvedFlagsCount (costs trip) = inr 0%nat
    /\ canCompleteTrip trip = inr true.
Proof.
  intros trip H. rewrite canCompleteTrip_spec, getUnresolvedFlagsCount_spec.
  destruct (costs trip); simpl in *; [auto | auto | auto | contradiction].
Qed.

(** The gate stays open for the sample trip whose costs are [null]. *)
Lemma malformed_costs_leave_gate_open_witness :
  Malformed (costs Samples.nullCostsTrip)
  /\ getUnresolvedFlagsCount (costs Samples.nullCostsTrip) = inr 0%nat
  /\ canCompleteTrip Samples.nullCostsTrip = inr true.
Proof.
  split; [exact I|].
  apply (malformed_costs_leave_gate_open Samples.nullCostsTrip). exact I.
Defined.

(** ** Auto-completion *)

(** C4.  For every trip, [shouldAutoCompleteTrip] returns [true] exactly when
    the trip is active, has at least one flagged cost entry, and has no
    flagged entry whose investigation status differs from resolved;
    otherwise it returns [false].  In particular a trip none of whose
    entries is flagged is not auto-completed. *)
Theorem shouldAutoCompleteTrip_iff :
  forall trip : Trip,
    (shouldAutoCompleteTrip trip = inr true
     <-> status trip = Active
         /\ (exists c, In c (entries (costs trip)) /\ isFlagged c = true)
         /\ ~ (exists c, In c (entries (costs trip))
                        /\ isFlagged c = true
                        /\ investigationStatus c <> Some Resolved))
    /\ (shouldAutoCompleteTrip trip = inr true
        \/ shouldAutoCompleteTrip trip = inr false)
    /\ ((forall c, In c (entries (costs trip)) -> isFlagged c = false) ->
        shouldAutoCompleteTrip trip = inr false).
Proof.
  intros trip. rewrite shouldAutoCompleteTrip_spec.
  set (l := entries (costs trip)).
  assert (Hres :
    countUnresolvedFlags l = 0%nat
    <-> ~ (exists c, In c l /\ isFlagged c = true
                     /\ investigationStatus c <> Some Resolved)).
  { rewrite countUnresolvedFlags_zero. split.
    - intros H (c & Hin & Hf & Hn). apply Hn. now apply H.
    - intros H c Hin Hf.
      destruct (investigationStatus c) as [[| |]|] eqn:E; try reflexivity;
        exfalso; apply H; exists c; rewrite E; repeat split; auto; discriminate. }
  split; [|split].
  - rewrite <- Hres, <- countFlagged_pos, <- TripStatus_eqb_eq.
    destruct (TripStatus_eqb (status trip) Active); simpl;
      [|split; [discriminate | intros (? & _); discriminate]].
    destruct (Nat.eqb_spec (countFlagged l) 0) as [E|E]; simpl;
      [split; [discriminate | intros (_ & ? & _); contradiction]|].
    destruct (Nat.eqb_spec (countUnresolvedFlags l) 0) as [E'|E'].
    + split; auto.
    + split; [discriminate | intros (_ & _ & ?); contradiction].
  - match goal with |- inr ?b = _ \/ _ => destruct b end; auto.
  - intros Hnone.
    assert (E : countFlagged l = 0%nat).
    { destruct (Nat.eq_dec (countFlagged l) 0) as [E|E]; [exact E|].
      apply countFlagged_pos in E. destruct E as (c & Hin & Hf).
      rewrite (Hnone c Hin) in Hf. discriminate. }
    rewrite E. simpl. now rewrite andb_false_r.
Qed.

Example shouldAutoCompleteTrip_resolved :
  shouldAutoCompleteTrip Samples.resolvedTrip = inr true.
Proof. reflexivity. Qed.

Example shouldAutoCompleteTrip_never_flagged :
  shouldAutoCompleteTrip Samples.scenarioTrip = inr false.
Proof. reflexivity. Qed.

Example shouldAutoCompleteTrip_null_costs :
  shouldAutoCompleteTrip Samples.nullCostsTrip = inr false.
Proof. reflexivity. Qed.

(** C10.  Whenever [shouldAutoCompleteTrip] returns [true], so does
    [canCompleteTrip], the trip is active, and [getFlaggedCostsCount] of its
    costs is at least 1.  The converse fails: some trip can be completed by
    hand and is not auto-completed. *)
Theorem autoComplete_implies_canComplete :
  (forall trip : Trip,
      shouldAutoCompleteTrip trip = inr true ->
      canCompleteTrip trip = inr true
      /\ status trip = Active
      /\ exists n, getFlaggedCostsCount (costs trip) = inr n /\ (1 <= n)%nat)
  /\ (exists trip : Trip,
        canCompleteTrip trip = inr true
        /\ shouldAutoCompleteTrip trip = inr false).
Proof.
  split.
  - intros trip. rewrite shouldAutoCompleteTrip_spec, canCompleteTrip_spec,
      getFlaggedCostsCount_spec.
    intros H. injection H as H.
    apply andb_true_iff in H. destruct H as [H Hu].
    apply andb_true_iff in H. destruct H as [Hs Hf].
    rewrite Hu. split; [reflexivity|]. split; [now apply TripStatus_eqb_eq|].
    exists (countFlagged (entries (costs trip))). split; [reflexivity|].
    destruct (Nat.eqb_spec (countFlagged (entries (costs trip))) 0);
      [discriminate | lia].
  - exists Samples.scenarioTrip. split; reflexivity.
Qed.

(** ** The stable sort of the runtime *)

Section SortFacts.
Variable A : Type.
Variable cmp : A -> A -> Z.
Variable before : A -> A -> Prop.

Hypothesis cmp_keeps : forall a b, (cmp a b <= 0)%Z -> before a b.
Hypothesis cmp_swaps : forall a b, (0 < cmp a b)%Z -> before b a.
Hypothesis before_trans :
  forall a b c, before a b -> before b c -> before a c.

Lemma insert_perm (x : A) (l : list A) :
  Permutation (x :: l) (insert cmp x l).
Proof using Type.
  induction l as [|y ys IH]; simpl; [reflexivity|].
  destruct (cmp x y <=? 0)%Z; [reflexivity|].
  rewrite perm_swap. now apply perm_skip.
Qed.

Lemma sort_perm (l : list A) : Permutation l (sort cmp l).
Proof using Type.
  induction l as [|x xs IH]; simpl; [constructor|].
  rewrite <- insert_perm. now apply perm_skip.
Qed.

Lemma insert_sorted (x : A) (l : list A) :
  StronglySorted before l -> StronglySorted before (insert cmp x l).
Proof using cmp_keeps cmp_swaps before_trans.
  induction 1 as [|y ys Hs IH Hall]; simpl.
  - constructor; constructor.
  - destruct (Z.leb_spec (cmp x y) 0) as [Hle|Hgt].
    + constructor; [now constructor|].
      constructor; [now apply cmp_keeps|].
      eapply Forall_impl; [|exact Hall].
      intros z Hz. eapply before_trans; [apply cmp_keeps|]; eassumption.
    + constructor; [exact IH|].
      eapply Permutation_Forall; [apply insert_perm|].
      constructor; [now apply cmp_swaps | exact Hall].
Qed.

Lemma sort_sorted (l : list A) : StronglySorted before (sort cmp l).
Proof using cmp_keeps cmp_swaps before_trans.
  induction l as [|x xs IH]; simpl; [constructor|].
  now apply insert_sorted.
Qed.

End SortFacts.

(** ** Triage order of the flagged costs *)

Lemma compareFlagged_keeps (a b : FlaggedCost) :
  (compareFlagged a b <= 0)%Z -> triageBefore a b.
Proof.
  unfold compareFlagged, triageBefore.
  destruct (isPending a), (isPending b); simpl; intros H;
    first [ left; split; reflexivity | right; split; [reflexivity | lia] | lia ].
Qed.

Lemma compareFlagged_swaps (a b : FlaggedCost) :
  (0 < compareFlagged a b)%Z -> triageBefore b a.
Proof.
  unfold compareFlagged, triageBefore.
  destruct (isPending a), (isPending b); simpl; intros H;
    first [ left; split; reflexivity | right; split; [reflexivity | lia] | lia ].
Qed.

Lemma triageBefore_trans (a b c : FlaggedCost) :
  triageBefore a b -> triageBefore b c -> triageBefore a c.
Proof.
  unfold triageBefore.
  intros [[Ha Hb]|[Hab Ht]] [[Hb' Hc]|[Hbc Ht']]; try congruence.
  - left. split; congruence.
  - left. split; congruence.
  - right. split; [congruence | lia].
Qed.

Lemma each_costs (trip : Trip) (l : list CostEntry) (acc : list FlaggedCost) :
  each
    (fun flaggedCosts cost =>
       if isFlagged cost then
         inr (flaggedCosts ++
              [{| cost := cost;
                  tripFleetNumber := fleetNumber trip;
                  tripRoute := route trip;
                  tripDriverName := driverName trip |}])
       else inr flaggedCosts : completion (list FlaggedCost))
    l acc
  = inr (acc ++ map (enrich trip) (List.filter isFlagged l)).
Proof.
  revert acc. induction l as [|c l IH]; intros acc; simpl.
  - now rewrite app_nil_r.
  - destruct (isFlagged c); simpl; rewrite IH; [|reflexivity].
    now rewrite <- app_assoc.
Qed.

Lemma getAllFlaggedCosts_spec (trips : JsArr Trip) :
  getAllFlaggedCosts trips
  = inr (sort compareFlagged (flat_map flaggedOf (entries trips))).
Proof.
  destruct trips as [| |b|ts]; try reflexivity.
  - destruct b; reflexivity.
  - unfold getAllFlaggedCosts; simpl.
    assert (H : forall acc,
      each
        (fun flaggedCosts trip =>
           if negb (truthy (costs trip)) || negb (isArray (costs trip))
           then ret flaggedCosts
           else
             forEach (costs trip)
               (fun flaggedCosts cost =>
                  if isFlagged cost then
                    ret (flaggedCosts ++
                         [{| cost := cost;
                             tripFleetNumber := fleetNumber trip;
                             tripRoute := route trip;
                             tripDriverName := driverName trip |}])
                  else ret flaggedCosts)
               flaggedCosts)
        ts acc
      = inr (acc ++ flat_map flaggedOf ts)).
    { induction ts as [|t ts IH]; intros acc; simpl.
      - now rewrite app_nil_r.
      - unfold flaggedOf at 1.
        destruct (costs t) as [| |b|l]; simpl.
        + apply IH.
        + apply IH.
        + destruct b; simpl; apply IH.
        + rewrite (each_costs t l acc). simpl. rewrite IH.
          now rewrite <- app_assoc. }
    now rewrite H.
Qed.

(** C5.  For every list of trips, [getAllFlaggedCosts] returns the flagged
    cost entries of those trips, each exactly once and each carrying its
    trip's fleet number, route and driver name, arranged so that pending
    entries come before all others and, among the pending and among the
    others, entries are in descending order of [flaggedAt] (of [date] when
    [flaggedAt] is absent). *)
Theorem getAllFlaggedCosts_sorted_collection :
  forall trips : JsArr Trip,
    exists l : list FlaggedCost,
      getAllFlaggedCosts trips = inr l
      /\ Permutation (flat_map flaggedOf (entries trips)) l
      /\ (forall f, In f l <->
                    exists trip c,
                      In trip (entries trips)
                      /\ In c (entries (costs trip))
                      /\ isFlagged c = true
                      /\ f = enrich trip c)
      /\ StronglySorted triageBefore l.
Proof.
  intros trips. eexists. split; [apply getAllFlaggedCosts_spec|].
  assert (P : Permutation (flat_map flaggedOf (entries trips))
                (sort compareFlagged (flat_map flaggedOf (entries trips))))
    by apply sort_perm.
  split; [exact P|]. split.
  - intros f. split.
    + intros Hin. apply (Permutation_in _ (Permutation_sym P)) in Hin.
      apply in_flat_map in Hin. destruct Hin as (trip & Ht & Hf).
      unfold flaggedOf in Hf. apply in_map_iff in Hf.
      destruct Hf as (c & <- & Hc). apply filter_In in Hc.
      exists trip, c. tauto.
    + intros (trip & c & Ht & Hc & Hf & ->).
      apply (Permutation_in _ P). apply in_flat_map. exists trip.
      split; [exact Ht|]. unfold flaggedOf. apply in_map.
      apply filter_In. auto.
  - apply sort_sorted.
    + exact compareFlagged_keeps.
    + exact compareFlagged_swaps.
    + exact triageBefore_trans.
Qed.

Example getAllFlaggedCosts_blocked :
  getAllFlaggedCosts (Arr [Samples.resolvedTrip; Samples.blockedTrip])
  = inr [enrich Samples.blockedTrip Samples.repair;
         enrich Samples.resolvedTrip Samples.fine;
         enrich Samples.blockedTrip Samples.fine].
Proof. reflexivity. Qed.

(** ** Rollups *)

Lemma gt_true (a b : Q) : Js.gt a b = true <-> b < a.
Proof.
  unfold Js.gt. rewrite negb_true_iff, <- not_true_iff_false, Qle_bool_iff.
  split; [apply Qnot_le_lt | apply Qlt_not_le].
Qed.

Lemma gt_false (a b : Q) : Js.gt a b = false <-> a <= b.
Proof.
  unfold Js.gt. rewrite negb_false_iff. apply Qle_bool_iff.
Qed.

Lemma or_zero_some (q : Q) : or_zero (Some q) == q.
Proof.
  unfold or_zero. destruct (Qeq_bool q 0) eqn:E; [|reflexivity].
  apply Qeq_bool_eq in E. now rewrite E.
Qed.

Lemma fold_left_total (B : Type) (f : B -> Q) (l : list B) (a : Q) :
  fold_left (fun sum x => sum + f x) l a == a + total (map f l).
Proof.
  revert a. induction l as [|x l IH]; intros a; simpl.
  - now rewrite Qplus_0_r.
  - rewrite IH. now rewrite Qplus_assoc.
Qed.

Lemma calculateTotalCosts_spec (v : JsArr CostEntry) :
  calculateTotalCosts v
  = inr (fold_left (fun sum cost => sum + costAmount cost) (entries v) 0).
Proof.
  destruct v as [| |b|l]; try reflexivity. destruct b; reflexivity.
Qed.

Lemma additional_total (trip : Trip) :
  or_zero
    (option_map
       (fun l => fold_left (fun sum cost => sum + additionalAmount cost) l 0)
       (additionalCosts trip))
  == total (additionalAmounts trip).
Proof.
  unfold additionalAmounts. destruct (additionalCosts trip) as [l|].
  - cbn [option_map]. etransitivity; [apply or_zero_some|].
    etransitivity; [apply fold_left_total | apply Qplus_0_l].
  - reflexivity.
Qed.

Lemma revenue_or_zero (trip : Trip) : or_zero (baseRevenue trip) == revenue trip.
Proof.
  unfold revenue. destruct (baseRevenue trip); [apply or_zero_some|reflexivity].
Qed.

(** The record [calculateKPIs] returns, field by field. *)
Lemma calculateKPIs_figures (trip : Trip) :
  exists k : KPIs,
    calculateKPIs trip = inr k
    /\ totalRevenue k == revenue trip
    /\ totalExpenses k
       == total (costAmounts trip) + total (additionalAmounts trip)
    /\ netProfit k == totalRevenue k - totalExpenses k
    /\ profitMargin k
       = (if Js.gt (totalRevenue k) 0
          then netProfit k / totalRevenue k * 100 else 0)
    /\ costPerKm k
       = match distanceKm trip with
         | Some d =>
             if negb (Qeq_bool d 0) && Js.gt d 0
             then totalExpenses k / d else 0
         | None => 0
         end.
Proof.
  unfold calculateKPIs. rewrite calculateTotalCosts_spec. simpl.
  eexists. split; [reflexivity|]. simpl.
  split; [apply revenue_or_zero|].
  split.
  - rewrite additional_total, fold_left_total. unfold costAmounts.
    now rewrite Qplus_0_l.
  - repeat split; reflexivity.
Qed.

(** C1 (as amended).  For every trip [calculateKPIs] returns a record whose
    [totalExpenses] is the sum of the cost-entry amounts plus the sum of the
    additional-cost amounts, whose [netProfit] is the base revenue minus that
    total, whose [profitMargin] is netProfit / totalRevenue * 100 when the
    revenue is positive and 0 when it is zero or negative (so nothing is
    divided by zero), and whose [costPerKm] is totalExpenses / distanceKm
    when the distance is positive and 0 when it is absent or not positive. *)
Theorem calculateKPIs_correct :
  forall trip : Trip,
    exists k : KPIs,
      calculateKPIs trip = inr k
      /\ totalRevenue k == revenue trip
      /\ totalExpenses k
         == total (costAmounts trip) + total (additionalAmounts trip)
      /\ netProfit k == revenue trip - totalExpenses k
      /\ (0 < revenue trip ->
          profitMargin k == netProfit k / revenue trip * 100)
      /\ (revenue trip <= 0 -> profitMargin k == 0)
      /\ (forall d, distanceKm trip = Some d -> 0 < d ->
                    costPerKm k == totalExpenses k / d)
      /\ (forall d, distanceKm trip = Some d -> d <= 0 -> costPerKm k == 0)
      /\ (distanceKm trip = None -> costPerKm k == 0).
Proof.
  intros trip.
  destruct (calculateKPIs_figures trip) as (k & Hk & Hrev & Hexp & Hnet & Hm & Hc).
  exists k. split; [exact Hk|]. split; [exact Hrev|]. split; [exact Hexp|].
  split; [now rewrite Hnet, Hrev|].
  split; [|split; [|split; [|split]]].
  - intros Hpos. rewrite Hm.
    assert (G : Js.gt (totalRevenue k) 0 = true)
      by (apply gt_true; now rewrite Hrev).
    rewrite G. now rewrite Hrev.
  - intros Hle. rewrite Hm.
    assert (G : Js.gt (totalRevenue k) 0 = false)
      by (apply gt_false; now rewrite Hrev).
    rewrite G. reflexivity.
  - intros d Hd Hpos. rewrite Hc, Hd.
    assert (G : Js.gt d 0 = true) by now apply gt_true.
    assert (E : Qeq_bool d 0 = false).
    { apply not_true_iff_false. intros E. apply Qeq_bool_eq in E.
      rewrite E in Hpos. now apply Qlt_irrefl in Hpos. }
    rewrite G, E. reflexivity.
  - intros d Hd Hle. rewrite Hc, Hd.
    assert (G : Js.gt d 0 = false) by now apply gt_false.
    rewrite G, andb_false_r. reflexivity.
  - intros Hd. rewrite Hc, Hd. reflexivity.
Qed.

(** Scenario 7: revenue 1000, costs 200 and 150, 100 km. *)
Example calculateKPIs_scenario :
  exists k, calculateKPIs Samples.scenarioTrip = inr k
    /\ totalExpenses k == 350 /\ netProfit k == 650
    /\ profitMargin k == 65 /\ costPerKm k == 7 # 2.
Proof. eexists. split; [reflexivity|]. repeat split. Qed.

(** C1 as the specification words it fails on a trip with negative revenue:
    the revenue is not zero, yet the margin returned is 0 and not
    netProfit / totalRevenue * 100 (which is 100 here). *)
Lemma calculateKPIs_margin_negative_revenue :
  exists k : KPIs,
    calculateKPIs Samples.lossTrip = inr k
    /\ ~ totalRevenue k == 0
    /\ profitMargin k == 0
    /\ netProfit k / totalRevenue k * 100 == 100
    /\ ~ profitMargin k == netProfit k / totalRevenue k * 100.
Proof.
  eexists. split; [reflexivity|].
  repeat split; try (intros H; vm_compute in H; discriminate).
Qed.

(** ** Malformed input *)

(** C8 (as amended).  No rollup function raises, whatever it is given.  On a
    costs value that is [null], [undefined] or not an array,
    [calculateTotalCosts], [getFlaggedCostsCount] and
    [getUnresolvedFlagsCount] return 0; [getAllFlaggedCosts] returns the
    empty list when the trips value is malformed or every trip has malformed
    costs.  [calculateKPIs] defaults the malformed part only: malformed costs
    add nothing to [totalExpenses], a missing [baseRevenue] gives
    [totalRevenue] 0 and [profitMargin] 0, and the record is zero throughout
    when costs are malformed, revenue is missing and there are no additional
    costs. *)
Theorem malformed_input_defaults :
  (forall v : JsArr CostEntry,
      (exists q, calculateTotalCosts v = inr q)
      /\ (exists n, getFlaggedCostsCount v = inr n)
      /\ (exists n, getUnresolvedFlagsCount v = inr n)
      /\ (Malformed v ->
          calculateTotalCosts v = inr 0
          /\ getFlaggedCostsCount v = inr 0%nat
          /\ getUnresolvedFlagsCount v = inr 0%nat))
  /\ (forall trips : JsArr Trip,
        (exists l, getAllFlaggedCosts trips = inr l)
        /\ (Malformed trips -> getAllFlaggedCosts trips = inr [])
        /\ ((forall t, In t (entries trips) -> Malformed (costs t)) ->
            getAllFlaggedCosts trips = inr []))
  /\ (forall trip : Trip,
        exists k : KPIs,
          calculateKPIs trip = inr k
          /\ (Malformed (costs trip) ->
              totalExpenses k == total (additionalAmounts trip))
          /\ (baseRevenue trip = None ->
              totalRevenue k == 0 /\ profitMargin k == 0)
          /\ (Malformed (costs trip) -> baseRevenue trip = None ->
              additionalCosts trip = None -> zeroedKPIs k)).
Proof.
  split; [|split].
  - intros v. rewrite calculateTotalCosts_spec, getFlaggedCostsCount_spec,
      getUnresolvedFlagsCount_spec.
    repeat split; eauto.
    all: destruct v; simpl in *; [reflexivity .. | contradiction].
  - intros trips. rewrite getAllFlaggedCosts_spec.
    split; [eauto|]. split.
    + destruct trips; simpl; [reflexivity .. | contradiction].
    + intros Hall.
      assert (E : flat_map flaggedOf (entries trips) = []).
      { induction (entries trips) as [|t ts IH]; simpl; [reflexivity|].
        rewrite IH by (intros x Hx; apply Hall; now right).
        unfold flaggedOf. specialize (Hall t (or_introl eq_refl)).
        destruct (costs t); simpl in *; [reflexivity .. | contradiction]. }
      now rewrite E.
  - intros trip.
    destruct (calculateKPIs_figures trip)
      as (k & Hk & Hrev & Hexp & Hnet & Hm & Hc).
    assert (Hcosts : Malformed (costs trip) -> total (costAmounts trip) = 0).
    { unfold costAmounts. destruct (costs trip); simpl;
        [reflexivity .. | contradiction]. }
    assert (Hmargin : totalRevenue k == 0 -> profitMargin k == 0).
    { intros Hz. rewrite Hm.
      assert (G : Js.gt (totalRevenue k) 0 = false)
        by (apply gt_false; rewrite Hz; apply Qle_refl).
      now rewrite G. }
    assert (Hnorev : baseRevenue trip = None -> totalRevenue k == 0).
    { intros Hb. rewrite Hrev. unfold revenue. now rewrite Hb. }
    exists k. split; [exact Hk|]. split; [|split].
    + intros Hbad. rewrite Hexp, (Hcosts Hbad). apply Qplus_0_l.
    + intros Hb. split; [now apply Hnorev | now apply Hmargin, Hnorev].
    + intros Hbad Hb Ha.
      assert (Hexp0 : totalExpenses k == 0).
      { rewrite Hexp, (Hcosts Hbad). unfold additionalAmounts. now rewrite Ha. }
      unfold zeroedKPIs.
      split; [now apply Hnorev|]. split; [exact Hexp0|].
      split; [now rewrite Hnet, Hexp0, (Hnorev Hb)|].
      split; [now apply Hmargin, Hnorev|].
      rewrite Hc. destruct (distanceKm trip) as [d|]; [|reflexivity].
      destruct (negb (Qeq_bool d 0) && Js.gt d 0); [|reflexivity].
      rewrite Hexp0. unfold Qdiv. apply Qmult_0_l.
Qed.

(** C8 as the specification words it fails for [calculateKPIs]: a trip
    without [baseRevenue], and a trip whose costs are [null], both get a
    record that is not zeroed. *)
Lemma malformed_input_kpis_not_zeroed :
  (baseRevenue Samples.unpricedTrip = None
   /\ exists k, calculateKPIs Samples.unpricedTrip = inr k
                /\ totalExpenses k == 200 /\ ~ zeroedKPIs k)
  /\ (Malformed (costs Samples.nullCostsTrip)
      /\ exists k, calculateKPIs Samples.nullCostsTrip = inr k
                   /\ totalRevenue k == 1000 /\ ~ zeroedKPIs k).
Proof.
  split.
  - split; [reflexivity|]. eexists. split; [reflexivity|].
    split; [reflexivity|].
    intros (_ & H & _). vm_compute in H. discriminate.
  - split; [exact I|]. eexists. split; [reflexivity|].
    split; [reflexivity|].
    intros (H & _). vm_compute in H. discriminate.
Qed.

(** ** Weekly buckets *)

(** C3 (the code departs from it).  The Saturday and the Sunday of the week
    of Monday 6 January 2025 lie in one Monday-to-Sunday week, on different
    days, and both trips are completed; the aggregator files the Saturday
    trip under week 2 of 2025 and the Sunday trip under week 3: for a Sunday
    [getDay()] is 0, so the computed Monday is the next day. *)
Theorem weekKey_sunday_leaves_its_week :
  Weekly.isCompletedTrip Samples.saturdayTrip = true
  /\ Weekly.isCompletedTrip Samples.sundayTrip = true
  /\ Weekly.calendarWeek (Weekly.offloadDate Samples.saturdayTrip)
     = Weekly.calendarWeek (Weekly.offloadDate Samples.sundayTrip)
  /\ JsDate.Day (Weekly.offloadDate Samples.saturdayTrip)
     <> JsDate.Day (Weekly.offloadDate Samples.sundayTrip)
  /\ Weekly.mondayOf (Weekly.offloadDate Samples.saturdayTrip)
     = JsDate.ofYMDH 2025 0 6 12
  /\ Weekly.mondayOf (Weekly.offloadDate Samples.sundayTrip)
     = JsDate.ofYMDH 2025 0 13 12
  /\ Weekly.weekKey Samples.saturdayTrip = (2025, 2)%Z
  /\ Weekly.weekKey Samples.sundayTrip = (2025, 3)%Z
  /\ Weekly.weekKey Samples.saturdayTrip <> Weekly.weekKey Samples.sundayTrip.
Proof.
  repeat split; try (vm_compute; congruence).
Qed.

(** ** Probe cross-check *)

Section ProbeFacts.
Import ProbeVerificationModal.

Variable dieselRecord : DieselRecord.
Variable formData : FormData.
Variable reading : Q.

Hypothesis reading_entered : formProbeReading formData = Text (Num reading).




End ProbeFacts.




(** ** Diesel efficiency *)

(** C7.  For a diesel record with actual km per litre and a fleet norm with a
    tolerance that is not negative: the variance is
    (actual - expected) / expected * 100; the status is poor when the
    variance is below minus the tolerance, excellent when it is above the
    tolerance, normal otherwise; a debrief is required exactly when the
    status is poor or the magnitude of the variance exceeds the tolerance.
    With 3.0 km/l expected, 10% tolerance and 2.6 km/l measured the variance
    is -40/3 (that is -13.33 to two decimals), the status is poor and a
    debrief is required. *)
Theorem diesel_evaluation_classifies :
  (forall (norm : DieselNorms) (actual : Q),
      0 <= tolerancePercentage norm ->
      let e := DieselEvaluator.evaluate norm actual in
      let tolerance := tolerancePercentage norm in
      efficiencyVariance e
      == (actual - expectedKmPerLitre norm) / expectedKmPerLitre norm * 100
      /\ (efficiencyVariance e < - tolerance -> performanceStatus e = Poor)
      /\ (tolerance < efficiencyVariance e -> performanceStatus e = Excellent)
      /\ (- tolerance <= efficiencyVariance e ->
          efficiencyVariance e <= tolerance ->
          performanceStatus e = Normal)
      /\ (requiresDebrief e = true
          <-> performanceStatus e = Poor
              \/ tolerance < Qabs (efficiencyVariance e)))
  /\ (let e := DieselEvaluator.evaluate Samples.norm3 (26 # 10) in
      efficiencyVariance e == - (40 # 3)
      /\ - (1334 # 100) < efficiencyVariance e
      /\ efficiencyVariance e < - (1333 # 100)
      /\ performanceStatus e = Poor
      /\ requiresDebrief e = true).
Proof.
  split.
  - intros norm actual Htol e tolerance.
    unfold e, DieselEvaluator.evaluate; cbn [efficiencyVariance performanceStatus requiresDebrief].
    set (v := (actual - expectedKmPerLitre norm) / expectedKmPerLitre norm * 100).
    fold tolerance. fold tolerance in Htol.
    split; [reflexivity|].
    destruct (Js.gt (- tolerance) v) eqn:Ep.
    + apply gt_true in Ep.
      split; [reflexivity|]. split; [intros; lra|]. split; [intros; lra|].
      simpl. split; auto.
    + apply gt_false in Ep.
      split; [intros; lra|].
      destruct (Js.gt v tolerance) eqn:Ee.
      * apply gt_true in Ee.
        split; [reflexivity|]. split; [intros; lra|].
        simpl. rewrite gt_true. split; [auto|].
        intros [H|H]; [discriminate | exact H].
      * apply gt_false in Ee.
        split; [intros; lra|]. split; [reflexivity|].
        simpl. rewrite gt_true. split; [auto|].
        intros [H|H]; [discriminate | exact H].
  - repeat split.
Qed.

(** The general part of the classification at the sample norm (3.0 km/l,
    10%) and 2.6 km/l measured. *)
Lemma diesel_evaluation_classifies_witness :
  0 <= tolerancePercentage Samples.norm3
  /\ efficiencyVariance (DieselEvaluator.evaluate Samples.norm3 (26 # 10))
     == ((26 # 10) - expectedKmPerLitre Samples.norm3)
        / expectedKmPerLitre Samples.norm3 * 100.
Proof.
  assert (H : 0 <= tolerancePercentage Samples.norm3)
    by (unfold Qle; simpl; lia).
  split; [exact H|].
  exact (proj1 (proj1 diesel_evaluation_classifies Samples.norm3 (26 # 10) H)).
Defined.

(** ** Where the week key goes wrong: the general picture *)

Section WeekFacts.
Import JsDate Weekly.
Local Open Scope Z_scope.

Lemma MonthFromTime_range (t : Z) : 0 <= MonthFromTime t <= 11.
Proof.
  unfold MonthFromTime.
  repeat match goal with
         | |- context [if ?c then _ else _] => destruct c
         end; lia.
Qed.

(** Moving the day of the month moves the date by whole days: [setDate]
    carries across month and year ends. *)
Lemma setDate_shift (t k : Z) : setDate t (getDate t + k) = t + k * msPerDay.
Proof.
  unfold setDate, getDate, DateFromTime, MakeDay.
  pose proof (MonthFromTime_range t) as Hm.
  rewrite Z.div_small, Z.mod_small, Z.add_0_r by lia.
  unfold DayWithinYear, MakeDate, Day, TimeWithinDay.
  generalize (monthStart (leapDays (YearFromTime t)) (MonthFromTime t)).
  generalize (DayFromYear (YearFromTime t)).
  intros d0 ms. unfold msPerDay.
  pose proof (Z.div_mod t 86400000). lia.
Qed.

Lemma mondayOf_shift (t : Z) : mondayOf t = t + (1 - WeekDay t) * msPerDay.
Proof.
  unfold mondayOf, getDay.
  replace (getDate t - WeekDay t + 1) with (getDate t + (1 - WeekDay t)) by lia.
  apply setDate_shift.
Qed.

Lemma Day_shift (t k : Z) : Day (t + k * msPerDay) = Day t + k.
Proof.
  unfold Day, msPerDay. now rewrite Z.div_add.
Qed.

Lemma TimeWithinDay_range (t : Z) : 0 <= TimeWithinDay t < msPerDay.
Proof. unfold TimeWithinDay, msPerDay. apply Z.mod_pos_bound. lia. Qed.

(** On Monday to Saturday the computed Monday opens the date's own calendar
    week; on a Sunday it opens the next one. *)
Lemma Day_mondayOf (t : Z) :
  Day (mondayOf t)
  = 7 * (calendarWeek t + (if WeekDay t =? 0 then 1 else 0)) - 3.
Proof.
  rewrite mondayOf_shift, Day_shift. unfold calendarWeek, WeekDay.
  generalize (Day t). intros d.
  destruct (Z.eqb_spec ((d + 4) mod 7) 0) as [E|E];
    Z.div_mod_to_equations; lia.
Qed.

Lemma WeekDay_mondayOf (t : Z) : WeekDay (mondayOf t) = 1.
Proof.
  unfold WeekDay at 1. rewrite Day_mondayOf.
  generalize (calendarWeek t + (if WeekDay t =? 0 then 1 else 0)). intros w.
  Z.div_mod_to_equations. lia.
Qed.

Lemma ofYMD_january_first (y : Z) : ofYMD y 0 1 = DayFromYear y * msPerDay.
Proof.
  unfold ofYMD, MakeDate, MakeDay.
  change (0 / 12) with 0. change (0 mod 12) with 0.
  change (monthStart (leapDays (y + 0)) 0) with 0.
  replace (y + 0) with y by lia.
  generalize (DayFromYear y). intros d0. unfold msPerDay. lia.
Qed.

Lemma getWeekNumber_ceiling (m : Z) :
  getWeekNumber m
  = - ((- (weekOffset m * msPerDay + TimeWithinDay m)) / (7 * msPerDay)).
Proof.
  unfold getWeekNumber, getFullYear, getDay.
  rewrite ofYMD_january_first.
  set (d0 := DayFromYear (YearFromTime m)).
  assert (Hfd : WeekDay (d0 * msPerDay) = (d0 + 4) mod 7).
  { unfold WeekDay, Day, msPerDay. now rewrite Z.div_mul. }
  rewrite Hfd.
  assert (E : ((inject_Z (m - d0 * msPerDay) / inject_Z 86400000
                + inject_Z ((d0 + 4) mod 7) + 1) / 7
               == (m - d0 * msPerDay + ((d0 + 4) mod 7 + 1) * 86400000)
                  # (7 * 86400000))%Q).
  { unfold Qeq, Qdiv, Qmult, Qplus, Qinv, inject_Z. simpl. lia. }
  rewrite E. unfold Qceiling, Qfloor, Qopp. cbv beta iota.
  unfold weekOffset. fold d0. unfold TimeWithinDay, Day, msPerDay.
  change (Z.pos (7 * 86400000)) with (7 * 86400000).
  pose proof (Z.div_mod m 86400000).
  f_equal. f_equal. cbn [Qnum]. lia.
Qed.

(** On a Monday the time of day does not reach the next multiple of seven
    days, so the week number depends on the day alone. *)
Lemma getWeekNumber_monday (m : Z) :
  WeekDay m = 1 -> getWeekNumber m = weekOffset m / 7 + 1.
Proof.
  intros Hmon. rewrite getWeekNumber_ceiling.
  pose proof (TimeWithinDay_range m) as Ht.
  assert (Hoff : weekOffset m mod 7 = 2).
  { unfold weekOffset. unfold WeekDay in Hmon.
    generalize dependent (Day m). generalize (DayFromYear (YearFromTime m)).
    intros d0 d Hmon. Z.div_mod_to_equations. lia. }
  generalize dependent (TimeWithinDay m). generalize dependent (weekOffset m).
  unfold msPerDay. intros a Ha b Hb.
  Z.div_mod_to_equations. lia.
Qed.

Lemma weekKeyOfDate_by_day (t : Z) :
  weekKeyOfDate t
  = (YearFromDay (Day (mondayOf t)),
     (Day (mondayOf t) - DayFromYear (YearFromDay (Day (mondayOf t)))
      + (DayFromYear (YearFromDay (Day (mondayOf t))) + 4) mod 7 + 1) / 7 + 1).
Proof.
  unfold weekKeyOfDate.
  rewrite getWeekNumber_monday by apply WeekDay_mondayOf.
  reflexivity.
Qed.

(** What the code does get right: dates from Monday to Saturday of one
    calendar week share their key, whatever the time of day. *)
Lemma weekKey_monday_to_saturday (t1 t2 : Z) :
  calendarWeek t1 = calendarWeek t2 ->
  WeekDay t1 <> 0 -> WeekDay t2 <> 0 ->
  weekKeyOfDate t1 = weekKeyOfDate t2.
Proof.
  intros Hw H1 H2. rewrite !weekKeyOfDate_by_day, !Day_mondayOf, Hw.
  apply Z.eqb_neq in H1, H2. now rewrite H1, H2.
Qed.

(** And what it gets wrong: a Sunday never shares the key of the other days
    of its calendar week. *)
Lemma weekKey_sunday_differs (t1 t2 : Z) :
  calendarWeek t1 = calendarWeek t2 ->
  WeekDay t1 <> 0 -> WeekDay t2 = 0 ->
  weekKeyOfDate t1 <> weekKeyOfDate t2.
Proof.
  intros Hw H1 H2. rewrite !weekKeyOfDate_by_day, !Day_mondayOf, Hw.
  apply Z.eqb_neq in H1. apply Z.eqb_eq in H2. rewrite H1, H2.
  set (w := calendarWeek t2).
  replace (7 * (w + 1) - 3) with (7 * (w + 0) - 3 + 7) by lia.
  generalize (7 * (w + 0) - 3). intros d.
  intros E. injection E as Ey Ew. rewrite <- Ey in Ew.
  generalize dependent (DayFromYear (YearFromDay d)). intros d0 Ew.
  Z.div_mod_to_equations. lia.
Qed.

End WeekFacts.

(** The year function agrees with [DayFromYear] at both ends of every year
    from 1970 to 2100. *)
Example YearFromDay_brackets :
  forallb
    (fun y =>
       (JsDate.YearFromDay (JsDate.DayFromYear y) =? y)%Z
       && (JsDate.YearFromDay (JsDate.DayFromYear (y + 1) - 1) =? y)%Z
       && (JsDate.DayFromYear (y + 1) - JsDate.DayFromYear y
           =? JsDate.DaysInYear y)%Z)
    (map (fun n => (1970 + Z.of_nat n)%Z) (seq 0 131))
  = true.
Proof. vm_compute. reflexivity. Qed.

(** * Further properties *)

(** ** Flag counts *)

(** X1.  On every costs value both counters return, and the number of
    unresolved flags never exceeds the number of flags; the two are equal
    exactly when no flagged entry is resolved. *)
Theorem unresolved_flags_at_most_flagged :
  forall costs : JsArr CostEntry,
    exists unresolved flagged : nat,
      getUnresolvedFlagsCount costs = inr unresolved
      /\ getFlaggedCostsCount costs = inr flagged
      /\ (unresolved <= flagged)%nat
      /\ (unresolved = flagged
          <-> forall c, In c (entries costs) -> isFlagged c = true ->
                        investigationStatus c <> Some Resolved).
Proof.
  intros costs.
  exists (countUnresolvedFlags (entries costs)), (countFlagged (entries costs)).
  split; [apply getUnresolvedFlagsCount_spec|].
  split; [apply getFlaggedCostsCount_spec|].
  split; [apply countUnresolved_le_flagged|].
  induction (entries costs) as [|c l IH]; simpl.
  - split; [intros _ c []|reflexivity].
  - pose proof (countUnresolved_le_flagged l) as Hle.
    unfold unresolvedFlag.
    destruct (isFlagged c) eqn:Hf; simpl.
    + destruct (investigationStatus c) as [[| |]|] eqn:Hs; simpl.
      * split.
        -- intros E x [<-|Hin] Hx; [congruence|]. apply IH; [lia|assumption..].
        -- intros H. f_equal. apply IH. intros x Hin. apply H. now right.
      * split.
        -- intros E x [<-|Hin] Hx; [congruence|]. apply IH; [lia|assumption..].
        -- intros H. f_equal. apply IH. intros x Hin. apply H. now right.
      * split; [lia|].
        intros H. exfalso. now apply (H c (or_introl eq_refl) Hf).
      * split.
        -- intros E x [<-|Hin] Hx; [congruence|]. apply IH; [lia|assumption..].
        -- intros H. f_equal. apply IH. intros x Hin. apply H. now right.
    + rewrite IH. split.
      * intros H x [<-|Hin] Hx; [congruence|]. now apply H.
      * intros H x Hin. apply H. now right.
Qed.


Lemma length_flaggedOf (t : Trip) :
  List.length (flaggedOf t) = countFlagged (entries (costs t)).
Proof.
  unfold flaggedOf. rewrite length_map.
  apply (length_filter_flagged (entries (costs t))).
Qed.


(** X2.  The list [getAllFlaggedCosts] returns for an array of trips has as
    many entries as [getFlaggedCostsCount] counts over the trips together. *)
Theorem getAllFlaggedCosts_length :
  forall trips : list Trip,
    exists (l : list FlaggedCost) (counts : list nat),
      getAllFlaggedCosts (Arr trips) = inr l
      /\ Forall2 (fun t n => getFlaggedCostsCount (costs t) = inr n)
           trips counts
      /\ List.length l = list_sum counts.
Proof.
  intros trips.
  exists (sort compareFlagged (flat_map flaggedOf trips)),
         (map (fun t => countFlagged (entries (costs t))) trips).
  split; [apply (getAllFlaggedCosts_spec (Arr trips))|]. split.
  - induction trips as [|t ts IH]; simpl; constructor;
      [apply getFlaggedCostsCount_spec | exact IH].
  - rewrite <- (Permutation_length (sort_perm compareFlagged _)).
    induction trips as [|t ts IH]; simpl; [reflexivity|].
    now rewrite length_app, length_flaggedOf, IH.
Qed.


(** ** The profit on a trip card *)


(** ** Filters *)

Lemma filterTripsByCurrency_spec (l : list Trip) (currency : string) :
  filterTripsByCurrency (Arr l) currency
  = inr (if JsMore.blank currency then l
         else List.filter
                (fun trip => currencyIs (revenueCurrency trip) currency) l).
Proof.
  unfold filterTripsByCurrency. simpl.
  now destruct (JsMore.blank currency).
Qed.

Lemma filterTripsByDriver_spec (l : list Trip) (driver : string) :
  filterTripsByDriver (Arr l) driver
  = inr (if JsMore.blank driver then l
         else List.filter (fun trip => String.eqb (driverName trip) driver) l).
Proof.
  unfold filterTripsByDriver. simpl.
  now destruct (JsMore.blank driver).
Qed.

Lemma filter_comm (A : Type) (p q : A -> bool) (l : list A) :
  List.filter p (List.filter q l) = List.filter q (List.filter p l).
Proof.
  induction l as [|x l IH]; simpl; [reflexivity|].
  destruct (p x) eqn:Hp, (q x) eqn:Hq; simpl;
    rewrite ?Hp, ?Hq, IH; reflexivity.
Qed.

Lemma filter_idem (A : Type) (p : A -> bool) (l : list A) :
  List.filter p (List.filter p l) = List.filter p l.
Proof.
  induction l as [|x l IH]; simpl; [reflexivity|].
  destruct (p x) eqn:Hp; simpl; rewrite ?Hp, IH; reflexivity.
Qed.

(** X5.  Filtering by currency and then by driver gives the same trips, in
    the same order, as filtering by driver and then by currency, for every
    pair of criteria, the empty ones included; and applying either filter a
    second time with the same criterion changes nothing. *)
Theorem trip_filters_commute :
  forall (trips : list Trip) (currency driver : string),
    (byCurrency <- filterTripsByCurrency (Arr trips) currency ;;
     filterTripsByDriver (Arr byCurrency) driver)
    = (byDriver <- filterTripsByDriver (Arr trips) driver ;;
       filterTripsByCurrency (Arr byDriver) currency)
    /\ (byCurrency <- filterTripsByCurrency (Arr trips) currency ;;
        filterTripsByCurrency (Arr byCurrency) currency)
       = filterTripsByCurrency (Arr trips) currency
    /\ (byDriver <- filterTripsByDriver (Arr trips) driver ;;
        filterTripsByDriver (Arr byDriver) driver)
       = filterTripsByDriver (Arr trips) driver.
Proof.
  intros trips currency driver.
  rewrite !filterTripsByCurrency_spec, !filterTripsByDriver_spec. simpl.
  rewrite !filterTripsByCurrency_spec, !filterTripsByDriver_spec.
  destruct (JsMore.blank currency), (JsMore.blank driver);
    repeat split; try reflexivity; f_equal;
    first [apply filter_comm | apply filter_idem].
Qed.

(** X6.  The edges of the two filters: a trips value that is not an array
    gives the empty list; an empty criterion gives the array back unchanged;
    otherwise the result holds, in the order of the array, exactly the trips
    whose field equals the criterion, so a trip without a currency is never
    selected by a currency. *)
Theorem trip_filters_edges :
  (forall (trips : JsArr Trip) (s : string),
      Malformed trips ->
      filterTripsByCurrency trips s = inr []
      /\ filterTripsByDriver trips s = inr [])
  /\ (forall trips : list Trip,
        filterTripsByCurrency (Arr trips) EmptyString = inr trips
        /\ filterTripsByDriver (Arr trips) EmptyString = inr trips)
  /\ (forall (trips : list Trip) (c : Currency),
        filterTripsByCurrency (Arr trips) (currencyName c)
        = inr (List.filter
                 (fun trip =>
                    match revenueCurrency trip, c with
                    | Some USD, USD | Some ZAR, ZAR => true
                    | _, _ => false
                    end)
                 trips))
  /\ (forall (trips : list Trip) (driver : string),
        driver <> EmptyString ->
        exists l,
          filterTripsByDriver (Arr trips) driver = inr l
          /\ forall trip, In trip l <-> In trip trips /\ driverName trip = driver).
Proof.
  split; [|split; [|split]].
  - intros trips s H. destruct trips as [| |b|l]; simpl in H;
      try contradiction; try (split; reflexivity).
    destruct b; split; reflexivity.
  - intros trips. split; reflexivity.
  - intros trips c. rewrite filterTripsByCurrency_spec.
    destruct c; simpl; f_equal; apply filter_ext; intros t;
      destruct (revenueCurrency t) as [[|]|]; reflexivity.
  - intros trips driver Hd. rewrite filterTripsByDriver_spec.
    destruct driver as [|a d]; [contradiction|]. simpl JsMore.blank. cbv iota.
    eexists. split; [reflexivity|].
    intros trip. rewrite filter_In, String.eqb_eq. reflexivity.
Qed.

(** The edge cases at the sample data: a [null] trips value, and the sample
    driver. *)
Lemma trip_filters_edges_witness :
  Malformed (Null : JsArr Trip)
  /\ filterTripsByCurrency Null "ZAR"%string = inr []
  /\ "E. Mukonyerwa"%string <> EmptyString
  /\ exists l,
       filterTripsByDriver (Arr [Samples.scenarioTrip]) "E. Mukonyerwa"%string
       = inr l
       /\ In Samples.scenarioTrip l.
Proof.
  split; [exact I|].
  split; [exact (proj1 (proj1 trip_filters_edges Null "ZAR"%string I))|].
  assert (H : "E. Mukonyerwa"%string <> EmptyString) by discriminate.
  split; [exact H|].
  destruct (proj2 (proj2 (proj2 trip_filters_edges))
              [Samples.scenarioTrip] "E. Mukonyerwa"%string H) as (l & Hl & Hin).
  exists l. split; [exact Hl|]. apply Hin. split; [now left | reflexivity].
Defined.

(** ** The dashboard's completion work lists *)




(** ** Objects as maps *)

Section AssocFacts.
Variables K V : Type.
Variable eqb : K -> K -> bool.
Hypothesis eqb_eq : forall a b, eqb a b = true <-> a = b.

Lemma find_None (k : K) (l : list (K * V)) :
  Assoc.find eqb k l = None <-> ~ In k (map fst l).
Proof using eqb_eq.
  induction l as [|[k' v] l IH]; simpl.
  - split; [intros _ []|reflexivity].
  - destruct (eqb k' k) eqn:E.
    + apply eqb_eq in E. split; [discriminate|]. intros H. elim H. now left.
    + rewrite IH. split.
      * intros H [H'|H']; [|contradiction].
        apply eqb_eq in H'. congruence.
      * intros H H'. apply H. now right.
Qed.

Lemma find_Some (k : K) (w : V) (l : list (K * V)) :
  Assoc.find eqb k l = Some w ->
  exists l1 l2, l = l1 ++ (k, w) :: l2 /\ ~ In k (map fst l1).
Proof using eqb_eq.
  induction l as [|[k' v] l IH]; simpl; [discriminate|].
  destruct (eqb k' k) eqn:E.
  - apply eqb_eq in E. subst k'. intros [= ->].
    exists [], l. split; [reflexivity|]. intros [].
  - intros H. destruct (IH H) as (l1 & l2 & -> & Hn).
    exists ((k', v) :: l1), l2. split; [reflexivity|].
    intros [H'|H']; [|contradiction].
    simpl in H'. apply eqb_eq in H'. congruence.
Qed.

Lemma set_absent (k : K) (v : V) (l : list (K * V)) :
  ~ In k (map fst l) -> Assoc.set eqb k v l = l ++ [(k, v)].
Proof using eqb_eq.
  induction l as [|[k' v'] l IH]; simpl; [reflexivity|].
  intros H. destruct (eqb k' k) eqn:E.
  - apply eqb_eq in E. elim H. now left.
  - rewrite IH; [reflexivity|]. intros H'. apply H. now right.
Qed.

Lemma set_present (k : K) (v w : V) (l1 l2 : list (K * V)) :
  ~ In k (map fst l1) ->
  Assoc.set eqb k v (l1 ++ (k, w) :: l2) = l1 ++ (k, v) :: l2.
Proof using eqb_eq.
  induction l1 as [|[k' v'] l1 IH]; simpl.
  - intros _. assert (E : eqb k k = true) by now apply eqb_eq.
    now rewrite E.
  - intros H. destruct (eqb k' k) eqn:E.
    + apply eqb_eq in E. elim H. now left.
    + rewrite IH; [reflexivity|]. intros H'. apply H. now right.
Qed.

Lemma find_middle (k : K) (w : V) (l1 l2 : list (K * V)) :
  ~ In k (map fst l1) -> Assoc.find eqb k (l1 ++ (k, w) :: l2) = Some w.
Proof using eqb_eq.
  induction l1 as [|[k' v'] l1 IH]; simpl.
  - intros _. assert (E : eqb k k = true) by now apply eqb_eq.
    now rewrite E.
  - intros H. destruct (eqb k' k) eqn:E.
    + apply eqb_eq in E. elim H. now left.
    + apply IH. intros H'. apply H. now right.
Qed.

Lemma find_set_same (k : K) (v : V) (l : list (K * V)) :
  Assoc.find eqb k (Assoc.set eqb k v l) = Some v.
Proof using eqb_eq.
  assert (R : eqb k k = true) by now apply eqb_eq.
  induction l as [|[k' v'] l IH]; simpl.
  - now rewrite R.
  - destruct (eqb k' k) eqn:E; simpl; [now rewrite R | now rewrite E].
Qed.

Lemma find_set_other (k k0 : K) (v : V) (l : list (K * V)) :
  k0 <> k ->
  Assoc.find eqb k (Assoc.set eqb k0 v l) = Assoc.find eqb k l.
Proof using eqb_eq.
  intros Hne.
  assert (N : eqb k0 k = false).
  { destruct (eqb k0 k) eqn:E; [|reflexivity].
    apply eqb_eq in E. contradiction. }
  induction l as [|[k' v'] l IH]; simpl.
  - now rewrite N.
  - destruct (eqb k' k0) eqn:E; simpl.
    + apply eqb_eq in E. subst k'. now rewrite N.
    + destruct (eqb k' k); [reflexivity | exact IH].
Qed.

Lemma find_remove_other (k k0 : K) (l : list (K * V)) :
  k0 <> k ->
  Assoc.find eqb k (Assoc.remove eqb k0 l) = Assoc.find eqb k l.
Proof using eqb_eq.
  intros Hne.
  induction l as [|[k' v'] l IH]; simpl; [reflexivity|].
  destruct (eqb k' k0) eqn:E; simpl.
  - apply eqb_eq in E. subst k'.
    destruct (eqb k0 k) eqn:E'; [|exact IH].
    apply eqb_eq in E'. contradiction.
  - destruct (eqb k' k); [reflexivity | exact IH].
Qed.

Lemma find_In (k : K) (v : V) (l : list (K * V)) :
  Assoc.find eqb k l = Some v -> In (k, v) l.
Proof using eqb_eq.
  induction l as [|[k' v'] l IH]; simpl; [discriminate|].
  destruct (eqb k' k) eqn:E.
  - apply eqb_eq in E. intros [= ->]. left. now subst.
  - intros H. right. now apply IH.
Qed.

End AssocFacts.

(** ** The weekly aggregator *)

Lemma same_refl (a : JsNum) : NumArith.same a a.
Proof. destruct a; simpl; [exact I|reflexivity]. Qed.

Lemma same_sym (a b : JsNum) : NumArith.same a b -> NumArith.same b a.
Proof. destruct a, b; simpl; auto. intros H. now symmetry. Qed.

Lemma same_trans (a b c : JsNum) :
  NumArith.same a b -> NumArith.same b c -> NumArith.same a c.
Proof.
  destruct a, b, c; simpl; auto; try contradiction.
  intros H1 H2. now rewrite H1.
Qed.

Lemma add_same (a a' b b' : JsNum) :
  NumArith.same a a' -> NumArith.same b b' ->
  NumArith.same (NumArith.add a b) (NumArith.add a' b').
Proof.
  destruct a, a', b, b'; simpl; auto; try contradiction.
  intros H1 H2. now rewrite H1, H2.
Qed.

Lemma sum_snoc (l : list JsNum) (x : JsNum) :
  NumArith.sum (l ++ [x]) = NumArith.add (NumArith.sum l) x.
Proof. unfold NumArith.sum. now rewrite fold_left_app. Qed.

Lemma total_snoc (l : list Q) (x : Q) : total (l ++ [x]) == total l + x.
Proof.
  induction l as [|y l IH]; simpl; [ring|]. rewrite IH. ring.
Qed.

Lemma keyEqb_eq (a b : Z * Z) : WeeklyReport.keyEqb a b = true <-> a = b.
Proof.
  destruct a as [a1 a2], b as [b1 b2]. unfold WeeklyReport.keyEqb. simpl.
  rewrite andb_true_iff, !Z.eqb_eq. split; [intros [-> ->]|intros [= -> ->]]; auto.
Qed.

Lemma keyEqb_neq (a b : Z * Z) : a <> b -> WeeklyReport.keyEqb a b = false.
Proof.
  intros H. apply not_true_iff_false. intros E. now apply keyEqb_eq in E.
Qed.

Lemma tripCosts_expenses (trip : Trip) :
  fold_left (fun sum cost => sum + costAmount cost) (entries (costs trip)) 0
  + or_zero
      (option_map
         (fun l => fold_left (fun sum cost => sum + additionalAmount cost) l 0)
         (additionalCosts trip))
  == tripExpenses trip.
Proof.
  unfold tripExpenses. rewrite additional_total, fold_left_total.
  unfold costAmounts. ring.
Qed.

Section AggregatorFacts.
Import Weekly WeeklyReport.
Variable zoneOffset : Z.

Lemma rowHolds_other (k : Z * Z) (w : WeeklyMetrics) (done : list Trip)
  (t : Trip) :
  k <> weekKey t ->
  rowHolds k w (List.filter (fun trip => keyEqb (weekKey trip) k) done) ->
  rowHolds k w
    (List.filter (fun trip => keyEqb (weekKey trip) k) (done ++ [t])).
Proof using Type.
  intros Hk H. rewrite filter_app. cbn [List.filter].
  rewrite keyEqb_neq by congruence. now rewrite app_nil_r.
Qed.

Lemma rowHolds_charged (w : WeeklyMetrics) (ts : list Trip) (t : Trip)
  (c : Q) (w' : WeeklyMetrics) :
  c == tripExpenses t ->
  weekNumber w' = weekNumber w ->
  tripCount w' = S (tripCount w) ->
  totalCosts w' = totalCosts w + c ->
  totalKilometers w' = totalKilometers w + or_zero (distanceKm t) ->
  totalRevenue w'
  = NumArith.add (totalRevenue w) (NumArith.ofOptional (baseRevenue t)) ->
  grossProfit w'
  = NumArith.add (grossProfit w)
      (NumArith.sub (NumArith.ofOptional (baseRevenue t)) (Num c)) ->
  rowHolds (weekKey t) w ts ->
  rowHolds (weekKey t) w' (ts ++ [t]).
Proof using Type.
  intros Hc Hn Hcount Hcosts Hkm Hrev Hgp (In1 & In2 & In3 & In4 & In5 & In6).
  unfold rowHolds.
  rewrite Hn, Hcount, Hcosts, Hkm, Hrev, Hgp, !map_app, length_app.
  cbn [map List.length].
  split; [exact In1|]. split; [lia|].
  split; [now rewrite total_snoc, In3, Hc|].
  split; [now rewrite total_snoc, In4|].
  split; [rewrite sum_snoc; apply add_same; [exact In5 | apply same_refl]|].
  clear - In6.
  destruct (grossProfit w) as [|g], (totalRevenue w) as [|r],
    (baseRevenue t) as [b|]; simpl in *; auto; try contradiction.
  rewrite In6. ring.
Qed.

Lemma addTrip_filled (done : list Trip) (wd : list ((Z * Z) * WeeklyMetrics))
  (t : Trip) :
  filled done wd ->
  exists wd', addTrip zoneOffset wd t = inr wd' /\ filled (done ++ [t]) wd'.
Proof using Type.
  intros (Hnd & Hkeys & Hrows).
  unfold addTrip. rewrite calculateTotalCosts_spec.
  change (JsDate.getFullYear (mondayOf (offloadDate t)),
          getWeekNumber (mondayOf (offloadDate t))) with (weekKey t).
  set (kt := weekKey t).
  pose proof (tripCosts_expenses t) as Hc.
  destruct (Assoc.find keyEqb kt wd) as [w0|] eqn:Hfind.
  - rewrite Hfind. cbn [bind Monad_either ret].
    destruct (@find_Some _ _ _ keyEqb_eq _ _ _ Hfind) as (l1 & l2 & -> & Hn1).
    rewrite (@set_present _ _ _ keyEqb_eq) by exact Hn1.
    match type of Hc with ?lhs == _ => set (c := lhs) in * end.
    eexists. split; [reflexivity|].
    rewrite map_app in Hnd. cbn [map fst] in Hnd.
    pose proof (NoDup_remove_2 _ _ _ Hnd) as Hn.
    assert (Hkt : In kt (map fst (l1 ++ (kt, w0) :: l2))).
    { rewrite map_app. apply in_or_app. right. now left. }
    split; [|split].
    + rewrite map_app. cbn [map fst]. exact Hnd.
    + intros k.
      replace (map fst (l1 ++ (kt, _) :: l2))
        with (map fst (l1 ++ (kt, w0) :: l2))
        by (now rewrite !map_app).
      rewrite Hkeys, map_app, in_app_iff. cbn [map In]. split; [tauto|].
      intros [H|[H|[]]]; [exact H|]. rewrite <- H.
      apply Hkeys. exact Hkt.
    + intros k w Hin. apply in_app_or in Hin.
      assert (Hold : forall k w, In (k, w) (l1 ++ l2) -> k <> kt).
      { intros k' w' Hin' ->. apply Hn. rewrite <- map_app.
        now apply (in_map fst) in Hin'. }
      destruct Hin as [Hin|[Hin|Hin]].
      * apply rowHolds_other.
        -- apply (Hold k w). apply in_or_app. now left.
        -- apply Hrows. apply in_or_app. now left.
      * pose proof (f_equal fst Hin) as Hk. pose proof (f_equal snd Hin) as Hw.
        cbn [fst snd] in Hk, Hw. subst k w. clear Hin.
        rewrite filter_app. cbn [List.filter].
        assert (E : keyEqb (weekKey t) kt = true)
          by (apply keyEqb_eq; reflexivity).
        rewrite E.
        eapply rowHolds_charged with (w := w0) (c := c);
          [exact Hc | reflexivity ..|].
        apply Hrows. apply in_or_app. right. now left.
      * apply rowHolds_other.
        -- apply (Hold k w). apply in_or_app. now right.
        -- apply Hrows. apply in_or_app. right. now right.
  - assert (Hn : ~ In kt (map fst wd)) by now apply (@find_None _ _ _ keyEqb_eq).
    match goal with
    | |- context [Assoc.set keyEqb kt ?w wd] => set (w0 := w)
    end.
    rewrite (@set_absent _ _ _ keyEqb_eq) by exact Hn.
    assert (Hn' : ~ In kt (map fst wd)) by exact Hn.
    rewrite (@find_middle _ _ _ keyEqb_eq) by exact Hn.
    cbn [bind Monad_either ret].
    rewrite (@set_present _ _ _ keyEqb_eq) by exact Hn.
    match type of Hc with ?lhs == _ => set (c := lhs) in * end.
    eexists. split; [reflexivity|].
    split; [|split].
    + rewrite map_app. cbn [map fst].
      apply NoDup_app; [exact Hnd | repeat constructor; auto | ].
      intros x Hx [<-|[]]. contradiction.
    + intros k. rewrite !map_app, !in_app_iff, <- Hkeys. cbn [map fst In].
      tauto.
    + intros k w Hin. apply in_app_or in Hin. destruct Hin as [Hin|[Hin|[]]].
      * apply rowHolds_other; [|now apply Hrows].
        intros ->. apply Hn. now apply (in_map fst) in Hin.
      * pose proof (f_equal fst Hin) as Hk. pose proof (f_equal snd Hin) as Hw.
        cbn [fst snd] in Hk, Hw. subst k w. clear Hin.
        rewrite filter_app. cbn [List.filter].
        assert (E : keyEqb (weekKey t) kt = true)
          by (apply keyEqb_eq; reflexivity).
        rewrite E.
        assert (Hempty : List.filter (fun trip => keyEqb (weekKey trip) kt) done
                         = []).
        { assert (Hd : forall d, In d done -> weekKey d <> kt).
          { intros d Hd Ed. apply Hn. apply Hkeys. rewrite <- Ed.
            now apply in_map. }
          clear - Hd.
          induction done as [|d done IH]; cbn [List.filter]; [reflexivity|].
          rewrite keyEqb_neq by (apply Hd; now left).
          apply IH. intros x Hx. apply Hd. now right. }
        rewrite Hempty.
        eapply rowHolds_charged with (w := w0) (ts := []) (c := c);
          [exact Hc | reflexivity ..|].
        unfold rowHolds, w0.
        cbn [weekNumber tripCount totalCosts totalKilometers totalRevenue
             grossProfit map List.length total NumArith.sum fold_left
             NumArith.same NumArith.sub].
        split; [unfold kt, weekKey, weekKeyOfDate; cbn [snd]; reflexivity|].
        split; [reflexivity|]. split; [reflexivity|].
        split; [reflexivity|]. split; [reflexivity|]. ring.
Qed.

(** The loop over any list of completed trips, from the empty object. *)
Lemma each_addTrip_filled (ts done : list Trip)
  (wd : list ((Z * Z) * WeeklyMetrics)) :
  filled done wd ->
  exists wd', each (addTrip zoneOffset) ts wd = inr wd'
              /\ filled (done ++ ts) wd'.
Proof using Type.
  revert done wd. induction ts as [|t ts IH]; intros done wd H; simpl.
  - exists wd. now rewrite app_nil_r.
  - destruct (addTrip_filled t H) as (wd1 & -> & H1).
    destruct (IH _ _ H1) as (wd' & Hwd' & H').
    exists wd'. split; [exact Hwd'|].
    now rewrite <- app_assoc in H'.
Qed.

Lemma weeklyData_filled (trips : list Trip) :
  exists wd,
    weeklyData zoneOffset trips = inr wd
    /\ NoDup (map fst wd)
    /\ (forall k, In k (map fst wd) <-> In k (weekKeys trips))
    /\ (forall k w, In (k, w) wd -> rowHolds k w (tripsOfWeek k trips)).
Proof using Type.
  unfold weeklyData.
  destruct (@each_addTrip_filled (List.filter isCompletedTrip trips) [] [])
    as (wd & Hwd & H1 & H2 & H3).
  { split; [constructor|]. split; [intros k; simpl; tauto|intros k w []]. }
  exists wd. split; [exact Hwd|]. split; [exact H1|].
  split; [exact H2 | exact H3].
Qed.

End AggregatorFacts.

Lemma list_sum_perm (l l' : list nat) :
  Permutation l l' -> list_sum l = list_sum l'.
Proof.
  induction 1 as [|x l l' _ IH|x y l|l l' l'' _ IH1 _ IH2]; simpl; lia.
Qed.

Lemma list_sum_cons (a : nat) (l : list nat) :
  list_sum (a :: l) = (a + list_sum l)%nat.
Proof. reflexivity. Qed.

(** Over distinct keys that cover the list, the sizes of the classes add up
    to the size of the list. *)
Lemma classes_cover (A : Type) (key : A -> Z * Z) (ks : list (Z * Z))
  (l : list A) :
  NoDup ks ->
  (forall x, In x l -> In (key x) ks) ->
  list_sum
    (map (fun k =>
            List.length
              (List.filter (fun x => WeeklyReport.keyEqb (key x) k) l))
       ks)
  = List.length l.
Proof.
  intros Hnd. induction l as [|x l IH]; intros Hcov.
  - clear. induction ks as [|k ks IH]; [reflexivity | exact IH].
  - assert (Hone : forall ks', NoDup ks' ->
              list_sum (map (fun k => if WeeklyReport.keyEqb (key x) k
                                      then 1%nat else 0%nat) ks')
              = if in_dec (fun a b : Z * Z =>
                             ltac:(decide equality; apply Z.eq_dec))
                     (key x) ks'
                then 1%nat else 0%nat).
    { intros ks' Hnd'. induction Hnd' as [|k ks' Hk Hnd' IHk];
        [reflexivity|].
      rewrite map_cons, list_sum_cons, IHk.
      destruct (in_dec _ (key x) (k :: ks')) as [Hin|Hin],
               (in_dec _ (key x) ks') as [Hin'|Hin'].
      - rewrite keyEqb_neq; [reflexivity|]. intros E. now rewrite E in Hin'.
      - destruct Hin as [E|Hin]; [|contradiction].
        assert (E' : WeeklyReport.keyEqb (key x) k = true)
          by now apply keyEqb_eq.
        now rewrite E'.
      - elim Hin. now right.
      - rewrite keyEqb_neq; [reflexivity|]. intros E. apply Hin. now left. }
    assert (Hsplit : forall ks',
      list_sum
        (map (fun k =>
                List.length
                  (List.filter (fun y => WeeklyReport.keyEqb (key y) k)
                     (x :: l))) ks')
      = (list_sum (map (fun k => if WeeklyReport.keyEqb (key x) k
                                 then 1%nat else 0%nat) ks')
         + list_sum
             (map (fun k =>
                     List.length
                       (List.filter (fun y => WeeklyReport.keyEqb (key y) k) l))
                ks'))%nat).
    { induction ks' as [|k ks' IHk]; [reflexivity|].
      rewrite !map_cons, !list_sum_cons, IHk. cbn [List.filter].
      destruct (WeeklyReport.keyEqb (key x) k); cbn [List.length]; lia. }
    rewrite Hsplit, (Hone ks Hnd), IH by (intros y Hy; apply Hcov; now right).
    destruct (in_dec _ (key x) ks) as [Hin|Hin]; [reflexivity|].
    elim Hin. apply Hcov. now left.
Qed.

Lemma sum_with_NaN (l : list JsNum) :
  In NaN l -> NumArith.sum l = NaN.
Proof.
  unfold NumArith.sum. generalize (Num 0).
  induction l as [|x l IH]; intros a; [intros []|].
  intros [->|Hin]; cbn [fold_left].
  - assert (E : NumArith.add a NaN = NaN) by now destruct a.
    rewrite E. clear. induction l as [|y l IH]; [reflexivity|exact IH].
  - now apply IH.
Qed.

Section WeeklyRows.
Import Weekly WeeklyReport.
Variable zoneOffset : Z.

Lemma rowHolds_finish (k : Z * Z) (w : WeeklyMetrics) (ts : list Trip) :
  rowHolds k w ts -> rowHolds k (finish w) ts.
Proof using Type. intros H. exact H. Qed.

Lemma weeklyMetrics_rows (trips : list Trip) :
  exists wd rows,
    weeklyData zoneOffset trips = inr wd
    /\ weeklyMetrics zoneOffset trips = inr rows
    /\ Permutation (map finish (map snd wd)) rows
    /\ StronglySorted (fun a b => (weekStart b <= weekStart a)%Z) rows
    /\ NoDup (map fst wd)
    /\ (forall k, In k (map fst wd) <-> In k (weekKeys trips))
    /\ (forall k w, In (k, w) wd -> rowHolds k w (tripsOfWeek k trips)).
Proof using Type.
  destruct (weeklyData_filled zoneOffset trips) as (wd & Hwd & H1 & H2 & H3).
  exists wd. eexists. split; [exact Hwd|].
  unfold weeklyMetrics. rewrite Hwd. cbn [bind Monad_either ret].
  split; [reflexivity|]. split; [apply sort_perm|].
  split; [|auto].
  apply sort_sorted.
  - intros a b. unfold byWeekStartDescending, dateStringTime, JsDate.msPerDay. lia.
  - intros a b. unfold byWeekStartDescending, dateStringTime, JsDate.msPerDay. lia.
  - intros a b c. lia.
Qed.

End WeeklyRows.

(** X8.  The weekly report has one row for every distinct week key of the
    completed trips and no other row; the row of a key counts exactly the
    completed trips filed under it (at least one), so the counts add up to
    the number of completed trips; and the rows come in descending order of
    week start. *)
Theorem weekly_rows_shape :
  forall (zoneOffset : Z) (trips : list Trip),
    exists (weeklyData : list ((Z * Z) * WeeklyReport.WeeklyMetrics))
           (rows : list WeeklyReport.WeeklyMetrics),
      WeeklyReport.weeklyData zoneOffset trips = inr weeklyData
      /\ WeeklyReport.weeklyMetrics zoneOffset trips = inr rows
      /\ Permutation
           (map (WeeklyReport.finish) (map snd weeklyData)) rows
      /\ NoDup (map fst weeklyData)
      /\ (forall k, In k (map fst weeklyData) <-> In k (Weekly.weekKeys trips))
      /\ (forall k w,
             In (k, w) weeklyData ->
             WeeklyReport.weekNumber w = snd k
             /\ WeeklyReport.tripCount w = List.length (tripsOfWeek k trips)
             /\ (1 <= WeeklyReport.tripCount w)%nat)
      /\ list_sum (map WeeklyReport.tripCount rows)
         = List.length (List.filter Weekly.isCompletedTrip trips)
      /\ StronglySorted
           (fun a b => (WeeklyReport.weekStart b <= WeeklyReport.weekStart a)%Z)
           rows.
Proof.
  intros zo trips.
  destruct (weeklyMetrics_rows zo trips)
    as (wd & rows & Hwd & Hrows & Hperm & Hsorted & Hnd & Hkeys & Hhold).
  exists wd, rows.
  split; [exact Hwd|]. split; [exact Hrows|]. split; [exact Hperm|].
  split; [exact Hnd|]. split; [exact Hkeys|].
  assert (Hcount : forall k w, In (k, w) wd ->
            WeeklyReport.tripCount w = List.length (tripsOfWeek k trips)).
  { intros k w Hin. now destruct (Hhold k w Hin) as (_ & H & _). }
  split; [|split; [|exact Hsorted]].
  - intros k w Hin. destruct (Hhold k w Hin) as (Hn & Hc & _).
    split; [exact Hn|]. split; [exact Hc|]. rewrite Hc.
    assert (Hk : In k (Weekly.weekKeys trips)).
    { apply Hkeys. now apply (in_map fst) in Hin. }
    unfold Weekly.weekKeys in Hk. apply in_map_iff in Hk.
    destruct Hk as (t & Ht & Hin').
    assert (Hin'' : In t (tripsOfWeek k trips)).
    { unfold tripsOfWeek. apply filter_In. split; [exact Hin'|].
      now apply keyEqb_eq. }
    destruct (tripsOfWeek k trips); [destruct Hin''|cbn [List.length]; lia].
  - rewrite <- (list_sum_perm (Permutation_map _ Hperm)).
    rewrite !map_map. cbn [WeeklyReport.finish WeeklyReport.tripCount].
    assert (E : map (fun x => WeeklyReport.tripCount (snd x)) wd
                = map (fun k => List.length (tripsOfWeek k trips))
                    (map fst wd)).
    { rewrite map_map. apply map_ext_in. intros [k w] Hin. cbn [fst snd].
      now apply Hcount. }
    rewrite E. unfold tripsOfWeek.
    apply classes_cover; [exact Hnd|].
    intros t Ht. apply Hkeys. unfold Weekly.weekKeys. now apply in_map.
Qed.

(** X9.  Every row of the weekly report carries the totals of the completed
    trips of its week: its costs are the sum of what [calculateKPIs] calls
    their expenses, its kilometres the sum of their distances (absent ones
    counting 0), its revenue the sum of their base revenues, and its gross
    profit is its revenue minus its costs.  Cost per kilometre is costs over
    kilometres when the kilometres are positive, else 0. *)
Theorem weekly_rows_totals :
  forall (zoneOffset : Z) (trips : list Trip),
    exists rows : list WeeklyReport.WeeklyMetrics,
      WeeklyReport.weeklyMetrics zoneOffset trips = inr rows
      /\ forall row,
           In row rows ->
           (exists key,
               In key (Weekly.weekKeys trips)
               /\ rowHolds key row (tripsOfWeek key trips))
           /\ (0 < WeeklyReport.totalKilometers row ->
               WeeklyReport.cpk row
               == WeeklyReport.totalCosts row
                  / WeeklyReport.totalKilometers row)
           /\ (WeeklyReport.totalKilometers row <= 0 ->
               WeeklyReport.cpk row == 0
               /\ WeeklyReport.ipk row = Num 0).
Proof.
  intros zo trips.
  destruct (weeklyMetrics_rows zo trips)
    as (wd & rows & Hwd & Hrows & Hperm & Hsorted & Hnd & Hkeys & Hhold).
  exists rows. split; [exact Hrows|].
  intros row Hin.
  apply (Permutation_in _ (Permutation_sym Hperm)) in Hin.
  rewrite map_map in Hin. apply in_map_iff in Hin.
  destruct Hin as ([k w] & <- & Hin). cbn [snd].
  split; [|split].
  - exists k. split.
    + apply Hkeys. now apply (in_map fst) in Hin.
    + apply rowHolds_finish. now apply Hhold.
  - intros Hpos. cbn [WeeklyReport.finish WeeklyReport.cpk
                      WeeklyReport.totalKilometers WeeklyReport.totalCosts] in *.
    assert (G : Js.gt (WeeklyReport.totalKilometers w) 0 = true)
      by now apply gt_true.
    now rewrite G.
  - intros Hle. cbn [WeeklyReport.finish WeeklyReport.cpk WeeklyReport.ipk
                     WeeklyReport.totalKilometers] in *.
    assert (G : Js.gt (WeeklyReport.totalKilometers w) 0 = false)
      by now apply gt_false.
    rewrite G. split; reflexivity.
Qed.

(** X10.  A completed trip stored without a base revenue makes the revenue
    and the gross profit of its week's row not-a-number and the row's profit
    margin 0, although [calculateKPIs] reads the same trip as having
    revenue 0. *)
Theorem weekly_row_without_revenue :
  forall (zoneOffset : Z) (trips : list Trip) (trip : Trip),
    In trip trips ->
    Weekly.isCompletedTrip trip = true ->
    baseRevenue trip = None ->
    exists (rows : list WeeklyReport.WeeklyMetrics)
           (row : WeeklyReport.WeeklyMetrics) (k : KPIs),
      WeeklyReport.weeklyMetrics zoneOffset trips = inr rows
      /\ In row rows
      /\ WeeklyReport.weekNumber row = snd (Weekly.weekKey trip)
      /\ WeeklyReport.totalRevenue row = NaN
      /\ WeeklyReport.grossProfit row = NaN
      /\ WeeklyReport.profitMargin row = Num 0
      /\ calculateKPIs trip = inr k
      /\ totalRevenue k == 0.
Proof.
  intros zo trips t Hin Hdone Hrev.
  destruct (weeklyMetrics_rows zo trips)
    as (wd & rows & Hwd & Hrows & Hperm & _ & _ & Hkeys & Hhold).
  assert (Hk : In (Weekly.weekKey t) (map fst wd)).
  { apply Hkeys. unfold Weekly.weekKeys. apply in_map. apply filter_In. auto. }
  apply in_map_iff in Hk. destruct Hk as ([k w] & Hkw & Hw). cbn [fst] in Hkw.
  subst k.
  destruct (Hhold _ _ Hw) as (Hn & _ & _ & _ & Hsum & Hgp).
  assert (Hnan : WeeklyReport.totalRevenue w = NaN).
  { rewrite sum_with_NaN in Hsum.
    - destruct (WeeklyReport.totalRevenue w); [reflexivity|contradiction].
    - apply in_map_iff. exists t. rewrite Hrev. split; [reflexivity|].
      unfold tripsOfWeek. apply filter_In. split.
      + apply filter_In. auto.
      + now apply keyEqb_eq. }
  assert (Hgnan : WeeklyReport.grossProfit w = NaN).
  { rewrite Hnan in Hgp. cbn [NumArith.sub] in Hgp.
    destruct (WeeklyReport.grossProfit w); [reflexivity|contradiction]. }
  destruct (calculateKPIs_figures t) as (kp & Hkp & Hr & _).
  exists rows, (WeeklyReport.finish w), kp.
  split; [exact Hrows|]. split.
  - apply (Permutation_in _ Hperm). rewrite map_map.
    apply in_map_iff. exists (Weekly.weekKey t, w). auto.
  - cbn [WeeklyReport.finish WeeklyReport.weekNumber WeeklyReport.totalRevenue
         WeeklyReport.grossProfit WeeklyReport.profitMargin].
    rewrite Hnan. cbn [Num.gt].
    split; [exact Hn|]. split; [reflexivity|]. split; [exact Hgnan|].
    split; [reflexivity|]. split; [exact Hkp|].
    rewrite Hr. unfold revenue. now rewrite Hrev.
Qed.

(** The sample trip without a base revenue, alone in the list. *)
Lemma weekly_row_without_revenue_witness :
  In MoreSamples.unpricedCompleted [MoreSamples.unpricedCompleted]
  /\ Weekly.isCompletedTrip MoreSamples.unpricedCompleted = true
  /\ baseRevenue MoreSamples.unpricedCompleted = None
  /\ exists rows row k,
       WeeklyReport.weeklyMetrics 7200000 [MoreSamples.unpricedCompleted]
       = inr rows
       /\ In row rows
       /\ WeeklyReport.weekNumber row
          = snd (Weekly.weekKey MoreSamples.unpricedCompleted)
       /\ WeeklyReport.totalRevenue row = NaN
       /\ WeeklyReport.grossProfit row = NaN
       /\ WeeklyReport.profitMargin row = Num 0
       /\ calculateKPIs MoreSamples.unpricedCompleted = inr k
       /\ totalRevenue k == 0.
Proof.
  split; [now left|]. split; [reflexivity|]. split; [reflexivity|].
  exact (weekly_row_without_revenue 7200000
           [MoreSamples.unpricedCompleted] MoreSamples.unpricedCompleted
           (or_introl eq_refl) eq_refl eq_refl).
Defined.

(** ** Year-to-date figures *)



Section EditorFacts.
Import YearToDate.

Lemma notPositive_false (x : option JsNum) :
  notPositive x = false -> positive x.
Proof using Type.
  destruct x as [[|q]|]; simpl; try discriminate.
  intros H. apply orb_false_iff in H. destruct H as [_ H].
  apply Qnot_le_lt. intros Hle. apply Qle_bool_iff in Hle. congruence.
Qed.

Lemma notPositive_true (x : option JsNum) :
  notPositive x = true -> ~ positive x.
Proof using Type.
  destruct x as [[|q]|]; simpl; auto.
  intros H Hpos. apply orb_true_iff in H. destruct H as [H|H].
  - apply Qeq_bool_iff in H. rewrite H in Hpos. now apply Qlt_irrefl in Hpos.
  - apply Qle_bool_iff in H. now apply Qlt_not_le in Hpos.
Qed.

Lemma validateForm_true (form : YTDMetrics) :
  validateForm form = true <->
  forall f, validated f = true -> positive (metric form f).
Proof using Type.
  unfold validateForm, allFields. cbn [forallb newErrors].
  split.
  - intros H f Hf.
    destruct (notPositive (metric form totalKms)) eqn:E1; [discriminate|].
    destruct (notPositive (metric form ipk)) eqn:E2; [discriminate|].
    destruct (notPositive (metric form operationalCpk)) eqn:E3; [discriminate|].
    destruct (notPositive (metric form revenue)) eqn:E4; [discriminate|].
    destruct f; try discriminate; now apply notPositive_false.
  - intros H.
    destruct (notPositive (metric form totalKms)) eqn:E1;
      [now elim (notPositive_true _ E1 (H totalKms eq_refl))|].
    destruct (notPositive (metric form ipk)) eqn:E2;
      [now elim (notPositive_true _ E2 (H ipk eq_refl))|].
    destruct (notPositive (metric form operationalCpk)) eqn:E3;
      [now elim (notPositive_true _ E3 (H operationalCpk eq_refl))|].
    destruct (notPositive (metric form revenue)) eqn:E4;
      [now elim (notPositive_true _ E4 (H revenue eq_refl))|].
    reflexivity.
Qed.

Lemma step_sound (s : State) (e : Event) : sound s -> sound (step s e).
Proof using Type.
  intros Hs. destruct e as [y|field text|now|]; cbn [step]; try exact Hs.
  unfold handleSave.
  destruct (editingYear s) as [editing|]; [|exact Hs].
  destruct (validateForm (formData s)) eqn:Hv; cbn [negb]; [|exact Hs].
  intros y. cbn [ytdData].
  destruct (Year_eqb y editing) eqn:Ey; [|apply Hs].
  cbn [year metric]. split.
  - destruct y, editing; try discriminate; reflexivity.
  - now apply validateForm_true.
Qed.

Lemma initialState_sound : sound initialState.
Proof using Type.
  intros y. destruct y; (split; [reflexivity|]);
    intros f Hf; destruct f; try discriminate; reflexivity.
Qed.

Lemma run_sound (events : list Event) : sound (run events).
Proof using Type.
  unfold run. generalize initialState initialState_sound.
  induction events as [|e events IH]; intros s Hs; [exact Hs|].
  cbn [fold_left]. apply IH. now apply step_sound.
Qed.

End EditorFacts.



(** X13.  What a save stores.  From any state the editor can reach, after
    opening a year, typing one figure and saving: a figure the validation
    does not cover is stored as parsed, also when the text is empty or not
    a number; a validated figure is stored when it parses to a positive
    number, and otherwise nothing is stored, the editor stays open and the
    field gets its message.  The other year is never touched. *)
Theorem ytd_save_stores_what_was_typed :
  forall (events : list YearToDate.Event) (y : YearToDate.Year)
         (f : YearToDate.Field) (text : FieldText) (now : string),
    let before := YearToDate.run events in
    let after :=
      YearToDate.run
        (events ++ [YearToDate.Edit y; YearToDate.Change f text;
                    YearToDate.Save now]) in
    (YearToDate.validated f = false ->
     YearToDate.metric (YearToDate.ytdData after y) f = Some (Num.parse text)
     /\ YearToDate.editingYear after = None)
    /\ (YearToDate.validated f = true ->
        YearToDate.positive (Some (Num.parse text)) ->
        YearToDate.metric (YearToDate.ytdData after y) f
        = Some (Num.parse text)
        /\ YearToDate.lastUpdated (YearToDate.ytdData after y) = Some now)
    /\ (YearToDate.validated f = true ->
        ~ YearToDate.positive (Some (Num.parse text)) ->
        YearToDate.ytdData after = YearToDate.ytdData before
        /\ YearToDate.editingYear after = Some y
        /\ YearToDate.showEditModal after = true
        /\ YearToDate.hasError (YearToDate.errors after f) = true)
    /\ (forall other, other <> y ->
        YearToDate.ytdData after other = YearToDate.ytdData before other)
    /\ (forall g, g <> f ->
        YearToDate.metric (YearToDate.ytdData after y) g
        = YearToDate.metric (YearToDate.ytdData before y) g).
Proof.
  intros events y f text now before after.
  assert (Hafter : after
                   = YearToDate.handleSave
                       (YearToDate.handleChange
                          (YearToDate.handleEdit before y) f text) now).
  { unfold after, before, YearToDate.run. now rewrite fold_left_app. }
  pose proof (run_sound events y) as [_ Hpos]. fold before in Hpos.
  set (form := YearToDate.formData
                 (YearToDate.handleChange
                    (YearToDate.handleEdit before y) f text)).
  assert (Hform : forall g,
            YearToDate.metric form g
            = if YearToDate.Field_eqb g f then Some (Num.parse text)
              else YearToDate.metric (YearToDate.ytdData before y) g)
    by reflexivity.
  assert (Hsame : YearToDate.Field_eqb f f = true) by now destruct f.
  assert (Hdiff : forall g, g <> f -> YearToDate.Field_eqb g f = false).
  { intros g Hg. destruct g, f; try reflexivity; now elim Hg. }
  assert (Hyy : YearToDate.Year_eqb y y = true) by now destruct y.
  assert (Hsave :
    after
    = if YearToDate.validateForm form then
        {| YearToDate.showEditModal := false;
           YearToDate.editingYear := None;
           YearToDate.formData := YearToDate.emptyMetrics;
           YearToDate.errors := fun _ => None;
           YearToDate.ytdData := fun y' =>
             if YearToDate.Year_eqb y' y then
               {| YearToDate.year := Some y;
                  YearToDate.metric := YearToDate.metric form;
                  YearToDate.lastUpdated := Some now;
                  YearToDate.updatedBy := Some "Current User"%string |}
             else YearToDate.ytdData before y' |}
      else
        {| YearToDate.showEditModal := true;
           YearToDate.editingYear := Some y;
           YearToDate.formData := form;
           YearToDate.errors := YearToDate.newErrors form;
           YearToDate.ytdData := YearToDate.ytdData before |}).
  { rewrite Hafter. unfold YearToDate.handleSave.
    cbn [YearToDate.handleChange YearToDate.handleEdit YearToDate.editingYear].
    fold form. now destruct (YearToDate.validateForm form). }
  assert (Hvalid : YearToDate.validateForm form = true
                   <-> (YearToDate.validated f = true ->
                        YearToDate.positive (Some (Num.parse text)))).
  { rewrite validateForm_true. split.
    - intros H Hf. specialize (H f Hf). now rewrite Hform, Hsame in H.
    - intros H g Hg. rewrite Hform.
      destruct (YearToDate.Field_eqb g f) eqn:E; [|now apply Hpos].
      assert (g = f) by (destruct g, f; try discriminate; reflexivity).
      subst g. now apply H. }
  split; [|split; [|split; [|split]]].
  - intros Hf.
    assert (Hv : YearToDate.validateForm form = true)
      by (apply Hvalid; congruence).
    rewrite Hsave, Hv. cbn [YearToDate.ytdData YearToDate.editingYear].
    rewrite Hyy. cbn [YearToDate.metric]. now rewrite Hform, Hsame.
  - intros Hf Hp.
    assert (Hv : YearToDate.validateForm form = true) by now apply Hvalid.
    rewrite Hsave, Hv. cbn [YearToDate.ytdData].
    rewrite Hyy. cbn [YearToDate.metric YearToDate.lastUpdated].
    now rewrite Hform, Hsame.
  - intros Hf Hp.
    assert (Hv : YearToDate.validateForm form = false).
    { apply not_true_iff_false. intros Hv. apply Hp. now apply Hvalid. }
    rewrite Hsave, Hv.
    cbn [YearToDate.ytdData YearToDate.editingYear YearToDate.showEditModal
         YearToDate.errors].
    repeat split.
    assert (Hnp : YearToDate.notPositive (YearToDate.metric form f) = true).
    { rewrite Hform, Hsame.
      destruct (YearToDate.notPositive (Some (Num.parse text))) eqn:E;
        [reflexivity|].
      elim Hp. now apply notPositive_false. }
    destruct f; try discriminate; cbn [YearToDate.newErrors];
      rewrite Hnp; reflexivity.
  - intros other Ho. rewrite Hsave.
    destruct (YearToDate.validateForm form); cbn [YearToDate.ytdData];
      [|reflexivity].
    assert (E : YearToDate.Year_eqb other y = false)
      by (destruct other, y; try reflexivity; now elim Ho).
    now rewrite E.
  - intros g Hg. rewrite Hsave.
    destruct (YearToDate.validateForm form); cbn [YearToDate.ytdData];
      [|reflexivity].
    rewrite Hyy. cbn [YearToDate.metric]. now rewrite Hform, (Hdiff g Hg).
Qed.

(** ** The trip form *)

Lemma set_not_nil (k v : string) (l : list (string * string)) :
  Assoc.set String.eqb k v l <> [].
Proof.
  destruct l as [|[k' v'] l]; simpl; [discriminate|].
  destruct (String.eqb k' k); discriminate.
Qed.

Lemma flag_nil (test : bool) (k v : string) (l : list (string * string)) :
  FormErrors.flag test k v l = [] <-> test = false /\ l = [].
Proof.
  unfold FormErrors.flag. destruct test.
  - split; [intros H; now apply set_not_nil in H | intros [H _]; discriminate].
  - split; [auto | intros [_ H]; exact H].
Qed.

Lemma blank_false (s : string) : JsMore.blank s = false <-> s <> EmptyString.
Proof. destruct s; simpl; split; congruence. Qed.

Lemma validate_true (formData : TripForm.FormData) :
  TripForm.validate formData = true <->
  JsMore.blank (TripForm.fleetNumber formData) = false
  /\ JsMore.blank (TripForm.driverName formData) = false
  /\ JsMore.blank (TripForm.clientName formData) = false
  /\ TripForm.clientType formData <> None
  /\ JsMore.blank (TripForm.route formData) = false
  /\ Num.blank (TripForm.baseRevenue formData)
     || Num.isNaN (JsText.number (TripForm.baseRevenue formData)) = false
  /\ JsText.le (JsText.number (TripForm.baseRevenue formData)) 0 = false
  /\ JsMore.blank (TripForm.startDate formData) = false
  /\ JsMore.blank (TripForm.endDate formData) = false
  /\ JsText.after (TripForm.startDate formData) (TripForm.endDate formData)
     = false
  /\ negb (Num.blank (TripForm.distanceKm formData))
     && Num.isNaN (JsText.number (TripForm.distanceKm formData)) = false
  /\ negb (Num.blank (TripForm.distanceKm formData))
     && Num.lt (JsText.number (TripForm.distanceKm formData)) 0 = false.
Proof.
  unfold TripForm.validate, FormErrors.none.
  rewrite Nat.eqb_eq, length_zero_iff_nil.
  unfold TripForm.newErrors. cbv zeta.
  rewrite !flag_nil.
  destruct (TripForm.clientType formData) as [c|];
    destruct (JsMore.blank (TripForm.startDate formData)),
             (JsMore.blank (TripForm.endDate formData));
    cbn [negb andb]; intuition (try discriminate; try congruence).
Qed.

(** X14.  Whatever the trip form submits has a fleet, driver, client, client type and route, a
    start date that is not after the end date, a revenue that is a positive
    number, a distance that is absent or a number not below 0, and no
    additional costs.  For a trip carrying the submitted revenue
    [calculateKPIs] therefore computes the margin by division. *)
Theorem tripForm_submits_only_valid_trips :
  forall (formData : TripForm.FormData) (data : TripForm.TripData),
    TripForm.handleSubmit formData = Some data ->
    TripForm.dataFleetNumber data <> EmptyString
    /\ TripForm.dataDriverName data <> EmptyString
    /\ TripForm.dataClientName data <> EmptyString
    /\ TripForm.dataClientType data <> None
    /\ TripForm.dataRoute data <> EmptyString
    /\ TripForm.dataStartDate data <> EmptyString
    /\ TripForm.dataEndDate data <> EmptyString
    /\ String.leb (TripForm.dataStartDate data) (TripForm.dataEndDate data)
       = true
    /\ (exists revenue : Q,
           TripForm.dataBaseRevenue data = Num revenue
           /\ 0 < revenue
           /\ forall trip : Trip,
                baseRevenue trip = Some revenue ->
                exists k, calculateKPIs trip = inr k
                          /\ profitMargin k == netProfit k / revenue * 100)
    /\ (TripForm.dataDistanceKm data = None
        \/ exists d : Q,
             TripForm.dataDistanceKm data = Some (Num d) /\ 0 <= d)
    /\ TripForm.dataAdditionalCosts data = [].
Proof.
  intros formData data. unfold TripForm.handleSubmit.
  destruct (TripForm.validate formData) eqn:Hv; [|discriminate].
  intros [= <-]. apply validate_true in Hv.
  destruct Hv as (H1 & H2 & H3 & H4 & H5 & H6 & H7 & H8 & H9 & H10 & H11 & H12).
  cbn [TripForm.dataFleetNumber TripForm.dataDriverName TripForm.dataClientName
       TripForm.dataClientType TripForm.dataRoute TripForm.dataStartDate
       TripForm.dataEndDate TripForm.dataBaseRevenue TripForm.dataDistanceKm
       TripForm.dataAdditionalCosts].
  rewrite !blank_false in *.
  repeat (split; [assumption|]).
  split; [|split; [|split; [|reflexivity]]].
  - unfold JsText.after in H10. unfold String.leb.
    destruct (String.compare (TripForm.startDate formData)
                (TripForm.endDate formData)); [reflexivity..|discriminate].
  - apply orb_false_iff in H6. destruct H6 as [_ H6].
    destruct (JsText.number (TripForm.baseRevenue formData)) as [|r];
      [discriminate|].
    cbn [JsText.le] in H7.
    assert (Hpos : 0 < r).
    { apply Qnot_le_lt. intros Hle. apply Qle_bool_iff in Hle. congruence. }
    exists r. split; [reflexivity|]. split; [exact Hpos|].
    intros trip Ht.
    destruct (calculateKPIs_figures trip) as (k & Hk & Hr & _ & _ & Hm & _).
    exists k. split; [exact Hk|].
    assert (Hrev : totalRevenue k == r).
    { rewrite Hr. unfold revenue. now rewrite Ht. }
    rewrite Hm.
    assert (G : Js.gt (totalRevenue k) 0 = true)
      by (apply gt_true; now rewrite Hrev).
    rewrite G. now rewrite Hrev.
  - destruct (Num.blank (TripForm.distanceKm formData)); [now left|].
    cbn [negb andb] in H11, H12. right.
    destruct (JsText.number (TripForm.distanceKm formData)) as [|d];
      [discriminate|].
    exists d. split; [reflexivity|]. now apply gt_false.
Qed.

(** The sample form is submitted. *)
Lemma tripForm_submits_only_valid_trips_witness :
  exists data,
    TripForm.handleSubmit FormSamples.tripForm = Some data
    /\ TripForm.dataFleetNumber data <> EmptyString
    /\ TripForm.dataAdditionalCosts data = [].
Proof.
  eexists. split; [reflexivity|].
  pose proof (tripForm_submits_only_valid_trips FormSamples.tripForm eq_refl)
    as H.
  split; [exact (proj1 H)|].
  exact (proj2 (proj2 (proj2 (proj2 (proj2 (proj2 (proj2 (proj2 (proj2
           (proj2 H)))))))))).
Defined.

(** ** The manual diesel entry *)

Lemma le_zero_false (n : JsNum) :
  Num.isNaN n || JsText.le n 0 = false <-> exists q, n = Num q /\ 0 < q.
Proof.
  destruct n as [|q]; cbn [Num.isNaN JsText.le orb].
  - split; [discriminate | intros (q & H & _); discriminate].
  - split.
    + intros H. exists q. split; [reflexivity|].
      apply Qnot_le_lt. intros Hle. apply Qle_bool_iff in Hle. congruence.
    + intros (q' & [= <-] & Hpos).
      destruct (Qle_bool q 0) eqn:E; [|reflexivity].
      apply Qle_bool_iff in E. now apply Qle_not_lt in E.
Qed.

Lemma lt_zero_false (n : JsNum) :
  Num.isNaN n || Num.lt n 0 = false <-> exists q, n = Num q /\ 0 <= q.
Proof.
  destruct n as [|q]; cbn [Num.isNaN Num.lt orb].
  - split; [discriminate | intros (q & H & _); discriminate].
  - split.
    + intros H. exists q. split; [reflexivity|]. now apply gt_false.
    + intros (q' & [= <-] & Hpos).
      destruct (Js.gt 0 q) eqn:E; [|reflexivity].
      apply gt_true in E. now apply Qlt_not_le in E.
Qed.

Lemma text_number (f : FieldText) (n : JsNum) :
  Num.blank f = false -> JsText.number f = n -> f = Text n.
Proof. destruct f; simpl; [discriminate | congruence]. Qed.

Lemma truthyNum_true (q : Q) :
  ManualDieselEntry.truthyNum (Num q) = true <-> ~ q == 0.
Proof.
  cbn [ManualDieselEntry.truthyNum]. rewrite negb_true_iff.
  split.
  - intros H E. apply Qeq_bool_iff in E. congruence.
  - intros H. destruct (Qeq_bool q 0) eqn:E; [|reflexivity].
    apply Qeq_bool_iff in E. contradiction.
Qed.

Lemma truthyNum_false (q : Q) :
  ManualDieselEntry.truthyNum (Num q) = false <-> q == 0.
Proof.
  cbn [ManualDieselEntry.truthyNum]. rewrite negb_false_iff.
  apply Qeq_bool_iff.
Qed.

Section ManualEntryFacts.

Variable hasProbe : bool.
Variable trim : string -> string.

(** What a form that passes [validateForm] holds. *)
Lemma manual_validateForm_true (f : ManualDieselEntry.FormData) :
  ManualDieselEntry.validateForm hasProbe f = true ->
  ManualDieselEntry.fleetNumber f <> EmptyString
  /\ ManualDieselEntry.date f <> EmptyString
  /\ ManualDieselEntry.fuelStation f <> EmptyString
  /\ ManualDieselEntry.driverName f <> EmptyString
  /\ exists km l c : Q,
       ManualDieselEntry.kmReading f = Text (Num km) /\ 0 < km
       /\ ManualDieselEntry.litresFilled f = Text (Num l) /\ 0 < l
       /\ ManualDieselEntry.totalCost f = Text (Num c) /\ 0 < c
       /\ (ManualDieselEntry.previousKmReading f = Empty
           \/ exists p : Q,
                ManualDieselEntry.previousKmReading f = Text (Num p)
                /\ 0 <= p /\ p < km)
       /\ (hasProbe = true ->
           exists p : Q,
             ManualDieselEntry.probeReading f = Text (Num p) /\ 0 <= p).
Proof.
  unfold ManualDieselEntry.validateForm, FormErrors.none.
  rewrite Nat.eqb_eq, length_zero_iff_nil.
  unfold ManualDieselEntry.newErrors. cbv zeta.
  intros H.
  assert (Hp : hasProbe = true ->
               exists p : Q,
                 ManualDieselEntry.probeReading f = Text (Num p) /\ 0 <= p).
  { intros ->.
    destruct (Num.blank (ManualDieselEntry.probeReading f)) eqn:Eb.
    - apply flag_nil in H. destruct H as [H _]. discriminate.
    - apply flag_nil in H. destruct H as [H _].
      apply lt_zero_false in H. destruct H as (p & Hn & Hpos).
      exists p. split; [now apply text_number | exact Hpos]. }
  assert (H' := H). clear H.
  destruct hasProbe;
    [destruct (Num.blank (ManualDieselEntry.probeReading f))|];
    rewrite !flag_nil in H';
    destruct H' as (_ & Hkp & Hc & Hl & Hprev & Hk & H7 & H6 & H5 & H4 & H3
                    & H2 & H1 & _) || destruct H' as (Hkp & Hc & Hl & Hprev
                    & Hk & H7 & H6 & H5 & H4 & H3 & H2 & H1 & _);
    rewrite H3 in Hk; rewrite H4 in Hl; rewrite H5 in Hc;
    cbn [negb andb] in Hk, Hl, Hc;
    apply le_zero_false in Hk, Hl, Hc;
    destruct Hk as (km & Ekm & Hkm), Hl as (l & El & Hpl),
             Hc as (c & Ec & Hpc);
    rewrite blank_false in H1, H2, H6, H7;
    (repeat (split; [assumption|]));
    exists km, l, c;
    (split; [now apply text_number|]); (split; [assumption|]);
    (split; [now apply text_number|]); (split; [assumption|]);
    (split; [now apply text_number|]); (split; [assumption|]);
    (split; [|exact Hp]);
    rewrite H3 in Hkp; cbn [negb andb] in Hkp;
    (destruct (Num.blank (ManualDieselEntry.previousKmReading f)) eqn:Eb;
     [left; destruct (ManualDieselEntry.previousKmReading f);
        [reflexivity | discriminate]|]);
    cbn [negb andb] in Hkp, Hprev;
    apply lt_zero_false in Hprev; destruct Hprev as (p & Ep & Hpp);
    right; exists p; (split; [now apply text_number|]);
    (split; [assumption|]);
    rewrite Ekm, Ep in Hkp;
    apply Qnot_le_lt; intros Hle; apply Qle_bool_iff in Hle; congruence.
Qed.

End ManualEntryFacts.





(** X17.  A previous reading of 0 passes validation but counts as no
    previous reading when the record is built: the 0 is stored, no distance
    and no consumption are, while the preview of the same form shows the
    whole kilometre reading as the distance. *)
Theorem manual_entry_previous_reading_zero :
  forall (hasProbe : bool) (trim : string -> string)
         (formData : ManualDieselEntry.FormData)
         (recordData : ManualDieselEntry.RecordData) (warned : bool)
         (previous : Q),
    ManualDieselEntry.handleSubmit hasProbe trim formData
      = Some (recordData, warned) ->
    ManualDieselEntry.previousKmReading formData = Text (Num previous) ->
    previous == 0 ->
    ManualDieselEntry.recPreviousKmReading recordData = Some (Num previous)
    /\ ManualDieselEntry.recDistanceTravelled recordData = None
    /\ ManualDieselEntry.recKmPerLitre recordData = None
    /\ exists km : Q,
         ManualDieselEntry.recKmReading recordData = Num km
         /\ 0 < km
         /\ NumArith.same (ManualDieselEntry.calculateDistance formData)
              (Num km).
Proof.
  intros hasProbe trim f r w p. unfold ManualDieselEntry.handleSubmit.
  destruct (ManualDieselEntry.validateForm hasProbe f) eqn:Hv;
    cbn [negb]; [|discriminate].
  apply manual_validateForm_true in Hv.
  destruct Hv as (_ & _ & _ & _ & km & l & c & Ekm & Hkm & El & Hl & Ec & Hc
                  & _ & _).
  cbv zeta. intros [= <- _] Ep Hp0.
  cbn [ManualDieselEntry.recKmReading
       ManualDieselEntry.recPreviousKmReading
       ManualDieselEntry.recDistanceTravelled
       ManualDieselEntry.recKmPerLitre].
  unfold ManualDieselEntry.calculateDistance.
  rewrite Ekm, Ep. cbn [JsText.number Num.blank negb andb NumArith.sub].
  assert (Tp : ManualDieselEntry.truthyNum (Num p) = false)
    by now apply truthyNum_false.
  rewrite Tp.
  repeat (split; [reflexivity|]).
  exists km. split; [reflexivity|]. split; [exact Hkm|].
  assert (Hd : km - p == km) by (rewrite Hp0; ring).
  assert (Gd : Num.gt (Num (km - p)) 0 = true)
    by (apply gt_true; now rewrite Hd).
  rewrite Gd. exact Hd.
Qed.

(** The sample fill with 0 as the previous reading. *)
Lemma manual_entry_previous_reading_zero_witness :
  exists recordData warned,
    ManualDieselEntry.handleSubmit true FormSamples.trimmed
      FormSamples.dieselFormFromZero = Some (recordData, warned)
    /\ ManualDieselEntry.recDistanceTravelled recordData = None
    /\ ManualDieselEntry.calculateDistance FormSamples.dieselFormFromZero
       = Num (125000 - 0).
Proof.
  eexists. eexists. split; [reflexivity|].
  split; [|reflexivity].
  exact (proj1 (proj2 (@manual_entry_previous_reading_zero true
                         FormSamples.trimmed FormSamples.dieselFormFromZero
                         _ _ 0 eq_refl eq_refl (Qeq_refl 0)))).
Defined.

(** X18.  The submission carries the large-discrepancy warning exactly when
    the preview of the same form shows one and the probe reading is not 0.
    A record submitted with the warning is nevertheless stored as probe
    verified, with a discrepancy of more than 50 litres either way. *)
Theorem manual_entry_warning :
  forall (hasProbe : bool) (trim : string -> string)
         (formData : ManualDieselEntry.FormData)
         (recordData : ManualDieselEntry.RecordData) (warned : bool),
    ManualDieselEntry.handleSubmit hasProbe trim formData
      = Some (recordData, warned) ->
    warned
    = ManualDieselEntryModal.hasLargeDiscrepancy hasProbe
        (ManualDieselEntry.preview formData)
      && ManualDieselEntry.truthyNum
           (JsText.number (ManualDieselEntry.probeReading formData))
    /\ (warned = true ->
        ManualDieselEntry.recProbeVerified recordData = true
        /\ exists d : Q,
             ManualDieselEntry.recProbeDiscrepancy recordData = Some (Num d)
             /\ 50 < Qabs d).
Proof.
  intros hasProbe trim f r w. unfold ManualDieselEntry.handleSubmit.
  destruct (ManualDieselEntry.validateForm hasProbe f) eqn:Hv;
    cbn [negb]; [|discriminate].
  apply manual_validateForm_true in Hv.
  destruct Hv as (_ & _ & _ & _ & km & l & c & Ekm & Hkm & El & Hl & Ec & Hc
                  & _ & Hprobe).
  cbv zeta. intros [= <- <-].
  cbn [ManualDieselEntry.recProbeVerified
       ManualDieselEntry.recProbeDiscrepancy].
  unfold ManualDieselEntryModal.hasLargeDiscrepancy,
    ManualDieselEntryModal.calculateProbeDiscrepancy,
    ManualDieselEntry.preview.
  cbn [ManualDieselEntryModal.formLitresFilled
       ManualDieselEntryModal.formProbeReading].
  rewrite El. cbn [JsText.number Num.blank Num.parse orb].
  assert (Tl : ManualDieselEntry.truthyNum (Num l) = true).
  { apply truthyNum_true. intros E. rewrite E in Hl.
    now apply Qlt_irrefl in Hl. }
  rewrite Tl.
  destruct hasProbe.
  - destruct (Hprobe eq_refl) as (p & -> & Hp).
    cbn [Num.blank JsText.number negb orb andb Num.parse Num.sub].
    destruct (ManualDieselEntry.truthyNum (Num p)) eqn:Tp;
      cbn [NumArith.sub Num.abs andb].
    + rewrite andb_true_r. split; [reflexivity|].
      intros G. split; [reflexivity|].
      exists (l - p). split; [reflexivity|]. now apply gt_true.
    + rewrite andb_false_r. split; [reflexivity | discriminate].
  - cbn [negb orb andb].
    split.
    + destruct (Num.blank (ManualDieselEntry.probeReading f));
        [reflexivity|].
      destruct (ManualDieselEntry.truthyNum
                  (JsText.number (ManualDieselEntry.probeReading f)));
        reflexivity.
    + destruct (Num.blank (ManualDieselEntry.probeReading f));
        [discriminate|].
      destruct (ManualDieselEntry.truthyNum
                  (JsText.number (ManualDieselEntry.probeReading f)));
        discriminate.
Qed.

(** The sample fill, 60 litres over the probe, is stored verified and with
    the warning. *)
Lemma manual_entry_warning_witness :
  exists recordData,
    ManualDieselEntry.handleSubmit true FormSamples.trimmed
      FormSamples.dieselForm = Some (recordData, true)
    /\ ManualDieselEntry.recProbeVerified recordData = true.
Proof.
  eexists. split; [reflexivity|].
  exact (proj1 (proj2 (@manual_entry_warning true FormSamples.trimmed
                         FormSamples.dieselForm _ _ eq_refl) eq_refl)).
Defined.

(** ** The norms editor *)

Lemma usable_setField (field : DieselNormsModal.NormField) (q : Q)
  (norm : DieselNorms) :
  DieselNormsModal.usable norm ->
  0 < q ->
  (DieselNormsModal.isTolerance field = true -> q <= 50) ->
  DieselNormsModal.usable (DieselNormsModal.setField field q norm).
Proof.
  intros (He & Ht & Ht') Hq Hq'. unfold DieselNormsModal.usable.
  destruct field; cbn [DieselNormsModal.setField expectedKmPerLitre
                       tolerancePercentage].
  - auto.
  - split; [exact He|]. split; [exact Hq | now apply Hq'].
Qed.

Lemma fleet_setField (field : DieselNormsModal.NormField) (q : Q)
  (norm : DieselNorms) :
  normFleetNumber (DieselNormsModal.setField field q norm)
  = normFleetNumber norm.
Proof. destruct field; reflexivity. Qed.

Lemma hasNorm_false (norms : list DieselNorms) (fleet : string) :
  DieselNormsModal.hasNorm norms fleet = false ->
  ~ In fleet (map normFleetNumber norms).
Proof.
  unfold DieselNormsModal.hasNorm.
  induction norms as [|n norms IH]; cbn [existsb map In]; [tauto|].
  intros H. apply orb_false_iff in H. destruct H as [H1 H2].
  intros [E | HIn]; [|now apply IH].
  apply String.eqb_neq in H1. contradiction.
Qed.

Lemma NoDup_map_filter {A B} (f : A -> B) (p : A -> bool) (l : list A) :
  NoDup (map f l) -> NoDup (map f (List.filter p l)).
Proof.
  induction l as [|x l IH]; cbn [map List.filter]; [auto|].
  intros H. inversion H as [|? ? Hn Hd]; subst.
  destruct (p x); cbn [map]; [|now apply IH].
  constructor; [|now apply IH].
  intros HIn. apply Hn. apply in_map_iff in HIn.
  destruct HIn as (y & Hy & HIn). apply filter_In in HIn.
  apply in_map_iff. exists y. tauto.
Qed.

Section NormsEditorFacts.

Variable FLEET_NUMBERS : list string.
Hypothesis fleets_distinct : NoDup FLEET_NUMBERS.

Lemma handleNormChange_sound (fleet : string)
  (field : DieselNormsModal.NormField) (value : FieldText)
  (s : DieselNormsModal.State) :
  DieselNormsModal.normsSound s ->
  DieselNormsModal.normsSound (DieselNormsModal.handleNormChange fleet field value s).
Proof.
  intros [Hu Hd]. unfold DieselNormsModal.handleNormChange. cbv zeta.
  destruct (Num.isNaN (Num.parse value) || JsText.le (Num.parse value) 0)
    eqn:E1; [split; assumption|].
  destruct (DieselNormsModal.isTolerance field && Num.gt (Num.parse value) 50)
    eqn:E2; [split; assumption|].
  apply le_zero_false in E1. destruct E1 as (q & Eq & Hq).
  rewrite Eq in *. split; cbn [DieselNormsModal.editedNorms].
  - apply Forall_forall. intros n HIn. apply in_map_iff in HIn.
    destruct HIn as (n0 & <- & HIn).
    rewrite Forall_forall in Hu. specialize (Hu n0 HIn).
    destruct (String.eqb (normFleetNumber n0) fleet); [|exact Hu].
    apply usable_setField; [exact Hu | exact Hq|].
    intros Ht. rewrite Ht in E2. cbn [andb Num.gt] in E2.
    now apply gt_false.
  - rewrite map_map.
    erewrite map_ext; [exact Hd|].
    intros n. cbn beta.
    destruct (String.eqb (normFleetNumber n) fleet);
      [apply fleet_setField | reflexivity].
Qed.

Lemma step_normsSound (s : DieselNormsModal.State)
  (e : DieselNormsModal.Event) :
  DieselNormsModal.normsSound s -> DieselNormsModal.normsSound (DieselNormsModal.step FLEET_NUMBERS s e).
Proof using fleets_distinct.
  intros Hs. destruct e as [fleet field value | | fleet confirmed | confirmed];
    cbn [DieselNormsModal.step].
  - now apply handleNormChange_sound.
  - unfold DieselNormsModal.addNewFleetNorm. cbv zeta.
    destruct (List.filter _ FLEET_NUMBERS) as [|fleet rest] eqn:Ef;
      [exact Hs|].
    assert (HIn : In fleet (List.filter
                   (fun fleet => negb (DieselNormsModal.hasNorm
                      (DieselNormsModal.editedNorms s) fleet))
                   FLEET_NUMBERS)) by (rewrite Ef; now left).
    apply filter_In in HIn. destruct HIn as [_ Hn].
    apply negb_true_iff in Hn. apply hasNorm_false in Hn.
    destruct Hs as [Hu Hd]. split; cbn [DieselNormsModal.editedNorms].
    + apply Forall_app. split; [exact Hu|].
      constructor; [|constructor].
      unfold DieselNormsModal.usable.
      cbn [expectedKmPerLitre tolerancePercentage].
      repeat split; reflexivity || (intros H; discriminate).
    + rewrite map_app. cbn [map normFleetNumber].
      apply NoDup_app; [exact Hd | constructor; [intros []|constructor]|].
      intros x Hx [<- | []]. contradiction.
  - unfold DieselNormsModal.removeFleetNorm.
    destruct confirmed; [|exact Hs].
    destruct Hs as [Hu Hd]. split; cbn [DieselNormsModal.editedNorms].
    + apply Forall_forall. intros n HIn. apply filter_In in HIn.
      rewrite Forall_forall in Hu. now apply Hu.
    + now apply NoDup_map_filter.
  - unfold DieselNormsModal.resetToDefaults.
    destruct confirmed; [|exact Hs]. cbv zeta.
    split; cbn [DieselNormsModal.editedNorms].
    + apply Forall_forall. intros n HIn. apply in_map_iff in HIn.
      destruct HIn as (fleet & <- & _).
      unfold DieselNormsModal.usable.
      cbn [expectedKmPerLitre tolerancePercentage].
      destruct (String.eqb fleet "UD");
        repeat split; reflexivity || (intros H; discriminate).
    + rewrite map_map. cbn [normFleetNumber]. rewrite map_id.
      exact fleets_distinct.
Qed.

Lemma run_normsSound (events : list DieselNormsModal.Event)
  (s : DieselNormsModal.State) :
  DieselNormsModal.normsSound s -> DieselNormsModal.normsSound (DieselNormsModal.run FLEET_NUMBERS s events).
Proof using fleets_distinct.
  unfold DieselNormsModal.run. revert s.
  induction events as [|e events IH]; intros s Hs; cbn [fold_left];
    [exact Hs|].
  apply IH. now apply step_normsSound.
Qed.

Lemma step_errorAt (key : string) (s : DieselNormsModal.State)
  (e : DieselNormsModal.Event) :
  DieselNormsModal.errorAt key s ->
  ~ DieselNormsModal.clears key e ->
  DieselNormsModal.errorAt key (DieselNormsModal.step FLEET_NUMBERS s e).
Proof.
  intros (m & Hm & Hne) Hc.
  destruct e as [fleet field value | | fleet confirmed | confirmed];
    cbn [DieselNormsModal.step].
  - unfold DieselNormsModal.handleNormChange. cbv zeta.
    assert (Hset : forall message s',
               message <> EmptyString ->
               DieselNormsModal.errors s'
               = Assoc.set String.eqb
                   (DieselNormsModal.errorKey fleet field) message
                   (DieselNormsModal.errors s) ->
               DieselNormsModal.errorAt key s').
    { intros message s' Hmsg Es'. unfold DieselNormsModal.errorAt. rewrite Es'.
      destruct (string_dec (DieselNormsModal.errorKey fleet field) key)
        as [<- | Hk].
      - exists message. split; [|exact Hmsg].
        apply (@find_set_same _ _ _ String.eqb_eq).
      - exists m. split; [|exact Hne].
        rewrite (@find_set_other _ _ _ String.eqb_eq); assumption. }
    destruct (Num.isNaN (Num.parse value) || JsText.le (Num.parse value) 0)
      eqn:E1; [eapply Hset; [|reflexivity]; discriminate|].
    destruct (DieselNormsModal.isTolerance field
              && Num.gt (Num.parse value) 50)
      eqn:E2; [eapply Hset; [|reflexivity]; discriminate|].
    apply le_zero_false in E1. destruct E1 as (q & Eq & Hq).
    rewrite Eq in *. exists m. split; [|exact Hne].
    cbn [DieselNormsModal.errors].
    rewrite (@find_remove_other _ _ _ String.eqb_eq); [exact Hm|].
    intros Hk. apply Hc. cbn [DieselNormsModal.clears].
    split; [exact Hk|]. exists q. split; [exact Eq|]. split; [exact Hq|].
    intros ->. cbn [DieselNormsModal.isTolerance andb Num.gt] in E2.
    now apply gt_false.
  - unfold DieselNormsModal.addNewFleetNorm. cbv zeta.
    destruct (List.filter _ FLEET_NUMBERS); exists m; split; assumption.
  - unfold DieselNormsModal.removeFleetNorm.
    destruct confirmed; exists m; split; assumption.
  - unfold DieselNormsModal.resetToDefaults.
    destruct confirmed; exists m; split; assumption.
Qed.

Lemma run_errorAt (key : string) (events : list DieselNormsModal.Event)
  (s : DieselNormsModal.State) :
  DieselNormsModal.errorAt key s ->
  (forall e, In e events -> ~ DieselNormsModal.clears key e) ->
  DieselNormsModal.errorAt key (DieselNormsModal.run FLEET_NUMBERS s events).
Proof.
  unfold DieselNormsModal.run. revert s.
  induction events as [|e events IH]; intros s Hs Hc; cbn [fold_left];
    [exact Hs|].
  apply IH.
  - apply step_errorAt; [exact Hs | apply Hc; now left].
  - intros e' HIn. apply Hc. now right.
Qed.

Lemma handleSave_errorAt (key : string) (s : DieselNormsModal.State) :
  DieselNormsModal.errorAt key s -> DieselNormsModal.handleSave s = None.
Proof.
  intros (m & Hm & Hne). unfold DieselNormsModal.handleSave. cbv zeta.
  assert (E : existsb (fun entry => negb (String.eqb (snd entry) ""))
                (DieselNormsModal.errors s) = true).
  { apply existsb_exists. exists (key, m). split.
    - now apply (@find_In _ _ _ String.eqb_eq).
    - cbn [snd]. apply negb_true_iff. now apply String.eqb_neq. }
  now rewrite E.
Qed.

End NormsEditorFacts.

(** X19.  Starting from usable norms, one per fleet, whatever is changed,
    added, removed or reset in the norms editor, the norms a save hands
    over are usable (a positive expectation, a tolerance above 0 and at
    most 50 percent) and there is still one per fleet. *)
Theorem saved_norms_are_usable :
  forall (FLEET_NUMBERS : list string) (norms : list DieselNorms)
         (events : list DieselNormsModal.Event) (saved : list DieselNorms),
    NoDup FLEET_NUMBERS ->
    Forall DieselNormsModal.usable norms ->
    NoDup (map normFleetNumber norms) ->
    DieselNormsModal.handleSave
      (DieselNormsModal.run FLEET_NUMBERS
         (DieselNormsModal.initialState norms) events) = Some saved ->
    Forall DieselNormsModal.usable saved
    /\ NoDup (map normFleetNumber saved).
Proof.
  intros FLEET_NUMBERS norms events saved Hf Hu Hd.
  assert (Hs : DieselNormsModal.normsSound
                 (DieselNormsModal.run FLEET_NUMBERS
                    (DieselNormsModal.initialState norms) events)).
  { apply run_normsSound; [exact Hf|]. split; assumption. }
  unfold DieselNormsModal.handleSave. cbv zeta.
  destruct (existsb _ _); [discriminate|].
  intros [= <-]. exact Hs.
Qed.

(** A tolerance set to 20 and a fleet added, then saved. *)
Lemma saved_norms_are_usable_witness :
  exists saved,
    DieselNormsModal.handleSave
      (DieselNormsModal.run FormSamples.fleets
         (DieselNormsModal.initialState [Samples.norm3])
         [DieselNormsModal.NormChange "22H"
            DieselNormsModal.TolerancePercentage (Text (Num 20));
          DieselNormsModal.AddNewFleetNorm]) = Some saved
    /\ List.length saved = 2%nat
    /\ Forall DieselNormsModal.usable saved
    /\ NoDup (map normFleetNumber saved).
Proof.
  eexists. split; [reflexivity|]. split; [reflexivity|].
  apply (@saved_norms_are_usable FormSamples.fleets [Samples.norm3]
           [DieselNormsModal.NormChange "22H"
              DieselNormsModal.TolerancePercentage (Text (Num 20));
            DieselNormsModal.AddNewFleetNorm] _).
  - repeat constructor; cbn [In]; intuition discriminate.
  - repeat constructor; discriminate.
  - repeat constructor; cbn [In]; intuition.
  - reflexivity.
Defined.

(** X20.  Once a change is rejected in the norms editor (not a number, not
    above 0, or a tolerance above 50), saving is refused until a valid
    value is entered under the same fleet and field: adding, removing the
    fleet's norm, resetting to the defaults and changes elsewhere leave
    the error in place. *)
Theorem rejected_norm_change_blocks_saving :
  forall (FLEET_NUMBERS : list string) (s : DieselNormsModal.State)
         (fleetNumber : string) (field : DieselNormsModal.NormField)
         (value : FieldText) (events : list DieselNormsModal.Event),
    Num.isNaN (Num.parse value) || JsText.le (Num.parse value) 0
    || DieselNormsModal.isTolerance field && Num.gt (Num.parse value) 50
    = true ->
    (forall e, In e events ->
       ~ DieselNormsModal.clears
           (DieselNormsModal.errorKey fleetNumber field) e) ->
    DieselNormsModal.handleSave
      (DieselNormsModal.run FLEET_NUMBERS
         (DieselNormsModal.handleNormChange fleetNumber field value s)
         events) = None.
Proof.
  intros FLEET_NUMBERS s fleet field value events Hrej Hev.
  apply handleSave_errorAt
    with (key := DieselNormsModal.errorKey fleet field).
  apply run_errorAt; [|exact Hev].
  unfold DieselNormsModal.handleNormChange. cbv zeta.
  destruct (Num.isNaN (Num.parse value) || JsText.le (Num.parse value) 0)
    eqn:E1.
  - eexists. cbn [DieselNormsModal.errors].
    split; [apply (@find_set_same _ _ _ String.eqb_eq) | discriminate].
  - cbn [orb] in Hrej. rewrite Hrej.
    eexists. cbn [DieselNormsModal.errors].
    split; [apply (@find_set_same _ _ _ String.eqb_eq) | discriminate].
Qed.

(** A tolerance of 60 entered for fleet 22H, the fleet's norm then removed
    and the norms reset: the save is still refused. *)
Lemma rejected_norm_change_blocks_saving_witness :
  DieselNormsModal.handleSave
    (DieselNormsModal.run FormSamples.fleets
       (DieselNormsModal.handleNormChange "22H"
          DieselNormsModal.TolerancePercentage (Text (Num 60))
          (DieselNormsModal.initialState [Samples.norm3]))
       [DieselNormsModal.RemoveFleetNorm "22H" true;
        DieselNormsModal.ResetToDefaults true]) = None.
Proof.
  apply (@rejected_norm_change_blocks_saving FormSamples.fleets
           (DieselNormsModal.initialState [Samples.norm3]) "22H"
           DieselNormsModal.TolerancePercentage (Text (Num 60))
           [DieselNormsModal.RemoveFleetNorm "22H" true;
            DieselNormsModal.ResetToDefaults true]).
  - reflexivity.
  - intros e [<- | [<- | []]]; cbn [DieselNormsModal.clears]; tauto.
Defined.

(** ** Retrying *)

Section RetryFacts.

Variables World Value Failure : Type.
Variable operation : World -> (Failure + Value) * World.
Variable delay : Q.

Lemma after_S (k : nat) (w : World) :
  Retry.after operation (S k) w
  = snd (operation (Retry.after operation k w)).
Proof.
  revert w. induction k as [|k IH]; intros w; [reflexivity|].
  change (Retry.after operation (S (S k)) w)
    with (Retry.after operation (S k) (snd (operation w))).
  rewrite IH. reflexivity.
Qed.

(** The loop resolves at the first call that does. *)
Lemma attempts_resolves (k : nat) :
  forall (fuel : nat) (i : Z) (lastError : option Failure) (w : World)
         (waited : list Q) (value : Value),
    (k < fuel)%nat ->
    (forall j, (j < k)%nat ->
       exists error,
         fst (operation (Retry.after operation j w)) = inl error) ->
    fst (operation (Retry.after operation k w)) = inr value ->
    Retry.attempts operation delay fuel i lastError w waited
    = {| Retry.outcome := inr value;
         Retry.world := Retry.after operation (S k) w;
         Retry.waits := waited ++ Retry.backoff delay i k |}.
Proof.
  induction k as [|k IH]; intros fuel i lastError w waited value Hk Hrej Hres.
  - destruct fuel as [|fuel]; [lia|].
    cbn [Retry.attempts Retry.after Retry.backoff] in *.
    destruct (operation w) as [[e|v] w']; cbn [fst snd] in *;
      [discriminate|].
    injection Hres as ->. now rewrite app_nil_r.
  - destruct fuel as [|fuel]; [lia|].
    cbn [Retry.attempts Retry.backoff].
    destruct (Hrej 0%nat ltac:(lia)) as (e & He).
    cbn [Retry.after] in He.
    change (Retry.after operation (S (S k)) w)
      with (Retry.after operation (S k) (snd (operation w))).
    destruct (operation w) as [[e'|v] w'] eqn:Ew; cbn [fst snd] in *;
      [|discriminate].
    rewrite (IH fuel (i + 1)%Z (Some e') w' _ value).
    + now rewrite <- app_assoc.
    + lia.
    + intros j Hj. specialize (Hrej (S j) ltac:(lia)).
      cbn [Retry.after] in Hrej. now rewrite Ew in Hrej.
    + cbn [Retry.after] in Hres. now rewrite Ew in Hres.
Qed.

(** The loop rejects when every call does. *)
Lemma attempts_rejects (fuel : nat) :
  forall (i : Z) (lastError : option Failure) (w : World) (waited : list Q),
    (forall j, (j < fuel)%nat ->
       exists error,
         fst (operation (Retry.after operation j w)) = inl error) ->
    exists thrown,
      Retry.attempts operation delay fuel i lastError w waited
      = {| Retry.outcome := inl thrown;
           Retry.world := Retry.after operation fuel w;
           Retry.waits := waited ++ Retry.backoff delay i fuel |}
      /\ match fuel with
         | O => thrown = lastError
         | S last =>
             exists error,
               fst (operation (Retry.after operation last w)) = inl error
               /\ thrown = Some error
         end.
Proof.
  induction fuel as [|fuel IH]; intros i lastError w waited Hrej.
  - exists lastError. cbn [Retry.attempts Retry.after Retry.backoff].
    now rewrite app_nil_r.
  - cbn [Retry.attempts Retry.backoff].
    destruct (Hrej 0%nat ltac:(lia)) as (e & He).
    cbn [Retry.after] in He.
    change (Retry.after operation (S fuel) w)
      with (Retry.after operation fuel (snd (operation w))).
    destruct (operation w) as [[e'|v] w'] eqn:Ew; cbn [fst snd] in *;
      [|discriminate].
    destruct (IH (i + 1)%Z (Some e') w' (waited ++ [delay * inject_Z (2 ^ i)]))
      as (thrown & -> & Hthrown).
    { intros j Hj. specialize (Hrej (S j) ltac:(lia)).
      cbn [Retry.after] in Hrej. now rewrite Ew in Hrej. }
    exists thrown. split; [now rewrite <- app_assoc|].
    destruct fuel as [|last].
    + exists e'. cbn [Retry.after]. rewrite Ew. split; [reflexivity|].
      exact Hthrown.
    + destruct Hthrown as (error & Herr & ->).
      exists error. split; [|reflexivity].
      change (Retry.after operation (S last) w)
        with (Retry.after operation last (snd (operation w))).
      now rewrite Ew.
Qed.

(** The time-outs of [k] failed attempts add up to [delay * (2^k - 1)]
    times the first factor. *)
Lemma backoff_total (k : nat) :
  forall i : Z,
    (0 <= i)%Z ->
    total (Retry.backoff delay i k)
    == delay * inject_Z (2 ^ i) * (inject_Z (2 ^ Z.of_nat k) - 1).
Proof.
  induction k as [|k IH]; intros i Hi.
  - cbn [Retry.backoff total].
    change (2 ^ Z.of_nat 0)%Z with 1%Z. ring.
  - cbn [Retry.backoff total]. rewrite IH by lia.
    rewrite Nat2Z.inj_succ, Z.pow_succ_r by lia.
    rewrite Z.pow_add_r by lia. change (2 ^ 1)%Z with 2%Z.
    rewrite !inject_Z_mult. ring.
Qed.

End RetryFacts.

(** X21.  When the first [k] calls of the operation reject, the next one
    resolves and [k] is below [maxRetries], [retryOperation] resolves with
    that value after exactly [k + 1] calls, having waited [delay],
    [2 delay], [4 delay], ... after the failed ones: [delay * (2^k - 1)] in
    all. *)
Theorem retryOperation_resolves_with_first_success :
  forall (World Value Failure : Type)
         (operation : World -> (Failure + Value) * World)
         (maxRetries : Z) (delay : Q) (w : World) (k : nat) (value : Value),
    (Z.of_nat k < maxRetries)%Z ->
    (forall j, (j < k)%nat ->
       exists error,
         fst (operation (Retry.after operation j w)) = inl error) ->
    fst (operation (Retry.after operation k w)) = inr value ->
    let settled := Retry.retryOperation operation maxRetries delay w in
    Retry.outcome settled = inr value
    /\ Retry.world settled = Retry.after operation (S k) w
    /\ Retry.waits settled = Retry.backoff delay 0 k
    /\ total (Retry.waits settled)
       == delay * (inject_Z (2 ^ Z.of_nat k) - 1).
Proof.
  intros World Value Failure operation maxRetries delay w k value Hk Hrej
    Hres settled.
  unfold settled, Retry.retryOperation.
  rewrite (@attempts_resolves _ _ _ operation delay k (Z.to_nat maxRetries)
             0%Z None w [] value); [|lia | exact Hrej | exact Hres].
  cbn [Retry.outcome Retry.world Retry.waits app].
  repeat (split; [reflexivity|]).
  rewrite backoff_total by lia. change (2 ^ 0)%Z with 1%Z. ring.
Qed.

(** The request that times out twice answers on the third of three
    tries, after waits of 1000 and 2000. *)
Lemma retryOperation_resolves_with_first_success_witness :
  let settled :=
    Retry.retryOperation RetrySamples.flaky Retry.defaultMaxRetries
      Retry.defaultDelay 0%nat in
  Retry.outcome settled = inr 2%nat
  /\ Retry.world settled = 3%nat
  /\ Retry.waits settled = Retry.backoff Retry.defaultDelay 0 2
  /\ total (Retry.waits settled)
     == Retry.defaultDelay * (inject_Z (2 ^ Z.of_nat 2) - 1).
Proof.
  apply (@retryOperation_resolves_with_first_success nat nat string
           RetrySamples.flaky Retry.defaultMaxRetries Retry.defaultDelay
           0%nat 2%nat 2%nat).
  - reflexivity.
  - intros j Hj. exists "timeout"%string.
    destruct j as [|[|j]]; [reflexivity | reflexivity | lia].
  - reflexivity.
Defined.

(** X22.  When every one of the [maxRetries] calls rejects,
    [retryOperation] rejects with the error of the last call (with
    [undefined] when [maxRetries] is 0 or less and nothing was called),
    after exactly that many calls and after waiting past the last failure
    too: [delay * (2^maxRetries - 1)] in all. *)
Theorem retryOperation_rejects_with_last_error :
  forall (World Value Failure : Type)
         (operation : World -> (Failure + Value) * World)
         (maxRetries : Z) (delay : Q) (w : World),
    (forall j, (j < Z.to_nat maxRetries)%nat ->
       exists error,
         fst (operation (Retry.after operation j w)) = inl error) ->
    let settled := Retry.retryOperation operation maxRetries delay w in
    let tried := Z.to_nat maxRetries in
    Retry.world settled = Retry.after operation tried w
    /\ Retry.waits settled = Retry.backoff delay 0 tried
    /\ total (Retry.waits settled)
       == delay * (inject_Z (2 ^ Z.of_nat tried) - 1)
    /\ match tried with
       | O => Retry.outcome settled = inl None
       | S last =>
           exists error,
             fst (operation (Retry.after operation last w)) = inl error
             /\ Retry.outcome settled = inl (Some error)
       end.
Proof.
  intros World Value Failure operation maxRetries delay w Hrej settled tried.
  unfold settled, Retry.retryOperation. fold tried.
  destruct (@attempts_rejects _ _ _ operation delay tried 0%Z None w [] Hrej)
    as (thrown & -> & Hthrown).
  cbn [Retry.outcome Retry.world Retry.waits app].
  repeat (split; [reflexivity|]).
  split.
  - rewrite backoff_total by lia. change (2 ^ 0)%Z with 1%Z. ring.
  - destruct tried as [|last]; [now rewrite Hthrown|].
    destruct Hthrown as (error & Herr & ->). now exists error.
Qed.

(** The request that never answers is given up after three calls and
    waits of 1000, 2000 and 4000. *)
Lemma retryOperation_rejects_with_last_error_witness :
  let settled :=
    Retry.retryOperation RetrySamples.down Retry.defaultMaxRetries
      Retry.defaultDelay 0%nat in
  Retry.world settled = 3%nat
  /\ Retry.waits settled = Retry.backoff Retry.defaultDelay 0 3
  /\ total (Retry.waits settled)
     == Retry.defaultDelay * (inject_Z (2 ^ Z.of_nat 3) - 1)
  /\ exists error,
       fst (RetrySamples.down 2%nat) = inl error
       /\ Retry.outcome settled = inl (Some error).
Proof.
  apply (@retryOperation_rejects_with_last_error nat nat string
           RetrySamples.down Retry.defaultMaxRetries Retry.defaultDelay
           0%nat).
  intros j _. exists "offline"%string. reflexivity.
Defined.

(** ** The statistics per driver *)

Lemma tripsOf_snoc_same (name : string) (done : list Trip) (t : Trip) :
  driverName t = name ->
  DriverStats.tripsOf name (done ++ [t]) = DriverStats.tripsOf name done ++ [t].
Proof.
  intros <-. unfold DriverStats.tripsOf.
  rewrite filter_app. cbn [List.filter]. now rewrite String.eqb_refl.
Qed.

Lemma tripsOf_snoc_other (name : string) (done : list Trip) (t : Trip) :
  driverName t <> name ->
  DriverStats.tripsOf name (done ++ [t]) = DriverStats.tripsOf name done.
Proof.
  intros H. unfold DriverStats.tripsOf.
  rewrite filter_app. cbn [List.filter].
  apply String.eqb_neq in H. rewrite H. apply app_nil_r.
Qed.

Lemma tripsOf_nil (name : string) (done : list Trip) :
  ~ In name (map driverName done) -> DriverStats.tripsOf name done = [].
Proof.
  unfold DriverStats.tripsOf.
  induction done as [|t done IH]; cbn [map In List.filter]; [reflexivity|].
  intros H. destruct (String.eqb (driverName t) name) eqn:E.
  - apply String.eqb_eq in E. elim H. now left.
  - apply IH. intros H'. apply H. now right.
Qed.

Lemma list_sum_snoc (l : list nat) (x : nat) :
  list_sum (l ++ [x]) = (list_sum l + x)%nat.
Proof. rewrite list_sum_app. cbn [list_sum fold_right]. lia. Qed.

(** The tally a trip with an array of costs is added to. *)
Lemma tallyHolds_add (stats : DriverStats.Tally) (driven : list Trip)
  (t : Trip) (l : list CostEntry) (tripCosts : Q) :
  costs t = Arr l ->
  tripCosts == total (costAmounts t) ->
  DriverStats.tallyHolds stats driven ->
  DriverStats.tallyHolds
    {| DriverStats.trips := S (DriverStats.trips stats);
       DriverStats.flags :=
         DriverStats.flags stats
         + List.length (List.filter (fun c => isFlagged c) l);
       DriverStats.unresolvedFlags :=
         DriverStats.unresolvedFlags stats + countUnresolvedFlags l;
       DriverStats.investigations :=
         DriverStats.investigations stats
         + List.length (List.filter (fun c => isFlagged c) l);
       DriverStats.revenue :=
         DriverStats.revenue stats + or_zero (baseRevenue t);
       DriverStats.expenses := DriverStats.expenses stats + tripCosts;
       DriverStats.tripsWithFlags :=
         if (0 <? List.length (List.filter (fun c => isFlagged c) l))%nat
         then S (DriverStats.tripsWithFlags stats)
         else DriverStats.tripsWithFlags stats |}
    (driven ++ [t]).
Proof.
  intros Hc Ht (H1 & H2 & H3 & H4 & H5 & H6 & H7).
  assert (Ef : DriverStats.flaggedEntries t = countFlagged l)
    by (unfold DriverStats.flaggedEntries; now rewrite Hc).
  assert (Eu : DriverStats.unresolvedEntries t = countUnresolvedFlags l)
    by (unfold DriverStats.unresolvedEntries; now rewrite Hc).
  unfold DriverStats.tallyHolds.
  cbn [DriverStats.trips DriverStats.flags DriverStats.unresolvedFlags
       DriverStats.investigations DriverStats.revenue DriverStats.expenses
       DriverStats.tripsWithFlags].
  rewrite length_filter_flagged, !map_app, filter_app, !length_app.
  cbn [map List.filter List.length].
  rewrite !list_sum_snoc, !total_snoc, Ef, Eu.
  repeat split.
  - lia.
  - lia.
  - lia.
  - lia.
  - destruct (0 <? countFlagged l)%nat; cbn [List.length]; lia.
  - now rewrite H6.
  - now rewrite H7, Ht.
Qed.

Lemma tallyHolds_zero : DriverStats.tallyHolds DriverStats.zero [].
Proof. repeat split; reflexivity. Qed.

Lemma driver_addTrip_throws (acc : list (string * DriverStats.Tally)) (t : Trip) :
  isArray (costs t) = false ->
  DriverStats.addTrip acc t = inl TypeError.
Proof.
  intros H. unfold DriverStats.addTrip.
  destruct (costs t) as [| |b|l]; [reflexivity..|discriminate].
Qed.

Lemma driver_addTrip_filled (done : list Trip)
  (acc : list (string * DriverStats.Tally)) (t : Trip) :
  isArray (costs t) = true ->
  DriverStats.filled done acc ->
  exists acc',
    DriverStats.addTrip acc t = inr acc'
    /\ DriverStats.filled (done ++ [t]) acc'.
Proof.
  intros Harr (Hnd & Hkeys & Hhold).
  destruct (costs t) as [| |b|l] eqn:Hc; try discriminate.
  unfold DriverStats.addTrip. rewrite Hc.
  cbn [Js.filter bind ret Monad_either].
  rewrite getUnresolvedFlagsCount_spec, calculateTotalCosts_spec.
  cbn [bind ret Monad_either entries].
  set (n := driverName t).
  assert (Hcost : fold_left (fun sum cost => sum + costAmount cost) l 0
                  == total (costAmounts t)).
  { rewrite fold_left_total. unfold costAmounts. rewrite Hc.
    cbn [entries]. ring. }
  assert (Hother : forall name stats,
             In (name, stats) acc -> name <> n ->
             DriverStats.tallyHolds stats
               (DriverStats.tripsOf name (done ++ [t]))).
  { intros name stats HIn Hne.
    rewrite tripsOf_snoc_other by (unfold n in Hne; congruence).
    now apply Hhold. }
  assert (Hk : forall name,
             In name (map driverName (done ++ [t]))
             <-> In name (map driverName done) \/ name = n).
  { intros name. rewrite map_app, in_app_iff. cbn [map In]. unfold n.
    intuition. }
  destruct (DriverStats.inherited n) eqn:Hinh.
  - assert (Hnone : Assoc.find String.eqb n acc = None).
    { apply (@find_None _ _ _ String.eqb_eq). intros HIn.
      apply Hkeys in HIn. destruct HIn as [HIn _]. congruence. }
    rewrite Hnone. exists acc. split; [reflexivity|].
    split; [exact Hnd|]. split.
    + intros name. rewrite Hkeys, Hk. split.
      * intros [H1 H2]. auto.
      * intros [H1 [H2 | ->]]; [auto | congruence].
    + intros name stats HIn. apply Hother; [exact HIn|].
      intros ->. assert (HIn' : In n (map fst acc))
        by (apply in_map_iff; now exists (n, stats)).
      apply Hkeys in HIn'. destruct HIn' as [HIn' _]. congruence.
  - destruct (Assoc.find String.eqb n acc) as [stats|] eqn:Hfind.
    + rewrite Hfind.
      destruct (@find_Some _ _ _ String.eqb_eq _ _ _ Hfind)
        as (l1 & l2 & Eacc & Hl1).
      eexists. split; [reflexivity|].
      rewrite Eacc, (@set_present _ _ _ String.eqb_eq) by exact Hl1.
      assert (Hkeys' : map fst (l1 ++ (n, stats) :: l2) = map fst acc)
        by now rewrite Eacc.
      split; [|split].
      * rewrite map_app in *. cbn [map fst] in *. now rewrite Hkeys'.
      * intros name. rewrite Hk.
        replace (map fst (l1 ++ _ :: l2)) with (map fst acc)
          by (rewrite <- Hkeys', !map_app; reflexivity).
        rewrite Hkeys. split; [intros [H1 H2]; auto|].
        intros [H1 [H2 | ->]]; [auto|].
        assert (HIn : In n (map fst acc)).
        { rewrite Eacc, map_app, in_app_iff. right. now left. }
        now apply Hkeys in HIn.
      * intros name stats' HIn. apply in_app_iff in HIn.
        assert (Hn : forall s, In (n, s) acc -> s = stats).
        { intros s Hs. rewrite Eacc in Hs, Hnd.
          rewrite map_app in Hnd. cbn [map fst] in Hnd.
          apply NoDup_remove_2 in Hnd.
          apply in_app_iff in Hs. destruct Hs as [Hs | [Hs | Hs]].
          - elim Hl1. apply in_map_iff. now exists (n, s).
          - congruence.
          - elim Hnd. apply in_app_iff. right.
            apply in_map_iff. now exists (n, s). }
        destruct (string_dec name n) as [-> | Hne].
        -- assert (Es : stats'
                        = {| DriverStats.trips := S (DriverStats.trips stats);
                             DriverStats.flags :=
                               DriverStats.flags stats
                               + List.length
                                   (List.filter (fun c => isFlagged c) l);
                             DriverStats.unresolvedFlags :=
                               DriverStats.unresolvedFlags stats
                               + countUnresolvedFlags l;
                             DriverStats.investigations :=
                               DriverStats.investigations stats
                               + List.length
                                   (List.filter (fun c => isFlagged c) l);
                             DriverStats.revenue :=
                               DriverStats.revenue stats
                               + or_zero (baseRevenue t);
                             DriverStats.expenses :=
                               DriverStats.expenses stats
                               + fold_left
                                   (fun sum cost => sum + costAmount cost)
                                   l 0;
                             DriverStats.tripsWithFlags :=
                               if (0 <? List.length
                                          (List.filter
                                             (fun c => isFlagged c) l))%nat
                               then S (DriverStats.tripsWithFlags stats)
                               else DriverStats.tripsWithFlags stats |}).
           { destruct HIn as [HIn | [HIn | HIn]].
             - elim Hl1. apply in_map_iff. now exists (n, stats').
             - congruence.
             - rewrite Eacc, map_app in Hnd. cbn [map fst] in Hnd.
               apply NoDup_remove_2 in Hnd. elim Hnd.
               apply in_app_iff. right. apply in_map_iff.
               now exists (n, stats'). }
           rewrite Es, tripsOf_snoc_same by reflexivity.
           apply tallyHolds_add with (l := l); [exact Hc | exact Hcost|].
           apply Hhold. rewrite Eacc. apply in_app_iff. right. now left.
        -- apply Hother; [|exact Hne].
           rewrite Eacc. apply in_app_iff.
           destruct HIn as [HIn | [HIn | HIn]]; [now left | | right; now right].
           congruence.
    + assert (Habs : ~ In n (map fst acc))
        by now apply (@find_None _ _ _ String.eqb_eq).
      rewrite (@set_absent _ _ _ String.eqb_eq) by exact Habs.
      rewrite (@find_middle _ _ _ String.eqb_eq) by exact Habs.
      rewrite (@set_present _ _ _ String.eqb_eq) by exact Habs.
      eexists. split; [reflexivity|].
      assert (Hnew : ~ In n (map driverName done)).
      { intros HIn. apply Habs. apply Hkeys. auto. }
      split; [|split].
      * rewrite map_app. cbn [map fst].
        apply NoDup_app; [exact Hnd | constructor; [intros []|constructor]|].
        intros x Hx [<- | []]. contradiction.
      * intros name. rewrite Hk, map_app, in_app_iff. cbn [map fst In].
        rewrite Hkeys. split.
        -- intros [[H1 H2] | [<- | []]]; auto.
        -- intros [H1 [H2 | ->]]; auto.
      * intros name stats' HIn. apply in_app_iff in HIn.
        destruct HIn as [HIn | [HIn | []]].
        -- apply Hother; [exact HIn|]. intros ->. apply Habs.
           apply in_map_iff. now exists (n, stats').
        -- injection HIn as <- <-.
           rewrite tripsOf_snoc_same by reflexivity.
           rewrite tripsOf_nil by exact Hnew.
           apply (@tallyHolds_add DriverStats.zero [] t l);
             [exact Hc | exact Hcost | exact tallyHolds_zero].
Qed.

Lemma driver_addTrip_returns (acc : list (string * DriverStats.Tally))
  (t : Trip) :
  isArray (costs t) = true ->
  exists acc', DriverStats.addTrip acc t = inr acc'.
Proof.
  intros Harr. destruct (costs t) as [| |b|l] eqn:Hc; try discriminate.
  unfold DriverStats.addTrip. rewrite Hc.
  cbn [Js.filter bind ret Monad_either].
  rewrite getUnresolvedFlagsCount_spec, calculateTotalCosts_spec.
  cbn [bind ret Monad_either].
  destruct (Assoc.find String.eqb (driverName t) _); eexists; reflexivity.
Qed.

Lemma driver_each_filled (ts : list Trip) :
  forall (done : list Trip) (acc : list (string * DriverStats.Tally)),
    Forall (fun t => isArray (costs t) = true) ts ->
    DriverStats.filled done acc ->
    exists acc',
      Js.each DriverStats.addTrip ts acc = inr acc'
      /\ DriverStats.filled (done ++ ts) acc'.
Proof.
  induction ts as [|t ts IH]; intros done acc Harr Hf.
  - exists acc. rewrite app_nil_r. split; [reflexivity | exact Hf].
  - inversion Harr as [|? ? Ht Hts]; subst.
    destruct (@driver_addTrip_filled done acc t Ht Hf) as (acc1 & E1 & Hf1).
    destruct (IH _ _ Hts Hf1) as (acc' & E' & Hf').
    exists acc'. cbn [Js.each]. rewrite E1. cbn [bind Monad_either].
    rewrite <- app_assoc in Hf'. split; [exact E' | exact Hf'].
Qed.

Lemma driver_each_throws (ts : list Trip) :
  forall acc : list (string * DriverStats.Tally),
    Exists (fun t => isArray (costs t) = false) ts ->
    Js.each DriverStats.addTrip ts acc = inl TypeError.
Proof.
  induction ts as [|t ts IH]; intros acc Hex; [inversion Hex|].
  cbn [Js.each].
  destruct (isArray (costs t)) eqn:Ht.
  - destruct (@driver_addTrip_returns acc t Ht) as (acc1 & ->).
    cbn [bind Monad_either]. apply IH.
    inversion Hex as [? ? Hh | ? ? Hh]; subst; [congruence | exact Hh].
  - now rewrite (@driver_addTrip_throws acc t Ht).
Qed.

Lemma filled_nil : DriverStats.filled [] [].
Proof.
  split; [constructor|]. split.
  - intros name. cbn [map In]. tauto.
  - intros name stats [].
Qed.

Lemma tripsOf_nonempty (name : string) (l : list Trip) :
  In name (map driverName l) ->
  (1 <= List.length (DriverStats.tripsOf name l))%nat.
Proof.
  intros H. apply in_map_iff in H. destruct H as (t & E & HIn).
  assert (H : In t (DriverStats.tripsOf name l)).
  { apply filter_In. split; [exact HIn|]. now apply String.eqb_eq. }
  destruct (DriverStats.tripsOf name l); [destruct H | cbn; lia].
Qed.

Lemma unresolved_sum_le (l : list Trip) :
  (list_sum (map DriverStats.unresolvedEntries l)
   <= list_sum (map DriverStats.flaggedEntries l))%nat.
Proof.
  induction l as [|t l IH]; [reflexivity|].
  rewrite !map_cons, !list_sum_cons.
  pose proof (countUnresolved_le_flagged (entries (costs t))) as H.
  unfold DriverStats.unresolvedEntries, DriverStats.flaggedEntries in *. lia.
Qed.

Lemma flagged_trips_le (l : list Trip) :
  (List.length
     (List.filter (fun trip => (0 <? DriverStats.flaggedEntries trip)%nat) l)
   <= list_sum (map DriverStats.flaggedEntries l))%nat.
Proof.
  induction l as [|t l IH]; [reflexivity|].
  rewrite map_cons, list_sum_cons. cbn [List.filter].
  destruct (0 <? DriverStats.flaggedEntries t)%nat eqn:E;
    cbn [List.length]; [|lia].
  apply Nat.ltb_lt in E. lia.
Qed.

(** Over distinct names that cover the list, the trips per name add up to
    the list. *)
Lemma drivers_cover (ks : list string) (l : list Trip) :
  NoDup ks ->
  (forall t, In t l -> In (driverName t) ks) ->
  list_sum (map (fun k => List.length (DriverStats.tripsOf k l)) ks)
  = List.length l.
Proof.
  intros Hnd. unfold DriverStats.tripsOf.
  induction l as [|x l IH]; intros Hcov.
  - clear. induction ks as [|k ks IH]; [reflexivity | exact IH].
  - assert (Hone : forall ks', NoDup ks' ->
              list_sum (map (fun k => if String.eqb (driverName x) k
                                      then 1%nat else 0%nat) ks')
              = if in_dec string_dec (driverName x) ks'
                then 1%nat else 0%nat).
    { intros ks' Hnd'. induction Hnd' as [|k ks' Hk Hnd' IHk];
        [reflexivity|].
      rewrite map_cons, list_sum_cons, IHk.
      destruct (in_dec _ (driverName x) (k :: ks')) as [Hin|Hin],
               (in_dec _ (driverName x) ks') as [Hin'|Hin'].
      - assert (E : String.eqb (driverName x) k = false).
        { apply String.eqb_neq. intros E. now rewrite E in Hin'. }
        now rewrite E.
      - destruct Hin as [E|Hin]; [|contradiction].
        rewrite <- E, String.eqb_refl. reflexivity.
      - elim Hin. now right.
      - assert (E : String.eqb (driverName x) k = false).
        { apply String.eqb_neq. intros E. apply Hin. now left. }
        now rewrite E. }
    assert (Hsplit : forall ks',
      list_sum
        (map (fun k =>
                List.length
                  (List.filter (fun y => String.eqb (driverName y) k)
                     (x :: l))) ks')
      = (list_sum (map (fun k => if String.eqb (driverName x) k
                                 then 1%nat else 0%nat) ks')
         + list_sum
             (map (fun k =>
                     List.length
                       (List.filter (fun y => String.eqb (driverName y) k) l))
                ks'))%nat).
    { induction ks' as [|k ks' IHk]; [reflexivity|].
      rewrite !map_cons, !list_sum_cons, IHk. cbn [List.filter].
      destruct (String.eqb (driverName x) k); cbn [List.length]; lia. }
    rewrite Hsplit, (Hone ks Hnd), IH by (intros y Hy; apply Hcov; now right).
    destruct (in_dec _ (driverName x) ks) as [Hin|Hin]; [reflexivity|].
    elim Hin. apply Hcov. now left.
Qed.

Lemma tripsOf_own (name : string) (l : list Trip) :
  DriverStats.inherited name = false ->
  DriverStats.tripsOf name
    (List.filter
       (fun trip => negb (DriverStats.inherited (driverName trip))) l)
  = DriverStats.tripsOf name l.
Proof.
  intros Hn. unfold DriverStats.tripsOf.
  induction l as [|t l IH]; [reflexivity|]. cbn [List.filter].
  destruct (String.eqb (driverName t) name) eqn:E.
  - apply String.eqb_eq in E. rewrite E, Hn. cbn [negb List.filter].
    rewrite <- E at 1. rewrite String.eqb_refl. now rewrite IH.
  - destruct (DriverStats.inherited (driverName t)); cbn [negb List.filter];
      [exact IH|]. now rewrite E, IH.
Qed.

Lemma tallies_filled (filteredTrips : list Trip) :
  Forall (fun t => isArray (costs t) = true) filteredTrips ->
  exists acc,
    DriverStats.tallies filteredTrips = inr acc
    /\ DriverStats.filled filteredTrips acc.
Proof.
  intros H.
  destruct (@driver_each_filled filteredTrips [] [] H filled_nil)
    as (acc & E & Hf).
  exists acc. split; [exact E | exact Hf].
Qed.



Lemma arrays_or_not (l : list Trip) :
  Forall (fun t => isArray (costs t) = true) l
  \/ Exists (fun t => isArray (costs t) = false) l.
Proof.
  induction l as [|t l [IH | IH]].
  - left. constructor.
  - destruct (isArray (costs t)) eqn:E.
    + left. now constructor.
    + right. now constructor.
  - right. now constructor 2.
Qed.

Lemma driverStats_rows (filteredTrips : list Trip)
  (rows : list (string * DriverStats.Stats)) :
  DriverStats.driverStats filteredTrips = inr rows ->
  exists acc,
    DriverStats.filled filteredTrips acc
    /\ rows = map (fun entry => (fst entry, DriverStats.derive (snd entry)))
                acc.
Proof.
  unfold DriverStats.driverStats. intros H.
  destruct (arrays_or_not filteredTrips) as [Harr | Hex].
  - destruct (tallies_filled Harr) as (acc & E & Hf).
    rewrite E in H. cbn [bind ret Monad_either] in H.
    exists acc. split; [exact Hf | congruence].
  - unfold DriverStats.tallies in H.
    rewrite (driver_each_throws [] Hex) in H. discriminate.
Qed.

(** X23.  The statistics per driver throw exactly when some filtered trip
    has a costs value that is not an array, although the helpers computed
    beside them for the same trips (the flag collection, the count of
    unresolved flags and the cost total) return for every costs value. *)
Theorem driver_stats_need_cost_arrays :
  forall filteredTrips : list Trip,
    ((exists error, DriverStats.driverStats filteredTrips = inl error)
     <-> exists trip,
           In trip filteredTrips /\ isArray (costs trip) = false)
    /\ (exists flagged, getAllFlaggedCosts (Arr filteredTrips) = inr flagged)
    /\ (forall trip,
          In trip filteredTrips ->
          exists count total,
            getUnresolvedFlagsCount (costs trip) = inr count
            /\ calculateTotalCosts (costs trip) = inr total).
Proof.
  intros filteredTrips. split; [|split].
  - split.
    + intros (error & H).
      destruct (arrays_or_not filteredTrips) as [Harr | Hex].
      * destruct (tallies_filled Harr) as (acc & E & _).
        unfold DriverStats.driverStats in H. rewrite E in H. discriminate.
      * apply Exists_exists in Hex. exact Hex.
    + intros Hex. apply Exists_exists in Hex. exists TypeError.
      unfold DriverStats.driverStats, DriverStats.tallies.
      now rewrite (driver_each_throws [] Hex).
  - eexists. apply getAllFlaggedCosts_spec.
  - intros trip _. eexists. eexists.
    split; [apply getUnresolvedFlagsCount_spec | apply calculateTotalCosts_spec].
Qed.

(** X24.  When the statistics per driver are computed, they hold one entry
    for every driver name of the filtered trips that [Object.prototype]
    does not define, and no other entry.  The entry of a driver counts that
    driver's trips (at least one), the flagged entries and the unresolved
    ones of those trips, the trips with a flag, the revenue and the
    expenses; its investigations equal its flags, its unresolved flags do
    not exceed its flags, its trips with flags exceed neither its trips nor
    its flags; and the trips of the entries add up to the trips under such
    names. *)
Theorem driver_stats_entries :
  forall (filteredTrips : list Trip)
         (rows : list (string * DriverStats.Stats)),
    DriverStats.driverStats filteredTrips = inr rows ->
    NoDup (map fst rows)
    /\ (forall name,
          In name (map fst rows)
          <-> DriverStats.inherited name = false
              /\ In name (map driverName filteredTrips))
    /\ (forall name stats,
          In (name, stats) rows ->
          let t := DriverStats.tally stats in
          DriverStats.tallyHolds t (DriverStats.tripsOf name filteredTrips)
          /\ (1 <= DriverStats.trips t)%nat
          /\ DriverStats.investigations t = DriverStats.flags t
          /\ (DriverStats.unresolvedFlags t <= DriverStats.flags t)%nat
          /\ (DriverStats.tripsWithFlags t <= DriverStats.trips t)%nat
          /\ (DriverStats.tripsWithFlags t <= DriverStats.flags t)%nat)
    /\ list_sum
         (map (fun row => DriverStats.trips (DriverStats.tally (snd row)))
            rows)
       = List.length
           (List.filter
              (fun trip => negb (DriverStats.inherited (driverName trip)))
              filteredTrips).
Proof.
  intros filteredTrips rows H.
  destruct (@driverStats_rows _ _ H) as (acc & (Hnd & Hkeys & Hhold) & ->).
  assert (Ek : map fst
                 (map (fun entry : string * DriverStats.Tally =>
                         (fst entry, DriverStats.derive (snd entry))) acc)
               = map fst acc).
  { rewrite map_map. apply map_ext. reflexivity. }
  rewrite Ek.
  split; [exact Hnd|]. split; [exact Hkeys|]. split.
  - intros name stats HIn t. apply in_map_iff in HIn.
    destruct HIn as ([name' tally] & [= <- <-] & HIn).
    cbn [fst snd] in *. subst t. cbn [DriverStats.derive DriverStats.tally].
    pose proof (Hhold _ _ HIn) as Hh.
    split; [exact Hh|].
    destruct Hh as (H1 & H2 & H3 & H4 & H5 & _).
    assert (HIn' : In name' (map fst acc))
      by (apply in_map_iff; now exists (name', tally)).
    apply Hkeys in HIn'. destruct HIn' as [_ HIn'].
    split; [rewrite H1; now apply tripsOf_nonempty|].
    split; [exact H3|].
    split; [rewrite H4, H2; apply unresolved_sum_le|].
    split; [rewrite H5, H1; apply filter_length_le|].
    rewrite H5, H2. apply flagged_trips_le.
  - rewrite map_map. cbn [snd DriverStats.derive DriverStats.tally].
    assert (Hcover : forall t,
               In t (List.filter
                       (fun trip =>
                          negb (DriverStats.inherited (driverName trip)))
                       filteredTrips) ->
               In (driverName t) (map fst acc)).
    { intros t Ht. apply filter_In in Ht.
      destruct Ht as [Ht Hn]. apply negb_true_iff in Hn. apply Hkeys.
      split; [exact Hn | now apply in_map]. }
    rewrite <- (@drivers_cover (map fst acc) _ Hnd Hcover).
    rewrite map_map.
    assert (Hrow : forall entry : string * DriverStats.Tally,
               In entry acc ->
               DriverStats.trips (snd entry)
               = List.length
                   (DriverStats.tripsOf (fst entry)
                      (List.filter
                         (fun trip =>
                            negb (DriverStats.inherited (driverName trip)))
                         filteredTrips))).
    { intros [name tally] HIn. cbn [fst snd].
      assert (HIn' : In name (map fst acc))
        by (apply in_map_iff; now exists (name, tally)).
      apply Hkeys in HIn'. destruct HIn' as [Hn _].
      rewrite tripsOf_own by exact Hn.
      now destruct (Hhold _ _ HIn) as (H1 & _). }
    clear - Hrow. induction acc as [|entry acc IH]; [reflexivity|].
    rewrite !map_cons, !list_sum_cons.
    rewrite Hrow by now left.
    rewrite IH; [reflexivity|]. intros e He. apply Hrow. now right.
Qed.

(** The two sample trips of one driver make one entry: two trips, one of
    them with the single flagged entry. *)
Lemma driver_stats_entries_witness :
  exists rows,
    DriverStats.driverStats DashboardSamples.twoTrips = inr rows
    /\ NoDup (map fst rows)
    /\ list_sum
         (map (fun row => DriverStats.trips (DriverStats.tally (snd row)))
            rows)
       = 2%nat.
Proof.
  eexists. split; [reflexivity|].
  pose proof (@driver_stats_entries DashboardSamples.twoTrips _ eq_refl)
    as (Hnd & _ & _ & Hsum).
  split; [exact Hnd | exact Hsum].
Defined.



(** ** The diesel import *)





(** ** The compliance score *)

Lemma compliance_min_bounds (a b : Q) :
  Compliance.min a b <= a /\ Compliance.min a b <= b
  /\ (0 <= a -> 0 <= b -> 0 <= Compliance.min a b).
Proof.
  unfold Compliance.min. destruct (Qle_bool a b) eqn:E.
  - apply Qle_bool_iff in E. split; [apply Qle_refl|]. split; auto.
  - assert (H : b < a).
    { apply Qnot_le_lt. intros H. apply Qle_bool_iff in H. congruence. }
    split; [now apply Qlt_le_weak|]. split; [apply Qle_refl | auto].
Qed.

Lemma compliance_max_zero (a : Q) :
  0 <= Compliance.max 0 a /\ (0 <= a -> Compliance.max 0 a = a).
Proof.
  unfold Compliance.max. destruct (Qle_bool 0 a) eqn:E.
  - apply Qle_bool_iff in E. auto.
  - split; [apply Qle_refl|]. intros H. apply Qle_bool_iff in H. congruence.
Qed.

(** X27.  [calculateTripCompliance] always returns a score, never below 0;
    it is 0 when the trip's costs are not an array.  For an array of costs
    and delay reasons that do not sum below 0, the score lies between 30
    and 100, so the floor at 0 never applies; with a negative sum of delay
    hours, no planned arrival time and every cost documented, the score is
    100 plus twice the hours, above 100. *)
Theorem compliance_score_range :
  forall (trip : Trip) (extras : Compliance.Extras),
    exists score,
      Compliance.calculateTripCompliance trip extras = inr score
      /\ 0 <= score
      /\ (isArray (costs trip) = false -> score = 0)
      /\ (isArray (costs trip) = true ->
          0 <= Compliance.delayOnRecord extras ->
          30 <= score /\ score <= 100)
      /\ (isArray (costs trip) = true ->
          Compliance.delayOnRecord extras < 0 ->
          Compliance.plannedArrivalDateTime extras = None ->
          (forall cost, In cost (entries (costs trip)) ->
                        Compliance.undocumented extras cost = false) ->
          score == 100 - 2 * Compliance.delayOnRecord extras
          /\ 100 < score).
Proof.
  intros trip extras. unfold Compliance.calculateTripCompliance.
  destruct (costs trip) as [| |b|l] eqn:Hc;
    try (exists 0; cbn [Js.filter bind ret raise catch Monad_either
                        Exception_either isArray];
         repeat split; try reflexivity; try discriminate;
         apply Qle_refl).
  cbv zeta. cbn [Js.filter bind ret catch Monad_either Exception_either].
  eexists. split; [reflexivity|].
  set (arrival :=
         match Compliance.plannedArrivalDateTime extras,
               Compliance.actualArrivalDateTime extras with
         | Some planned, Some actual =>
             if Num.gt (Num.abs (NumArith.div (NumArith.sub actual planned)
                                   (Num (1000 * 60 * 60)))) 4
             then 100 - 20
             else if Num.gt (Num.abs (NumArith.div
                                        (NumArith.sub actual planned)
                                        (Num (1000 * 60 * 60)))) 2
             then 100 - 10
             else if Num.gt (Num.abs (NumArith.div
                                        (NumArith.sub actual planned)
                                        (Num (1000 * 60 * 60)))) 1
             then 100 - 5 else 100
         | _, _ => 100
         end).
  assert (Ha : 80 <= arrival /\ arrival <= 100).
  { unfold arrival.
    destruct (Compliance.plannedArrivalDateTime extras) as [p|];
      [|split; discriminate].
    destruct (Compliance.actualArrivalDateTime extras) as [a|];
      [|split; discriminate].
    destruct (Num.gt _ 4); [split; discriminate|].
    destruct (Num.gt _ 2); [split; discriminate|].
    destruct (Num.gt _ 1); split; discriminate. }
  set (delayed :=
         match Compliance.delayReasons extras with
         | Some (delay :: delays) =>
             arrival
             - Compliance.min 30
                 (Compliance.totalDelayHours (delay :: delays) * 2)
         | _ => arrival
         end).
  set (undoc := List.filter (Compliance.undocumented extras) l).
  set (final :=
         if (0 <? List.length undoc)%nat
         then delayed
              - Compliance.min 20
                  (inject_Z (Z.of_nat (List.length undoc)) * 5)
         else delayed).
  assert (Hdocs : delayed - 20 <= final /\ final <= delayed).
  { unfold final. destruct (0 <? List.length undoc)%nat.
    - destruct (compliance_min_bounds 20
                  (inject_Z (Z.of_nat (List.length undoc)) * 5))
        as (H1 & _ & H3).
      assert (H0 : 0 <= Compliance.min 20
                          (inject_Z (Z.of_nat (List.length undoc)) * 5)).
      { apply H3; [discriminate|].
        apply Qmult_le_0_compat; [|discriminate].
        unfold Qle. cbn [Qnum Qden inject_Z]. lia. }
      split; lra.
    - split; lra. }
  destruct (compliance_max_zero final) as [Hmax0 Hmax].
  split; [exact Hmax0|]. split; [discriminate|]. split.
  - intros _ Hdelay.
    assert (Hd : arrival - 30 <= delayed /\ delayed <= arrival).
    { unfold delayed, Compliance.delayOnRecord in *.
      destruct (Compliance.delayReasons extras) as [[|delay delays]|];
        [split; lra | | split; lra].
      destruct (compliance_min_bounds 30
                  (Compliance.totalDelayHours (delay :: delays) * 2))
        as (H1 & _ & H3).
      assert (H0 : 0 <= Compliance.min 30
                          (Compliance.totalDelayHours (delay :: delays) * 2)).
      { apply H3; [discriminate|].
        apply Qmult_le_0_compat; [exact Hdelay | discriminate]. }
      split; lra. }
    rewrite Hmax by lra. split; lra.
  - intros _ Hneg Hplanned Hdocd.
    assert (Earr : arrival = 100) by (unfold arrival; now rewrite Hplanned).
    assert (Eundoc : undoc = []).
    { unfold undoc. cbn [entries] in Hdocd. clear - Hdocd.
      induction l as [|c l IH]; [reflexivity|]. cbn [List.filter].
      rewrite (Hdocd c) by now left.
      apply IH. intros c' Hc'. apply Hdocd. now right. }
    assert (Efinal : final = delayed)
      by (unfold final; now rewrite Eundoc).
    assert (Ed : delayed == 100 - 2 * Compliance.delayOnRecord extras).
    { unfold delayed, Compliance.delayOnRecord in *. rewrite Earr.
      destruct (Compliance.delayReasons extras) as [[|delay delays]|].
      - unfold Compliance.totalDelayHours in Hneg. cbn [fold_left] in Hneg.
        now apply Qlt_irrefl in Hneg.
      - unfold Compliance.min.
        destruct (Qle_bool 30 _) eqn:E.
        + apply Qle_bool_iff in E. lra.
        + ring.
      - now apply Qlt_irrefl in Hneg. }
    rewrite Efinal in *.
    assert (Hpos : 0 <= delayed) by lra.
    rewrite (Hmax Hpos). split; [exact Ed | lra].
Qed.
